(** * Bulk product import / export of the POS admin page

    A shallow embedding of [handleExportProducts] and [handleFileImport]
    (component [ProductManagementPage]) together with the two mutations of
    [productService] they call, and of the part of the JavaScript runtime
    those functions rely on (strings, numbers, [parseInt], [parseFloat],
    [JSON.parse], [JSON.stringify], [Map]).

    Modelling boundary.
    - A JavaScript string is a [string]: a sequence of code units in the
      range 0..255.  Case mapping and white space are those of that range.
    - A JavaScript number is written as a decimal numeral [Finite neg m e],
      or is [NaN] or an infinity.  A numeral stands for the Number value
      of (-1)^neg * m * 10^e, the IEEE 754 double nearest to it (ties to
      even, zero below the range of the doubles and an infinity above it):
      sign tests, comparisons and the decimal text of a number are those
      of that double.
    - A code unit above 255 that an escape of a JSON text writes is kept
      as the code unit 255: it stays different from every character of
      the ASCII names and words the code compares a parsed string with.
    - The spreadsheet library is outside the repository: a worksheet is the
      list of row objects that [sheet_to_json] returns and that
      [json_to_sheet] receives.

    The development also covers the list the page shows
    ([filteredAndSortedProducts], [requestSort], the selection), the
    bulk and single deletes and the bulk edit of the page, the delete of
    [UserManagementPage], the summary of [InventoryOverviewPage], the
    check of the session in [App], and [productService] over HTTP
    ([handleApiResponse], the session, the stock updates).
    - The network is a class with one operation, [fetch], over a state of
      the other side; [localStorage] is a map of texts.
    - The answer to [window.confirm] is a boolean argument of the handler
      that asks.
    - The casts of a response to [Product[]] and the like are functions
      from the JSON value read.
    - [Array.prototype.sort] is a stable sort; its outcome is determined
      when the comparator is a consistent ordering. *)

From Stdlib Require Import ZArith NArith String Ascii List Bool Lia.
From Stdlib Require Import Sorting.Sorted Sorting.Permutation OrderedTypeEx.
From stdpp Require Import base option list gmap strings.

Local Open Scope string_scope.
Local Open Scope list_scope.

(** ** JavaScript runtime *)

Module Js.

(** *** Characters and strings *)

Definition code (c : ascii) : N := N_of_ascii c.

(** WhiteSpace and LineTerminator code units below 256: TAB, LF, VT, FF,
    CR, SP and NBSP. *)
Definition is_space (c : ascii) : bool :=
  let n := code c in
  ((9 <=? n) && (n <=? 13) || (n =? 32) || (n =? 160))%N.

Definition is_digit (c : ascii) : bool :=
  let n := code c in ((48 <=? n) && (n <=? 57))%N.

Definition digit_value (c : ascii) : N := (code c - 48)%N.

Definition digit_char (d : N) : ascii := ascii_of_N (48 + d).

(** [String.prototype.toLowerCase] on one code unit: A-Z, and the
    upper-case letters of the range 192..222 other than the multiplication
    sign. *)
Definition lower_char (c : ascii) : ascii :=
  let n := code c in
  if ((65 <=? n) && (n <=? 90) ||
      (192 <=? n) && (n <=? 222) && negb (n =? 215))%N
  then ascii_of_N (n + 32) else c.

Fixpoint toLowerCase (s : string) : string :=
  match s with
  | EmptyString => EmptyString
  | String c r => String (lower_char c) (toLowerCase r)
  end.

Fixpoint trimStart (s : string) : string :=
  match s with
  | String c r => if is_space c then trimStart r else s
  | EmptyString => EmptyString
  end.

(** [trimEnd] keeps a character when it is not a space or when something
    is left after it. *)
Fixpoint trimEnd (s : string) : string :=
  match s with
  | EmptyString => EmptyString
  | String c r =>
      match trimEnd r with
      | EmptyString => if is_space c then EmptyString else String c EmptyString
      | r' => String c r'
      end
  end.

Definition trim (s : string) : string := trimEnd (trimStart s).

(** [s.split(sep)] for a one-character separator: always at least one
    piece. *)
Fixpoint split (sep : ascii) (s : string) : list string :=
  match s with
  | EmptyString => [EmptyString]
  | String c r =>
      if Ascii.eqb c sep then EmptyString :: split sep r
      else match split sep r with
           | p :: ps => String c p :: ps
           | [] => [String c EmptyString]
           end
  end.

(** [parts.join(sep)] *)
Fixpoint join (sep : string) (parts : list string) : string :=
  match parts with
  | [] => ""
  | [p] => p
  | p :: ps => p +:+ sep +:+ join sep ps
  end.

Definition nonempty (s : string) : bool :=
  match s with EmptyString => false | _ => true end.

(** [hay] contains [needle] as a substring. *)
Definition contains (hay needle : string) : Prop :=
  exists pre post, hay = pre +:+ needle +:+ post.

(** A text between double quotes. *)
Definition quoted (s : string) : string :=
  String "034" s +:+ String "034" "".

Definition chars (s : string) : list ascii := list_ascii_of_string s.
Definition text (l : list ascii) : string := string_of_list_ascii l.

(** *** Numbers *)

(** A number is [NaN], an infinity, or a decimal numeral.  A numeral is a
    way of writing a double: [Finite neg m e] stands for the Number value
    of (-1)^neg * m * 10^e, the double nearest to it, and numerals that
    stand for the same double are the same number.  Whatever reads a
    number ([lt0], [le0], [ge0], [isFinite], [toString], and the
    comparisons and truth tests further down) reads that double, through
    [magnitude]; whatever makes a number from a text ([parseInt],
    [parseFloat], [JSON.parse]) gives the Number value in the digits
    [Number::toString] writes it with, through [number_value]. *)
Inductive number : Type :=
| NaN
| Infinity (neg : bool)
| Finite (neg : bool) (m : N) (e : Z).

Definition isNaN (x : number) : bool :=
  match x with NaN => true | _ => false end.

(** The magnitude of a double: zero, [mant * 2^exp2], or infinite. *)
Inductive binary64 : Type :=
| Zero
| Double (mant : N) (exp2 : Z)
| Infinite.

Definition binary64_eqb (a b : binary64) : bool :=
  match a, b with
  | Zero, Zero | Infinite, Infinite => true
  | Double ma ea, Double mb eb => (ma =? mb)%N && (ea =? eb)%Z
  | _, _ => false
  end.

(** [m * 10^e] as a fraction in lowest terms. *)
Definition fraction (m : N) (e : Z) : N * N :=
  let num := (m * 10 ^ Z.to_N e)%N in
  let den := (10 ^ Z.to_N (- e))%N in
  let g := N.gcd num den in
  ((num / g)%N, (den / g)%N).

(** [2^l <= num / den] *)
Definition reaches (num den : N) (l : Z) : bool :=
  (den * 2 ^ Z.to_N l <=? num * 2 ^ Z.to_N (- l))%N.

(** The integer part of the binary logarithm of [num / den]: it is the
    difference of the logarithms of [num] and [den], or one less. *)
Definition floor_log2 (num den : N) : Z :=
  let l := (Z.of_N (N.log2 num) - Z.of_N (N.log2 den))%Z in
  if reaches num den l then l else (l - 1)%Z.

(** The double nearest to [num / den]: a significand of 53 bits, or of
    fewer bits at the least exponent -1074; the quotient is rounded to
    the nearest integer, a tie to the even one; beyond the exponent 971
    the value is infinite. *)
Definition nearest (num den : N) : binary64 :=
  if (num =? 0)%N then Zero else
  let p := Z.max (floor_log2 num den - 52) (-1074) in
  let a := (num * 2 ^ Z.to_N (- p))%N in
  let b := (den * 2 ^ Z.to_N p)%N in
  let q := (a / b)%N in
  let r := (a mod b)%N in
  let up := (b <? 2 * r)%N || ((b =? 2 * r)%N && N.odd q) in
  let q' := if up then (q + 1)%N else q in
  let '(mant, exp2) :=
    if (q' =? 2 ^ 53)%N then ((2 ^ 52)%N, (p + 1)%Z) else (q', p) in
  if (mant =? 0)%N then Zero
  else if (971 <? exp2)%Z then Infinite
  else Double mant exp2.

(** The magnitude of the number the numeral [m * 10^e] stands for. *)
Definition magnitude (m : N) (e : Z) : binary64 :=
  let '(num, den) := fraction m e in nearest num den.

Definition is_zero (d : binary64) : bool :=
  match d with Zero => true | _ => false end.

(** [x < 0], [x <= 0], [x >= 0]: every comparison with [NaN] is false, and
    the two zeros are equal. *)
Definition lt0 (x : number) : bool :=
  match x with
  | NaN => false
  | Infinity neg => neg
  | Finite neg m e => neg && negb (is_zero (magnitude m e))
  end.

Definition le0 (x : number) : bool :=
  match x with
  | NaN => false
  | Infinity neg => neg
  | Finite neg m e => neg || is_zero (magnitude m e)
  end.

Definition ge0 (x : number) : bool :=
  match x with
  | NaN => false
  | Infinity neg => negb neg
  | Finite neg m e => negb neg || is_zero (magnitude m e)
  end.

(** [Number.isFinite(x)] *)
Definition isFinite (x : number) : bool :=
  match x with
  | Finite _ m e => match magnitude m e with Infinite => false | _ => true end
  | _ => false
  end.

Definition of_nat (n : nat) : number := Finite false (N.of_nat n) 0.

(** Decimal digits of a natural number, most significant first. *)
Fixpoint digits_aux (fuel : nat) (n : N) (acc : list ascii) : list ascii :=
  match fuel with
  | O => acc
  | S f =>
      let acc' := digit_char (n mod 10) :: acc in
      if (n <? 10)%N then acc' else digits_aux f (n / 10) acc'
  end.

Definition digits_of_N (n : N) : list ascii :=
  digits_aux (S (N.to_nat (N.size n))) n [].

Definition value_of_digits (l : list ascii) : N :=
  fold_left (fun a c => (a * 10 + digit_value c)%N) l 0%N.

(** [mant * 2^exp2] written out in full, as an integer and a power of
    ten. *)
Definition expansion (mant : N) (exp2 : Z) : N * Z :=
  if (0 <=? exp2)%Z then ((mant * 2 ^ Z.to_N exp2)%N, 0%Z)
  else ((mant * 5 ^ Z.to_N (- exp2))%N, exp2).

(** The decimals of [k] digits next to [i * 10^e], where [i] has [len]
    digits: the one below and the one above, the closer one first and,
    of two equally close, the even one first.  The one above a run of
    nines is a power of ten, and is written with the digit 1. *)
Definition candidates (i : N) (len k : nat) (e : Z) : list (N * Z) :=
  if (len <=? k)%nat then [(i, e)] else
  let p := (10 ^ N.of_nat (len - k))%N in
  let lo := (i / p)%N in
  let r := (i mod p)%N in
  let e' := (e + Z.of_nat (len - k))%Z in
  let below := (lo, e') in
  let above :=
    if (lo + 1 =? 10 ^ N.of_nat k)%N then (1%N, (e' + Z.of_nat k)%Z)
    else ((lo + 1)%N, e') in
  if (2 * r <? p)%N || ((2 * r =? p)%N && N.even lo)
  then [below; above] else [above; below].

(** The decimal [c] is not zero and stands for the double [d]. *)
Definition rounds_to (d : binary64) (c : N * Z) : bool :=
  negb (c.1 =? 0)%N && binary64_eqb (magnitude c.1 c.2) d.

Fixpoint first_of {A B : Type} (f : A -> option B) (l : list A) : option B :=
  match l with
  | [] => None
  | x :: r => match f x with Some y => Some y | None => first_of f r end
  end.

(** The decimal with the fewest digits that stands for the double [d],
    and of those the one nearest to [d]; seventeen digits tell any two
    doubles apart. *)
Definition shortest (d : binary64) : option (N * Z) :=
  match d with
  | Double mant exp2 =>
      let '(i, e) := expansion mant exp2 in
      let len := length (digits_of_N i) in
      first_of (fun k => List.find (rounds_to d) (candidates i len k e)) (seq 1 17)
  | _ => None
  end.

(** The Number value of (-1)^neg * m * 10^e, written with the digits
    [Number::toString] gives it: a zero below the range of the doubles,
    an infinity above it. *)
Definition number_value (neg : bool) (m : N) (e : Z) : number :=
  match magnitude m e with
  | Zero => Finite neg 0 0
  | Double mant exp2 =>
      let '(s, es) := default (m, e) (shortest (Double mant exp2)) in
      Finite neg s es
  | Infinite => Infinity neg
  end.

(** The longest run of leading digits, and what follows it. *)
Fixpoint span_digits (l : list ascii) : list ascii * list ascii :=
  match l with
  | c :: r =>
      if is_digit c then let '(ds, rest) := span_digits r in (c :: ds, rest)
      else ([], l)
  | [] => ([], [])
  end.

Fixpoint skip_spaces (l : list ascii) : list ascii :=
  match l with
  | c :: r => if is_space c then skip_spaces r else l
  | [] => []
  end.

(** An optional sign. *)
Definition take_sign (l : list ascii) : bool * list ascii :=
  match l with
  | "-"%char :: r => (true, r)
  | "+"%char :: r => (false, r)
  | _ => (false, l)
  end.

(** [parseInt(s, 10)]: leading white space, an optional sign, then the
    longest run of decimal digits; [NaN] when that run is empty, else the
    Number value of the integer read. *)
Definition parseInt (s : string) : number :=
  let '(neg, l) := take_sign (skip_spaces (chars s)) in
  match span_digits l with
  | ([], _) => NaN
  | (ds, _) => number_value neg (value_of_digits ds) 0
  end.

Definition is_prefix (p l : list ascii) : bool :=
  bool_decide (take (length p) l = p).

Definition is_e (c : ascii) : bool := Ascii.eqb c "e" || Ascii.eqb c "E".

(** The exponent part of a decimal literal, when it is complete. *)
Definition scan_exponent (l : list ascii) : option (Z * list ascii) :=
  match l with
  | c :: r =>
      if is_e c then
        let '(eneg, r1) := take_sign r in
        match span_digits r1 with
        | ([], _) => None
        | (ds, rest) =>
            let v := Z.of_N (value_of_digits ds) in
            Some (if eneg then (- v)%Z else v, rest)
        end
      else None
  | [] => None
  end.

(** [parseFloat(s)]: leading white space, then the longest prefix that is
    a StrDecimalLiteral; [NaN] when there is none, else the Number value
    of the decimal read. *)
Definition parseFloat (s : string) : number :=
  let '(neg, l) := take_sign (skip_spaces (chars s)) in
  if is_prefix (chars "Infinity") l then Infinity neg else
  let '(ip, l1) := span_digits l in
  let '(fp, l2) :=
    match l1 with
    | "."%char :: r => span_digits r
    | _ => ([], l1)
    end in
  match ip ++ fp with
  | [] => NaN
  | ds =>
      let ex := match scan_exponent l2 with Some (x, _) => x | None => 0%Z end in
      number_value neg (value_of_digits ds) (ex - Z.of_nat (length fp))
  end.

(** Trailing zero digits are moved into the exponent. *)
Fixpoint strip_zeros (rev_ds : list ascii) (e : Z) : list ascii * Z :=
  match rev_ds with
  | c :: r => if Ascii.eqb c "0" then strip_zeros r (e + 1) else (rev rev_ds, e)
  | [] => ([], e)
  end.

Definition zeros (n : nat) : list ascii := replicate n "0"%char.

(** A decimal literal: integer digits, fraction digits, and an exponent
    given by its sign and digits. *)
Record literal : Type := {
  int_part : list ascii;
  frac_part : list ascii;
  exp_part : option (bool * list ascii)
}.

Definition literal_text (x : literal) : list ascii :=
  int_part x
  ++ match frac_part x with [] => [] | fp => "."%char :: fp end
  ++ match exp_part x with
     | None => []
     | Some (eneg, eds) => "e"%char :: (if eneg then "-"%char else "+"%char) :: eds
     end.

(** The four layouts of [Number::toString] for the digits [ds] of the
    shortest decimal and the position [n] of the decimal point: an
    integer, a fraction, a fraction below one, the exponent notation. *)
Definition layout (ds : list ascii) (n : Z) : literal :=
  let k := Z.of_nat (length ds) in
  if ((k <=? n) && (n <=? 21))%Z then
    {| int_part := ds ++ zeros (Z.to_nat (n - k)); frac_part := [];
       exp_part := None |}
  else if ((0 <? n) && (n <=? 21))%Z then
    {| int_part := take (Z.to_nat n) ds; frac_part := drop (Z.to_nat n) ds;
       exp_part := None |}
  else if ((-6 <? n) && (n <=? 0))%Z then
    {| int_part := ["0"%char]; frac_part := zeros (Z.to_nat (- n)) ++ ds;
       exp_part := None |}
  else
    {| int_part := take 1 ds; frac_part := drop 1 ds;
       exp_part := Some ((n - 1 <? 0)%Z, digits_of_N (Z.abs_N (n - 1))) |}.

(** [Number::toString(x)] in radix 10: the digits are those of the
    shortest decimal that stands for the same double. *)
Definition toString (x : number) : string :=
  match x with
  | NaN => "NaN"
  | Infinity neg => if neg then "-Infinity" else "Infinity"
  | Finite neg m e =>
      match magnitude m e with
      | Zero => "0"
      | Infinite => if neg then "-Infinity" else "Infinity"
      | Double mant exp2 =>
          let '(s, es) := default (m, e) (shortest (Double mant exp2)) in
          let '(ds, e') := strip_zeros (rev (digits_of_N s)) es in
          let body := literal_text (layout ds (Z.of_nat (length ds) + e')) in
          text (if neg then "-"%char :: body else body)
      end
  end.

Definition string_of_nat (n : nat) : string := toString (of_nat n).

(** *** Exceptions *)

(** A thrown [Error] object; [String(e)] is its name, a colon and its
    message. *)
Record js_error : Type := { err_name : string; err_message : string }.

Definition error_text (e : js_error) : string :=
  err_name e +:+ ": " +:+ err_message e.

Inductive result (A : Type) : Type :=
| Ok (a : A)
| Throw (e : js_error).
Arguments Ok {A} a.
Arguments Throw {A} e.

Definition SyntaxError (msg : string) : js_error :=
  {| err_name := "SyntaxError"; err_message := msg |}.
Definition TypeError (msg : string) : js_error :=
  {| err_name := "TypeError"; err_message := msg |}.
Definition Error (msg : string) : js_error :=
  {| err_name := "Error"; err_message := msg |}.

(** *** JSON *)

#[local] Unset Elimination Schemes.
Inductive json : Type :=
| JNull
| JBool (b : bool)
| JNumber (x : number)
| JString (s : string)
| JArray (items : list json)
| JObject (fields : list (string * json)).
#[local] Set Elimination Schemes.

(** JSON white space: SP, TAB, LF, CR. *)
Definition is_json_ws (c : ascii) : bool :=
  let n := code c in ((n =? 32) || (n =? 9) || (n =? 10) || (n =? 13))%N.

Fixpoint skip_ws (l : list ascii) : list ascii :=
  match l with
  | c :: r => if is_json_ws c then skip_ws r else l
  | [] => []
  end.

Definition hex_value (c : ascii) : option N :=
  let n := code c in
  if ((48 <=? n) && (n <=? 57))%N then Some (n - 48)%N
  else if ((97 <=? n) && (n <=? 102))%N then Some (n - 87)%N
  else if ((65 <=? n) && (n <=? 70))%N then Some (n - 55)%N
  else None.

(** The code unit written [\uXXXX]; a code unit above 255 is kept as
    255. *)
Definition unicode_escape (a b c d : ascii) : option ascii :=
  match hex_value a, hex_value b, hex_value c, hex_value d with
  | Some x, Some y, Some z, Some w =>
      Some (ascii_of_N (N.min (((x * 16 + y) * 16 + z) * 16 + w) 255))
  | _, _, _, _ => None
  end.

Definition cons_char (c : ascii) (r : result (string * list ascii))
  : result (string * list ascii) :=
  match r with
  | Ok (s, rest) => Ok (String c s, rest)
  | Throw e => Throw e
  end.

(** The characters of a JSON string after its opening quote, up to and
    including the closing quote. *)
Fixpoint parse_string_body (l : list ascii) : result (string * list ascii) :=
  match l with
  | [] => Throw (SyntaxError "Unterminated string in JSON")
  | "034"%char :: r => Ok (EmptyString, r)
  | "\"%char :: e :: r =>
      match e with
      | "034"%char => cons_char "034"%char (parse_string_body r)
      | "\"%char => cons_char "\"%char (parse_string_body r)
      | "/"%char => cons_char "/"%char (parse_string_body r)
      | "b"%char => cons_char "008"%char (parse_string_body r)
      | "f"%char => cons_char "012"%char (parse_string_body r)
      | "n"%char => cons_char "010"%char (parse_string_body r)
      | "r"%char => cons_char "013"%char (parse_string_body r)
      | "t"%char => cons_char "009"%char (parse_string_body r)
      | "u"%char =>
          match r with
          | a :: b :: c :: d :: r' =>
              match unicode_escape a b c d with
              | Some u => cons_char u (parse_string_body r')
              | None => Throw (SyntaxError "Bad Unicode escape in JSON")
              end
          | _ => Throw (SyntaxError "Bad Unicode escape in JSON")
          end
      | _ => Throw (SyntaxError "Bad escaped character in JSON")
      end
  | c :: r =>
      if (code c <? 32)%N || Ascii.eqb c "\"%char
      then Throw (SyntaxError "Bad control character in string literal in JSON")
      else cons_char c (parse_string_body r)
  end.

(** An optional minus sign. *)
Definition take_minus (l : list ascii) : bool * list ascii :=
  match l with
  | "-"%char :: r => (true, r)
  | _ => (false, l)
  end.

Definition has_leading_zero (ip : list ascii) : bool :=
  match ip with
  | c :: _ :: _ => Ascii.eqb c "0"
  | _ => false
  end.

(** A JSON number: [-]? int frac? exp?, the integer part without a
    superfluous leading zero; its value is the Number value of the
    decimal read. *)
Definition parse_number (l : list ascii) : result (number * list ascii) :=
  let '(neg, l0) := take_minus l in
  let '(ip, l1) := span_digits l0 in
  if bool_decide (ip = []) then Throw (SyntaxError "Unexpected token in JSON")
  else if has_leading_zero ip then Throw (SyntaxError "Unexpected number in JSON")
  else
    let frac :=
      match l1 with
      | "."%char :: r =>
          match span_digits r with
          | ([], _) => None
          | (fp, l2) => Some (fp, l2)
          end
      | _ => Some ([], l1)
      end in
    match frac with
    | None => Throw (SyntaxError "Unterminated fractional number in JSON")
    | Some (fp, l2) =>
        let mant := value_of_digits (ip ++ fp) in
        let shift := Z.of_nat (length fp) in
        match l2 with
        | c :: _ =>
            if is_e c then
              match scan_exponent l2 with
              | Some (ex, rest) => Ok (number_value neg mant (ex - shift), rest)
              | None => Throw (SyntaxError "Exponent part is missing a number in JSON")
              end
            else Ok (number_value neg mant (- shift), l2)
        | [] => Ok (number_value neg mant (- shift), l2)
        end
    end.

Definition out_of_fuel {A : Type} : result A :=
  Throw (SyntaxError "Unexpected end of JSON input").

(** Elements of a non-empty array after the opening bracket. *)
Fixpoint parse_items (pv : list ascii -> result (json * list ascii))
    (fuel : nat) (l : list ascii) : result (list json * list ascii) :=
  match fuel with
  | O => out_of_fuel
  | S f =>
      match pv l with
      | Throw e => Throw e
      | Ok (v, r) =>
          match skip_ws r with
          | ","%char :: r' =>
              match parse_items pv f r' with
              | Ok (vs, r'') => Ok (v :: vs, r'')
              | Throw e => Throw e
              end
          | "]"%char :: r' => Ok ([v], r')
          | _ => Throw (SyntaxError "Expected ',' or ']' after array element in JSON")
          end
      end
  end.

(** Members of a non-empty object after the opening brace. *)
Fixpoint parse_members (pv : list ascii -> result (json * list ascii))
    (fuel : nat) (l : list ascii) : result (list (string * json) * list ascii) :=
  match fuel with
  | O => out_of_fuel
  | S f =>
      match skip_ws l with
      | "034"%char :: r =>
          match parse_string_body r with
          | Throw e => Throw e
          | Ok (k, r1) =>
              match skip_ws r1 with
              | ":"%char :: r2 =>
                  match pv r2 with
                  | Throw e => Throw e
                  | Ok (v, r3) =>
                      match skip_ws r3 with
                      | ","%char :: r4 =>
                          match parse_members pv f r4 with
                          | Ok (kvs, r5) => Ok ((k, v) :: kvs, r5)
                          | Throw e => Throw e
                          end
                      | "}"%char :: r4 => Ok ([(k, v)], r4)
                      | _ => Throw (SyntaxError "Expected ',' or '}' after property value in JSON")
                      end
                  end
              | _ => Throw (SyntaxError "Expected ':' after property name in JSON")
              end
          end
      | _ => Throw (SyntaxError "Expected double-quoted property name in JSON")
      end
  end.

(** One JSON value, with the text that follows it.  Every recursive call
    is on a strictly shorter text, so the length of the text is fuel
    enough. *)
Fixpoint parse_value (fuel : nat) (l : list ascii) : result (json * list ascii) :=
  match fuel with
  | O => out_of_fuel
  | S f =>
      match skip_ws l with
      | "n"%char :: "u"%char :: "l"%char :: "l"%char :: r => Ok (JNull, r)
      | "t"%char :: "r"%char :: "u"%char :: "e"%char :: r => Ok (JBool true, r)
      | "f"%char :: "a"%char :: "l"%char :: "s"%char :: "e"%char :: r =>
          Ok (JBool false, r)
      | "034"%char :: r =>
          match parse_string_body r with
          | Ok (s, r') => Ok (JString s, r')
          | Throw e => Throw e
          end
      | "["%char :: r =>
          match skip_ws r with
          | "]"%char :: r' => Ok (JArray [], r')
          | _ =>
              match parse_items (parse_value f) f r with
              | Ok (vs, r') => Ok (JArray vs, r')
              | Throw e => Throw e
              end
          end
      | "{"%char :: r =>
          match skip_ws r with
          | "}"%char :: r' => Ok (JObject [], r')
          | _ =>
              match parse_members (parse_value f) f r with
              | Ok (kvs, r') => Ok (JObject kvs, r')
              | Throw e => Throw e
              end
          end
      | l' =>
          match parse_number l' with
          | Ok (x, r) => Ok (JNumber x, r)
          | Throw e => Throw e
          end
      end
  end.

(** [JSON.parse(s)] *)
Definition JSON_parse (s : string) : result json :=
  let l := chars s in
  match parse_value (S (length l)) l with
  | Throw e => Throw e
  | Ok (v, r) =>
      match skip_ws r with
      | [] => Ok v
      | _ => Throw (SyntaxError "Unexpected non-whitespace character after JSON")
      end
  end.

Definition hex_char (d : N) : ascii :=
  if (d <? 10)%N then ascii_of_N (48 + d) else ascii_of_N (87 + d).

(** QuoteJSONString on one code unit. *)
Definition quote_char (c : ascii) : list ascii :=
  let n := code c in
  if (n =? 8)%N then ["\"; "b"]%char
  else if (n =? 9)%N then ["\"; "t"]%char
  else if (n =? 10)%N then ["\"; "n"]%char
  else if (n =? 12)%N then ["\"; "f"]%char
  else if (n =? 13)%N then ["\"; "r"]%char
  else if (n =? 34)%N then ["\"; "034"]%char
  else if (n =? 92)%N then ["\"; "\"]%char
  else if (n <? 32)%N then
    ["\"; "u"; "0"; "0"]%char ++ [hex_char (n / 16); hex_char (n mod 16)]
  else [c].

Fixpoint quote_body (s : string) : list ascii :=
  match s with
  | EmptyString => []
  | String c r => quote_char c ++ quote_body r
  end.

Definition quote (s : string) : list ascii :=
  "034"%char :: quote_body s ++ ["034"%char].

(** A number in JSON text: [null] when it is not finite. *)
Definition number_text (x : number) : list ascii :=
  if isFinite x then chars (toString x) else chars "null".

(** Texts joined by a separator character. *)
Fixpoint intercalate (sep : ascii) (parts : list (list ascii)) : list ascii :=
  match parts with
  | [] => []
  | [p] => p
  | p :: ps => p ++ sep :: intercalate sep ps
  end.

(** [JSON.stringify(v)] without indentation. *)
Fixpoint stringify (v : json) : list ascii :=
  match v with
  | JNull => chars "null"
  | JBool b => chars (if b then "true" else "false")
  | JNumber x => number_text x
  | JString s => quote s
  | JArray items => "["%char :: intercalate "," (map stringify items) ++ ["]"%char]
  | JObject fields =>
      "{"%char ::
      intercalate "," (map (fun '(k, x) => quote k ++ ":"%char :: stringify x) fields)
      ++ ["}"%char]
  end.

Definition JSON_stringify (v : json) : string := text (stringify v).

(** The own property [k] of a parsed object: the last member of that name
    wins.  [None] is [undefined]. *)
Fixpoint own_property (k : string) (fields : list (string * json)) : option json :=
  match fields with
  | [] => None
  | (k', v) :: r =>
      match own_property k r with
      | Some w => Some w
      | None => if String.eqb k k' then Some v else None
      end
  end.

(** [v.size] and [v.stock]: reading a property of [null] throws; values
    other than objects have no property of either name. *)
Definition get (v : json) (k : string) : result (option json) :=
  match v with
  | JNull => Throw (TypeError ("Cannot read properties of null (reading '" +:+ k +:+ "')"))
  | JObject fields => Ok (own_property k fields)
  | _ => Ok None
  end.

(** [arr.every(f)], where [f] may throw. *)
Fixpoint every {A : Type} (f : A -> result bool) (l : list A) : result bool :=
  match l with
  | [] => Ok true
  | x :: r =>
      match f x with
      | Ok true => every f r
      | Ok false => Ok false
      | Throw e => Throw e
      end
  end.

End Js.

(** ** Data model ([types.ts] is not part of the sources; the fields are
    those the code reads and writes) *)

(** A worksheet cell as [sheet_to_json] delivers it. *)
Inductive cell : Type :=
| CUndefined
| CNull
| CBool (b : bool)
| CNum (x : Js.number)
| CStr (s : string).

(** ToBoolean: [NaN] and the two zeros are the falsy numbers. *)
Definition truthy (c : cell) : bool :=
  match c with
  | CUndefined | CNull => false
  | CBool b => b
  | CNum x => negb (Js.isNaN x) && negb (Js.le0 x && Js.ge0 x)
  | CStr s => Js.nonempty s
  end.

(** [String(c)], also the text of [c] inside a template literal. *)
Definition String_ (c : cell) : string :=
  match c with
  | CUndefined => "undefined"
  | CNull => "null"
  | CBool b => if b then "true" else "false"
  | CNum x => Js.toString x
  | CStr s => s
  end.

(** A row object: a bag of cells keyed by column header; a missing key
    reads as [undefined]. *)
Definition field (row : gmap string cell) (k : string) : cell :=
  default CUndefined (row !! k).

Record Category : Type := { cat_id : string; cat_name : string }.
Record Manufacturer : Type := { man_id : string; man_name : string }.
Record SizeStock : Type := { size : string; stock : Js.number }.

Record Product : Type := {
  id : string;
  title : string;
  code : string;
  price : Js.number;
  categoryId : string;
  manufacturerId : string;
  categoryName : option string;
  manufacturerName : option string;
  sizes : list SizeStock;
  image : string;
  isVisible : bool;
  totalStock : option Js.number
}.

(** [ProductFormData]: [sizes] is JSON text, [id] is optional. *)
Record ProductFormData : Type := {
  pd_id : option string;
  pd_title : string;
  pd_code : string;
  pd_price : Js.number;
  pd_categoryId : string;
  pd_manufacturerId : string;
  pd_sizes : string;
  pd_image : string;
  pd_isVisible : bool
}.

Definition with_id (d : ProductFormData) (i : string) : ProductFormData :=
  {| pd_id := Some i; pd_title := pd_title d; pd_code := pd_code d;
     pd_price := pd_price d; pd_categoryId := pd_categoryId d;
     pd_manufacturerId := pd_manufacturerId d; pd_sizes := pd_sizes d;
     pd_image := pd_image d; pd_isVisible := pd_isVisible d |}.

(** [new Map(entries)]: entries are set in order, a later key replaces an
    earlier one. *)
Definition Map_of {V : Type} (entries : list (string * V)) : gmap string V :=
  fold_left (fun m kv => <[kv.1 := kv.2]> m) entries ∅.

(** A string read in a condition: [undefined] and the empty string are
    falsy. *)
Definition truthy_id (o : option string) : option string :=
  match o with
  | Some i => if Js.nonempty i then Some i else None
  | None => None
  end.

Definition json_of_SizeStock (s : SizeStock) : Js.json :=
  Js.JObject [("size", Js.JString (size s)); ("stock", Js.JNumber (stock s))].

Definition stringify_sizes (l : list SizeStock) : string :=
  Js.JSON_stringify (Js.JArray (map json_of_SizeStock l)).

(** ** The lookups of one import pass (lines 282-284) *)

Record CatalogIndex : Type := {
  categoryMap : gmap string string;
  manufacturerMap : gmap string string;
  productCodeMap : gmap string Product
}.

Definition build_index (currentCategories : list Category)
    (currentManufacturers : list Manufacturer)
    (existingSystemProducts : list Product) : CatalogIndex :=
  {| categoryMap :=
       Map_of (map (fun c => (Js.toLowerCase (cat_name c), cat_id c)) currentCategories);
     manufacturerMap :=
       Map_of (map (fun m => (Js.toLowerCase (man_name m), man_id m)) currentManufacturers);
     productCodeMap :=
       Map_of (map (fun p => (Js.toLowerCase (code p), p)) existingSystemProducts) |}.

(** ** Validation of one row (lines 294-389) *)

Definition row_label (rowIndex : nat) : string :=
  "Row " +:+ Js.string_of_nat rowIndex.

(** Line 294. *)
Definition required_missing (row : gmap string cell) : bool :=
  negb (truthy (field row "Title")) ||
  negb (truthy (field row "Code")) ||
  match field row "Price" with CUndefined | CNull => true | _ => false end ||
  negb (truthy (field row "Category")) ||
  negb (truthy (field row "Manufacturer")) ||
  negb (truthy (field row "Image URL")).

(** [row.X ? String(row.X).trim() : ''] (lines 317-319). *)
Definition trimmed (row : gmap string cell) (k : string) : string :=
  if truthy (field row k) then Js.trim (String_ (field row k)) else "".

(** The element test of line 325. *)
Definition size_stock_ok (s : Js.json) : Js.result bool :=
  match Js.get s "size" with
  | Js.Throw e => Js.Throw e
  | Js.Ok (Some (Js.JString _)) =>
      match Js.get s "stock" with
      | Js.Throw e => Js.Throw e
      | Js.Ok (Some (Js.JNumber x)) => Js.Ok (Js.ge0 x)
      | Js.Ok _ => Js.Ok false
      end
  | Js.Ok _ => Js.Ok false
  end.

(** What the size/stock stage leaves behind: a rejection, or the JSON text
    for the product, possibly with a warning pushed to [errors]. *)
Inductive sizes_result : Type :=
| SizesRejected (reason : string)
| SizesResolved (warning : option string) (sizesString : string).

(** Lines 321-332. *)
Definition check_payload (rowIndex : nat) (sizesString : string) : sizes_result :=
  let bad_json e :=
    SizesRejected (row_label rowIndex +:+ ": 'SizesStockJSON' ("
                   +:+ Js.quoted sizesString
                   +:+ ") is not valid JSON. " +:+ Js.error_text e) in
  let bad_shape :=
    SizesRejected (row_label rowIndex +:+ ": 'SizesStockJSON' ("
                   +:+ Js.quoted sizesString
                   +:+ ") is not a valid array of {size: string, stock: number (>=0)}.") in
  match Js.JSON_parse sizesString with
  | Js.Throw e => bad_json e
  | Js.Ok (Js.JArray items) =>
      match Js.every size_stock_ok items with
      | Js.Throw e => bad_json e
      | Js.Ok true => SizesResolved None sizesString
      | Js.Ok false => bad_shape
      end
  | Js.Ok _ => bad_shape
  end.

(** The loop of lines 344-363 from position [j] on: [names] and [stocks]
    are what is left of [sizeNamesArray] and [stockValuesArray], [raw] what
    is left of the split "Stocks" text; [acc] is [sizeStockArray].  A
    missing stock value is [undefined], which [isNaN] accepts. *)
Fixpoint zip_sizes (rowIndex j : nat) (names : list string)
    (stocks : list Js.number) (raw : list string) (acc : list SizeStock)
  : string + list SizeStock :=
  match names with
  | [] => inr acc
  | sizeName :: names' =>
      if negb (Js.nonempty sizeName) then
        inl (row_label rowIndex +:+ ": Empty size name found at position "
             +:+ Js.string_of_nat (j + 1) +:+ " in " +:+ Js.quoted "Sizes"
             +:+ " column.")
      else
        let raw_text :=
          match raw with r :: _ => Js.trim r | [] => "undefined" end in
        let not_a_number :=
          inl (row_label rowIndex +:+ ": Stock value for size "
               +:+ Js.quoted sizeName +:+ " is not a valid number ("
               +:+ Js.quoted raw_text +:+ ").") in
        match stocks with
        | [] => not_a_number
        | stockValue :: stocks' =>
            if Js.isNaN stockValue then not_a_number
            else if Js.lt0 stockValue then
              inl (row_label rowIndex +:+ ": Stock value for size "
                   +:+ Js.quoted sizeName
                   +:+ " (" +:+ Js.toString stockValue +:+ ") cannot be negative.")
            else
              zip_sizes rowIndex (j + 1) names' stocks' (tail raw)
                        (acc ++ [ {| size := sizeName; stock := stockValue |} ])
        end
  end.

Definition mismatch_reason (rowIndex sizes_n stocks_n : nat) : string :=
  row_label rowIndex +:+ ": Mismatch between number of sizes ("
  +:+ Js.string_of_nat sizes_n +:+ ") in " +:+ Js.quoted "Sizes"
  +:+ " and stock values ("
  +:+ Js.string_of_nat stocks_n +:+ ") in " +:+ Js.quoted "Stocks" +:+ ".".

(** Lines 334-368. *)
Definition check_parallel (rowIndex : nat) (sizesListFromRow stocksListFromRow : string)
  : sizes_result :=
  let sizeNamesArray := map Js.trim (Js.split "," sizesListFromRow) in
  let stockValuesArray :=
    map (fun s => Js.parseInt (Js.trim s)) (Js.split "," stocksListFromRow) in
  if negb (length sizeNamesArray =? length stockValuesArray)%nat then
    SizesRejected (mismatch_reason rowIndex (length sizeNamesArray)
                                   (length stockValuesArray))
  else
    match zip_sizes rowIndex 0 sizeNamesArray stockValuesArray
                    (Js.split "," stocksListFromRow) [] with
    | inl reason => SizesRejected reason
    | inr sizeStockArray => SizesResolved None (stringify_sizes sizeStockArray)
    end.

(** Line 370: [None] is [undefined]. *)
Definition totalStockFromRow (row : gmap string cell) : option Js.number :=
  match field row "TotalStock" with
  | CUndefined =>
      match field row "Stock" with
      | CUndefined => None
      | c => Some (Js.parseInt (String_ c))
      end
  | c => Some (Js.parseInt (String_ c))
  end.

Definition no_sizes_warning (rowIndex : nat) : string :=
  row_label rowIndex +:+ ": Missing 'SizesStockJSON' or 'Sizes'/'Stocks' columns, or valid 'TotalStock'/'Stock'. Product will have no stock/sizes defined.".

(** Lines 370-376. *)
Definition check_total (rowIndex : nat) (row : gmap string cell) : sizes_result :=
  match totalStockFromRow row with
  | Some x =>
      if negb (Js.isNaN x) && Js.ge0 x then
        SizesResolved None (stringify_sizes [ {| size := "One Size"; stock := x |} ])
      else SizesResolved (Some (no_sizes_warning rowIndex)) "[]"
  | None => SizesResolved (Some (no_sizes_warning rowIndex)) "[]"
  end.

(** Lines 316-377. *)
Definition resolve_sizes (rowIndex : nat) (row : gmap string cell) : sizes_result :=
  let sizesStockJSONFromRow := trimmed row "SizesStockJSON" in
  let sizesListFromRow := trimmed row "Sizes" in
  let stocksListFromRow := trimmed row "Stocks" in
  if Js.nonempty sizesStockJSONFromRow then
    check_payload rowIndex sizesStockJSONFromRow
  else if Js.nonempty sizesListFromRow && Js.nonempty stocksListFromRow then
    check_parallel rowIndex sizesListFromRow stocksListFromRow
  else check_total rowIndex row.

(** Line 388. *)
Definition parse_isVisible (row : gmap string cell) : bool :=
  let c := field row "Is Visible" in
  if truthy c then
    bool_decide (Js.toLowerCase (String_ c) = "yes") ||
    bool_decide (Js.toLowerCase (String_ c) = "true")
  else true.

(** The outcome of validating a row: the reason pushed to [errors] before
    [continue], or the product data with the warning pushed on the way. *)
Inductive row_result : Type :=
| Rejected (reason : string)
| Parsed (warning : option string) (productData : ProductFormData).

Definition missing_required_reason (rowIndex : nat) : string :=
  row_label rowIndex +:+ ": Missing required fields (Title, Code, Price, Category, Manufacturer, Image URL).".

Definition not_found_reason (rowIndex : nat) (what : string) (c : cell) : string :=
  row_label rowIndex +:+ ": " +:+ what +:+ " " +:+ Js.quoted (String_ c)
  +:+ " not found.".

Definition invalid_price_reason (rowIndex : nat) (c : cell) : string :=
  row_label rowIndex +:+ ": Invalid Price " +:+ Js.quoted (String_ c)
  +:+ ". Must be a positive number.".

(** Lines 294-389, for the row reported as [rowIndex]. *)
Definition parse_row (ix : CatalogIndex) (rowIndex : nat) (row : gmap string cell)
  : row_result :=
  if required_missing row then Rejected (missing_required_reason rowIndex) else
  match truthy_id (categoryMap ix !! Js.toLowerCase (String_ (field row "Category"))) with
  | None => Rejected (not_found_reason rowIndex "Category" (field row "Category"))
  | Some categoryId =>
  match truthy_id (manufacturerMap ix !! Js.toLowerCase (String_ (field row "Manufacturer"))) with
  | None => Rejected (not_found_reason rowIndex "Manufacturer" (field row "Manufacturer"))
  | Some manufacturerId =>
  let price := Js.parseFloat (String_ (field row "Price")) in
  if Js.isNaN price || Js.le0 price then
    Rejected (invalid_price_reason rowIndex (field row "Price"))
  else
  match resolve_sizes rowIndex row with
  | SizesRejected reason => Rejected reason
  | SizesResolved warning sizesString =>
      Parsed warning
        {| pd_id := None;
           pd_title := String_ (field row "Title");
           pd_code := String_ (field row "Code");
           pd_price := price;
           pd_categoryId := categoryId;
           pd_manufacturerId := manufacturerId;
           pd_sizes := sizesString;
           pd_image := String_ (field row "Image URL");
           pd_isVisible := parse_isVisible row |}
  end
  end
  end.

(** ** The remote data service *)

(** The REST endpoints behind [productService], each with the response
    already passed through [handleApiResponse]: the call resolves, or it
    throws an [Error].  [W] is the state of the world the service lives
    in. *)
Class Remote (W : Type) : Type := {
  post_product : ProductFormData -> W -> W * Js.result unit;
  put_product : ProductFormData -> W -> W * Js.result unit;
  get_categories : W -> W * Js.result (list Category);
  get_manufacturers : W -> W * Js.result (list Manufacturer);
  get_products_admin : W -> W * Js.result (list Product)
}.

(** A call of the import pass to a mutation of [productService]. *)
Inductive request : Type :=
| AddProduct (productData : ProductFormData)
| UpdateProduct (productData : ProductFormData).

(** The component state the import and export handlers read and write. *)
Record page : Type := {
  products : list Product;
  categories : list Category;
  manufacturers : list Manufacturer;
  actionError : option string;
  successMessage : option string
}.

Definition setActionError (msg : string) (pg : page) : page :=
  {| products := products pg; categories := categories pg;
     manufacturers := manufacturers pg;
     actionError := Some msg; successMessage := successMessage pg |}.

Definition setSuccessMessage (msg : string) (pg : page) : page :=
  {| products := products pg; categories := categories pg;
     manufacturers := manufacturers pg;
     actionError := actionError pg; successMessage := Some msg |}.

Definition clearMessages (pg : page) : page :=
  {| products := products pg; categories := categories pg;
     manufacturers := manufacturers pg;
     actionError := None; successMessage := None |}.

Definition setProducts (ps : list Product) (pg : page) : page :=
  {| products := ps; categories := categories pg;
     manufacturers := manufacturers pg;
     actionError := actionError pg; successMessage := successMessage pg |}.

Definition setFilters (cs : list Category) (ms : list Manufacturer) (pg : page) : page :=
  {| products := products pg; categories := cs; manufacturers := ms;
     actionError := actionError pg; successMessage := successMessage pg |}.

(** The running totals of one pass (lines 286-288), the world, and the
    mutation calls made so far, oldest first. *)
Record pass (W : Type) : Type := {
  importedCount : nat;
  updatedCount : nat;
  errors : list string;
  calls : list request;
  world : W
}.
Arguments importedCount {W} _.
Arguments updatedCount {W} _.
Arguments errors {W} _.
Arguments calls {W} _.
Arguments world {W} _.

Definition push (msg : option string) (errs : list string) : list string :=
  match msg with
  | Some m => errs ++ [m]
  | None => errs
  end.

Section ImportExport.

Context {W : Type} `{Remote W}.

(** The translation function of the language context. *)
Variable t : string -> list (string * string) -> string.

(** *** productService *)

Definition addProductAdmin (productData : ProductFormData) (w : W)
  : W * Js.result unit :=
  post_product productData w.

Definition updateProductAdmin (productData : ProductFormData) (w : W)
  : W * Js.result unit :=
  match truthy_id (pd_id productData) with
  | None => (w, Js.Throw (Js.Error "Product ID is required for update via API."))
  | Some _ => put_product productData w
  end.

(** *** The reconciliation of one row (lines 290-404) *)

Definition service_error_reason (rowIndex : nat) (productData : ProductFormData)
    (e : Js.js_error) : string :=
  row_label rowIndex +:+ " (Code: " +:+ pd_code productData
  +:+ "): Error processing - " +:+ Js.err_message e.

(** The mutation chosen for validated product data (lines 391-399). *)
Definition mutation_for (ix : CatalogIndex) (productData : ProductFormData) : request :=
  match productCodeMap ix !! Js.toLowerCase (pd_code productData) with
  | Some existingProductByCode =>
      UpdateProduct (with_id productData (id existingProductByCode))
  | None => AddProduct productData
  end.

Definition perform (r : request) (w : W) : W * Js.result unit :=
  match r with
  | AddProduct d => addProductAdmin d w
  | UpdateProduct d => updateProductAdmin d w
  end.

(** The body of the loop for the row at position [i] of [jsonData]. *)
Definition process_row (ix : CatalogIndex) (i : nat) (row : gmap string cell)
    (st : pass W) : pass W :=
  let rowIndex := i + 2 in
  match parse_row ix rowIndex row with
  | Rejected reason =>
      {| importedCount := importedCount st; updatedCount := updatedCount st;
         errors := errors st ++ [reason]; calls := calls st; world := world st |}
  | Parsed warning productData =>
      let errs := push warning (errors st) in
      let r := mutation_for ix productData in
      match perform r (world st) with
      | (w', Js.Ok _) =>
          {| importedCount :=
               match r with AddProduct _ => S (importedCount st) | _ => importedCount st end;
             updatedCount :=
               match r with UpdateProduct _ => S (updatedCount st) | _ => updatedCount st end;
             errors := errs; calls := calls st ++ [r]; world := w' |}
      | (w', Js.Throw e) =>
          {| importedCount := importedCount st; updatedCount := updatedCount st;
             errors := errs ++ [service_error_reason rowIndex productData e];
             calls := calls st ++ [r]; world := w' |}
      end
  end.

(** The loop of line 290 from position [i] on. *)
Fixpoint import_rows (ix : CatalogIndex) (i : nat) (rows : list (gmap string cell))
    (st : pass W) : pass W :=
  match rows with
  | [] => st
  | row :: rest => import_rows ix (S i) rest (process_row ix i row st)
  end.

Definition start (w : W) : pass W :=
  {| importedCount := 0; updatedCount := 0; errors := []; calls := []; world := w |}.

(** *** The report (lines 406-417) *)

Definition summaryMessage (st : pass W) : string :=
  (if (0 <? importedCount st)%nat
   then Js.string_of_nat (importedCount st) +:+ " products imported. " else "")
  +:+
  (if (0 <? updatedCount st)%nat
   then Js.string_of_nat (updatedCount st) +:+ " products updated. " else "").

Definition completed_with_errors (st : pass W) : string :=
  "Import completed with errors. " +:+ summaryMessage st
  +:+ " See details below:" +:+ String "010" "- "
  +:+ Js.join (String "010" "- ") (errors st).

Definition report (st : pass W) (pg : page) : page :=
  match errors st with
  | _ :: _ => setActionError (completed_with_errors st) pg
  | [] =>
      if Js.nonempty (summaryMessage st)
      then setSuccessMessage ("Import successful! " +:+ summaryMessage st) pg
      else setActionError "No products were imported or updated. Check file format or content." pg
  end.

Definition empty_file_message : string :=
  t "errors.apiErrorGeneric"
    [("message", "The imported file is empty or not formatted correctly.")].

Definition failed_to_load_products : string :=
  t "errors.failedToLoadData"
    [("entity", Js.toLowerCase (t "adminPage.tabProducts" []))].

(** [x.length > 0 ? x : await fetch()] (lines 275-277). *)
Definition cached_or {A : Type} (cached : list A)
    (fetch : W -> W * Js.result (list A)) (w : W) : W * Js.result (list A) :=
  match cached with
  | [] => fetch w
  | _ => (w, Js.Ok cached)
  end.

(** What the [try] block of [reader.onload] leaves behind: the page, the
    world, and the pass when the loop ran. *)
Definition import_pass (jsonData : list (gmap string cell)) (pg : page) (w : W)
  : page * W * option (pass W) :=
  let failed e w' :=
    (setActionError (failed_to_load_products +:+ ": " +:+ Js.err_message e) pg, w', None) in
  match jsonData with
  | [] => (setActionError empty_file_message pg, w, None)
  | _ =>
      match cached_or (categories pg) get_categories w with
      | (w1, Js.Throw e) => failed e w1
      | (w1, Js.Ok currentCategories) =>
      match cached_or (manufacturers pg) get_manufacturers w1 with
      | (w2, Js.Throw e) => failed e w2
      | (w2, Js.Ok currentManufacturers) =>
      match cached_or (products pg) get_products_admin w2 with
      | (w3, Js.Throw e) => failed e w3
      | (w3, Js.Ok existingSystemProducts) =>
          let pg1 := setFilters currentCategories currentManufacturers pg in
          let ix := build_index currentCategories currentManufacturers
                                existingSystemProducts in
          let st := import_rows ix 0 jsonData (start w3) in
          (report st pg1, world st, Some st)
      end
      end
      end
  end.

(** [loadProducts] *)
Definition loadProducts (pg : page) (w : W) : page * W :=
  match get_products_admin w with
  | (w', Js.Ok adminProducts) => (setProducts adminProducts pg, w')
  | (w', Js.Throw _) => (setActionError failed_to_load_products pg, w')
  end.

(** [handleFileImport], from the parsed worksheet on: messages cleared,
    the [try] block, then the refresh of the [finally] block. *)
Definition handleFileImport (jsonData : list (gmap string cell)) (pg : page) (w : W)
  : page * W :=
  let '(pg1, w1, _) := import_pass jsonData (clearMessages pg) w in
  loadProducts pg1 w1.

(** *** Export (lines 209-243) *)

(** [a || b] on an optional string and a string. *)
Definition or_else (a : option string) (b : string) : string :=
  match truthy_id a with Some x => x | None => b end.

(** One worksheet row of line 219. *)
Definition export_row (p : Product) : gmap string cell :=
  <["ID" := CStr (code p)]>
  (<["Title" := CStr (title p)]>
  (<["Code" := CStr (code p)]>
  (<["Category" := CStr (or_else (categoryName p) (categoryId p))]>
  (<["Manufacturer" := CStr (or_else (manufacturerName p) (manufacturerId p))]>
  (<["Price" := CNum (price p)]>
  (<["TotalStock" := CNum (default (Js.of_nat 0) (totalStock p))]>
  (<["SizesStockJSON" := CStr (stringify_sizes (sizes p))]>
  (<["Image URL" := CStr (image p)]>
  (<["Is Visible" := CStr (if isVisible p then t "common.yes" [] else t "common.no" [])]>
   ∅))))))))).

(** [handleExportProducts] for the list [productsToExport] that
    [filteredAndSortedProducts] holds: the messages, and the worksheet
    written when there is something to export. *)
Definition handleExportProducts (productsToExport : list Product) (pg : page)
  : page * option (list (gmap string cell)) :=
  let pg0 := clearMessages pg in
  match productsToExport with
  | [] => (setActionError (t "placeholders.noProductsFound" [] +:+ " to export.") pg0, None)
  | _ =>
      (setSuccessMessage (t "common.success" [] +:+ "! " +:+ t "adminPage.tabProducts" []
                          +:+ " exported.") pg0,
       Some (map export_row productsToExport))
  end.

End ImportExport.

(** ** The product list as the page shows it (lines 431-503) *)

Definition ALL_FILTER_VALUE : string := "ALL".

(** [hay.includes(needle)] *)
Fixpoint includes (hay needle : string) : bool :=
  String.prefix needle hay ||
  match hay with
  | EmptyString => false
  | String _ rest => includes rest needle
  end.

(** The double a number is: [NaN], an infinity, or [mant * 2^exp2] with
    its sign, [mant] being 0 for a zero. *)
Inductive double : Type :=
| DNaN
| DInfinity (neg : bool)
| DFinite (neg : bool) (mant : N) (exp2 : Z).

Definition double_of (x : Js.number) : double :=
  match x with
  | Js.NaN => DNaN
  | Js.Infinity neg => DInfinity neg
  | Js.Finite neg m e =>
      match Js.magnitude m e with
      | Js.Zero => DFinite neg 0 0
      | Js.Double mant exp2 => DFinite neg mant exp2
      | Js.Infinite => DInfinity neg
      end
  end.

(** [mant * 2^exp2] with its sign, in units of [2^e0]. *)
Definition scaled (neg : bool) (mant : N) (exp2 e0 : Z) : Z :=
  let v := (Z.of_N mant * 2 ^ (exp2 - e0))%Z in if neg then (- v)%Z else v.

Definition double_lt (a b : double) : bool :=
  match a, b with
  | DNaN, _ | _, DNaN => false
  | DInfinity na, DInfinity nb => na && negb nb
  | DInfinity na, DFinite _ _ _ => na
  | DFinite _ _ _, DInfinity nb => negb nb
  | DFinite na ma ea, DFinite nb mb eb =>
      let e0 := Z.min ea eb in
      (scaled na ma ea e0 <? scaled nb mb eb e0)%Z
  end.

(** [a < b] on numbers: false when either is [NaN]. *)
Definition number_lt (a b : Js.number) : bool :=
  double_lt (double_of a) (double_of b).

(** The keys the sort buttons pass to [requestSort] (line 684). *)
Inductive sort_key : Type := KTitle | KPrice | KTotalStock.

Inductive sort_direction : Type := ascending | descending.

Record SortConfig : Type := { key : sort_key; direction : sort_direction }.

(** [sortConfig.key === key] *)
Definition same_key (a b : sort_key) : bool :=
  match a, b with
  | KTitle, KTitle | KPrice, KPrice | KTotalStock, KTotalStock => true
  | _, _ => false
  end.

(** The search box, the two drop-downs and the sort order. *)
Record filters : Type := {
  searchTerm : string;
  filterCategoryId : string;
  filterManufacturerId : string;
  sortConfig : option SortConfig
}.

(** [valA < valB] for the values lines 448-459 read under key [k]: titles
    are compared in lower case, a missing [totalStock] counts as 0. *)
Definition lt_by (k : sort_key) (a b : Product) : bool :=
  match k with
  | KTitle => String.ltb (Js.toLowerCase (title a)) (Js.toLowerCase (title b))
  | KPrice => number_lt (price a) (price b)
  | KTotalStock =>
      number_lt (default (Js.of_nat 0) (totalStock a))
                (default (Js.of_nat 0) (totalStock b))
  end.

(** The comparator of lines 447-464. *)
Definition compare_products (c : SortConfig) (a b : Product) : Z :=
  if lt_by (key c) a b then
    match direction c with ascending => (-1)%Z | descending => 1%Z end
  else if lt_by (key c) b a then
    match direction c with ascending => 1%Z | descending => (-1)%Z end
  else 0%Z.

(** [Array.prototype.sort] with a comparator: a stable sort.  [x] goes
    before the first element it does not compare greater than. *)
Fixpoint insert_sorted {A : Type} (cmp : A -> A -> Z) (x : A) (l : list A) : list A :=
  match l with
  | [] => [x]
  | y :: r => if (0 <? cmp x y)%Z then y :: insert_sorted cmp x r else x :: l
  end.

Definition Array_sort {A : Type} (cmp : A -> A -> Z) (l : list A) : list A :=
  foldr (insert_sorted cmp) [] l.

(** The test of lines 435-438. *)
Definition matches_search (lowerSearchTerm : string) (p : Product) : bool :=
  includes (Js.toLowerCase (title p)) lowerSearchTerm ||
  includes (Js.toLowerCase (code p)) lowerSearchTerm.

(** Lines 432-445: the three filters, in the order of the list. *)
Definition filtered (f : filters) (products : list Product) : list Product :=
  let l1 :=
    if Js.nonempty (searchTerm f)
    then List.filter (matches_search (Js.toLowerCase (searchTerm f))) products
    else products in
  let l2 :=
    if bool_decide (filterCategoryId f = ALL_FILTER_VALUE) then l1
    else List.filter (fun p => bool_decide (categoryId p = filterCategoryId f)) l1 in
  if bool_decide (filterManufacturerId f = ALL_FILTER_VALUE) then l2
  else List.filter (fun p => bool_decide (manufacturerId p = filterManufacturerId f)) l2.

(** [filteredAndSortedProducts] (lines 431-467). *)
Definition filteredAndSortedProducts (f : filters) (products : list Product)
  : list Product :=
  match sortConfig f with
  | Some c => Array_sort (compare_products c) (filtered f products)
  | None => filtered f products
  end.

(** [requestSort] (lines 469-475). *)
Definition requestSort (k : sort_key) (f : filters) : filters :=
  let dir :=
    match sortConfig f with
    | Some c =>
        if same_key (key c) k
        then match direction c with ascending => descending | descending => ascending end
        else ascending
    | None => ascending
    end in
  {| searchTerm := searchTerm f; filterCategoryId := filterCategoryId f;
     filterManufacturerId := filterManufacturerId f;
     sortConfig := Some {| key := k; direction := dir |} |}.

(** The filters after [handleClearFilters] (lines 484-490). *)
Definition cleared : filters :=
  {| searchTerm := ""; filterCategoryId := ALL_FILTER_VALUE;
     filterManufacturerId := ALL_FILTER_VALUE; sortConfig := None |}.

(** [handleSelectProduct] (lines 495-499), on the selection [prev]. *)
Definition handleSelectProduct (productId : string) (isSelected : bool)
    (prev : list string) : list string :=
  if isSelected then prev ++ [productId]
  else List.filter (fun i => negb (bool_decide (i = productId))) prev.

(** [handleSelectAllProducts] (lines 501-503), for the list shown. *)
Definition handleSelectAllProducts (isSelected : bool) (shown : list Product)
  : list string :=
  if isSelected then map id shown else [].

(** ** The message shown (lines 609-613) *)

(** What [MessageDisplay] renders. *)
Inductive banner : Type :=
| ErrorBanner (msg : string)
| SuccessBanner (msg : string).

(** [MessageDisplay] (lines 609-613): the error when there is one, else the
    success message, else nothing. *)
Definition MessageDisplay (pg : page) : option banner :=
  match truthy_id (actionError pg) with
  | Some e => Some (ErrorBanner e)
  | None =>
      match truthy_id (successMessage pg) with
      | Some s => Some (SuccessBanner s)
      | None => None
      end
  end.

(** ** The Fetch API and the browser's storage *)

Module Fetch.

Record Response : Type := {
  status : nat;
  statusText : string;
  body : string
}.

(** [response.ok]: the status is in the range 200-299. *)
Definition ok (response : Response) : bool :=
  (200 <=? status response)%nat && (status response <=? 299)%nat.

(** What [JSON.stringify] is applied to for the body of a request: a
    value built on the spot, or the product data the caller passed. *)
Inductive RequestBody : Type :=
| NoBody
| JsonBody (v : Js.json)
| FormBody (productData : ProductFormData).

Record Request : Type := {
  method : string;
  url : string;
  headers : list (string * string);
  payload : RequestBody
}.

(** The network as [fetch] sees it: a request changes the state of the
    other side and resolves to a response, or is rejected. *)
Class Network (Net : Type) : Type := {
  fetch : Request -> Net -> Net * Js.result Response
}.

(** The browser: [localStorage] and the network. *)
Record browser (Net : Type) : Type := {
  localStorage : gmap string string;
  network : Net
}.
Arguments localStorage {Net} _.
Arguments network {Net} _.

Definition setItem {Net : Type} (k v : string) (b : browser Net) : browser Net :=
  {| localStorage := <[k := v]> (localStorage b); network := network b |}.

Definition removeItem {Net : Type} (k : string) (b : browser Net) : browser Net :=
  {| localStorage := delete k (localStorage b); network := network b |}.

End Fetch.

(** ToBoolean and ToString on a value read from a response; [None] is
    [undefined]. *)
Definition truthy_json (v : option Js.json) : bool :=
  match v with
  | None | Some Js.JNull => false
  | Some (Js.JBool b) => b
  | Some (Js.JNumber x) => truthy (CNum x)
  | Some (Js.JString s) => Js.nonempty s
  | Some (Js.JArray _) | Some (Js.JObject _) => true
  end.

Fixpoint ToString (v : Js.json) : string :=
  match v with
  | Js.JNull => "null"
  | Js.JBool b => if b then "true" else "false"
  | Js.JNumber x => Js.toString x
  | Js.JString s => s
  | Js.JArray items =>
      Js.join "," (map (fun x => match x with Js.JNull => "" | _ => ToString x end) items)
  | Js.JObject _ => "[object Object]"
  end.

(** [-x] *)
Definition negate (x : Js.number) : Js.number :=
  match x with
  | Js.NaN => Js.NaN
  | Js.Infinity neg => Js.Infinity (negb neg)
  | Js.Finite neg m e => Js.Finite (negb neg) m e
  end.

(** ** [productService] over HTTP ([productService.ts]) *)

Module productService.

Import Fetch.

Definition API_BASE_URL : string := "http://localhost:3001/api".

(** [handleApiResponse] (lines 16-26). *)
Definition handleApiResponse (response : Response) : Js.result Js.json :=
  if negb (ok response) then
    let errorData :=
      match Js.JSON_parse (body response) with
      | Js.Ok v => v
      | Js.Throw _ =>
          Js.JObject [("message",
            Js.JString ("HTTP error! Status: " +:+ Js.string_of_nat (status response)
                        +:+ " " +:+ statusText response))]
      end in
    match Js.get errorData "message" with
    | Js.Throw e => Js.Throw e
    | Js.Ok message =>
        Js.Throw (Js.Error
          (if truthy_json message then ToString (default Js.JNull message)
           else "HTTP error! status: " +:+ Js.string_of_nat (status response)))
    end
  else if (status response =? 204)%nat then Js.Ok Js.JNull
  else Js.JSON_parse (body response).

Definition content_type : list (string * string) :=
  [("Content-Type", "application/json")].

Section Service.

Context {Net : Type} `{Network Net}.

(** [getAuthHeaders] (lines 28-31). *)
Definition getAuthHeaders (b : browser Net) : list (string * string) :=
  match truthy_id (localStorage b !! "authToken") with
  | Some token => [("Authorization", "Bearer " +:+ token)]
  | None => []
  end.

(** [await fetch(...)], then [handleApiResponse] on the response. *)
Definition call (request : Request) (b : browser Net) : browser Net * Js.result Js.json :=
  match fetch request (network b) with
  | (s', Js.Ok response) =>
      ({| localStorage := localStorage b; network := s' |}, handleApiResponse response)
  | (s', Js.Throw e) =>
      ({| localStorage := localStorage b; network := s' |}, Js.Throw e)
  end.

(** [authenticateUser] (lines 35-53): the user of the response, or
    [null]. *)
Definition authenticateUser (username passwordInput : string) (b : browser Net)
  : browser Net * Js.result Js.json :=
  let request :=
    {| method := "POST"; url := API_BASE_URL +:+ "/auth/login";
       headers := content_type;
       payload := JsonBody (Js.JObject [("username", Js.JString username);
                                        ("password", Js.JString passwordInput)]) |} in
  match call request b with
  | (b', Js.Throw e) => (b', Js.Throw e)
  | (b', Js.Ok data) =>
      if negb (truthy_json (Some data)) then (b', Js.Ok Js.JNull) else
      match Js.get data "token" with
      | Js.Throw e => (b', Js.Throw e)
      | Js.Ok token =>
          if negb (truthy_json token) then (b', Js.Ok Js.JNull) else
          match Js.get data "user" with
          | Js.Throw e => (b', Js.Throw e)
          | Js.Ok user =>
              if negb (truthy_json user) then (b', Js.Ok Js.JNull) else
              (setItem "authToken" (ToString (default Js.JNull token)) b',
               Js.Ok (default Js.JNull user))
          end
      end
  end.

(** [fetchCurrentUser] (lines 55-68). *)
Definition fetchCurrentUser (b : browser Net) : browser Net * Js.json :=
  let request :=
    {| method := "GET"; url := API_BASE_URL +:+ "/auth/me";
       headers := getAuthHeaders b; payload := NoBody |} in
  match call request b with
  | (b', Js.Ok user) => (b', user)
  | (b', Js.Throw _) => (removeItem "currentUser" (removeItem "authToken" b'), Js.JNull)
  end.

Definition fetchUsersAdmin (b : browser Net) : browser Net * Js.result Js.json :=
  call {| method := "GET"; url := API_BASE_URL +:+ "/users";
          headers := getAuthHeaders b; payload := NoBody |} b.

(** [data.success] after a DELETE (lines 93-101 and 202-209). *)
Definition deleted (request : Request) (b : browser Net)
  : browser Net * Js.result (option Js.json) :=
  match call request b with
  | (b', Js.Throw e) => (b', Js.Throw e)
  | (b', Js.Ok data) => (b', Js.get data "success")
  end.

Definition deleteUserAdmin (userIdToDelete : string) (b : browser Net)
  : browser Net * Js.result (option Js.json) :=
  deleted {| method := "DELETE"; url := API_BASE_URL +:+ "/users/" +:+ userIdToDelete;
             headers := getAuthHeaders b; payload := NoBody |} b.

Definition fetchCategories (b : browser Net) : browser Net * Js.result Js.json :=
  call {| method := "GET"; url := API_BASE_URL +:+ "/categories";
          headers := []; payload := NoBody |} b.

Definition fetchManufacturers (b : browser Net) : browser Net * Js.result Js.json :=
  call {| method := "GET"; url := API_BASE_URL +:+ "/manufacturers";
          headers := []; payload := NoBody |} b.

Definition fetchAllProductsAdmin (b : browser Net) : browser Net * Js.result Js.json :=
  call {| method := "GET"; url := API_BASE_URL +:+ "/products/admin";
          headers := getAuthHeaders b; payload := NoBody |} b.

Definition addProductAdmin (productData : ProductFormData) (b : browser Net)
  : browser Net * Js.result Js.json :=
  call {| method := "POST"; url := API_BASE_URL +:+ "/products";
          headers := getAuthHeaders b ++ content_type;
          payload := FormBody productData |} b.

Definition updateProductAdmin (productData : ProductFormData) (b : browser Net)
  : browser Net * Js.result Js.json :=
  match truthy_id (pd_id productData) with
  | None => (b, Js.Throw (Js.Error "Product ID is required for update via API."))
  | Some i =>
      call {| method := "PUT"; url := API_BASE_URL +:+ "/products/" +:+ i;
              headers := getAuthHeaders b ++ content_type;
              payload := FormBody productData |} b
  end.

Definition deleteProductAdmin (productId : string) (b : browser Net)
  : browser Net * Js.result (option Js.json) :=
  deleted {| method := "DELETE"; url := API_BASE_URL +:+ "/products/" +:+ productId;
             headers := getAuthHeaders b; payload := NoBody |} b.

(** [updateStock] (lines 220-234): [data.success ?? !!data.product]. *)
Definition updateStock (productId sizeSold : string) (quantitySold : Js.number)
    (b : browser Net) : browser Net * Js.result Js.json :=
  let request :=
    {| method := "PUT"; url := API_BASE_URL +:+ "/products/" +:+ productId +:+ "/stock";
       headers := getAuthHeaders b ++ content_type;
       payload := JsonBody (Js.JObject [("sizeName", Js.JString sizeSold);
                                        ("newStock", Js.JNumber (negate quantitySold));
                                        ("action", Js.JString "sell")]) |} in
  match call request b with
  | (b', Js.Throw e) => (b', Js.Throw e)
  | (b', Js.Ok data) =>
      match Js.get data "success" with
      | Js.Throw e => (b', Js.Throw e)
      | Js.Ok (Some Js.JNull) | Js.Ok None =>
          match Js.get data "product" with
          | Js.Throw e => (b', Js.Throw e)
          | Js.Ok product => (b', Js.Ok (Js.JBool (truthy_json product)))
          end
      | Js.Ok (Some success) => (b', Js.Ok success)
      end
  end.

(** [updateProductStockAdmin] (lines 237-253); [None] is [null] for the
    size name and the stock value, [undefined] for the array. *)
Definition updateProductStockAdmin (productId : string) (sizeName : option string)
    (newStockValue : option Js.number) (updatedSizesArray : option (list SizeStock))
    (b : browser Net) : browser Net * Js.result Js.json :=
  let send v :=
    call {| method := "PUT";
            url := API_BASE_URL +:+ "/products/" +:+ productId +:+ "/stock";
            headers := getAuthHeaders b ++ content_type;
            payload := JsonBody v |} b in
  match updatedSizesArray, sizeName, newStockValue with
  | Some l, _, _ =>
      send (Js.JObject [("updatedSizesArray", Js.JArray (map json_of_SizeStock l))])
  | None, Some n, Some x =>
      send (Js.JObject [("sizeName", Js.JString n); ("newStock", Js.JNumber x)])
  | None, _, _ =>
      (b, Js.Throw (Js.Error "Invalid parameters for updateProductStockAdmin"))
  end.

(** The service as the import pass uses it.  The three functions stand
    for the casts of the responses to [Category[]], [Manufacturer[]] and
    [Product[]]. *)
Definition remote (as_categories : Js.json -> list Category)
    (as_manufacturers : Js.json -> list Manufacturer)
    (as_products : Js.json -> list Product) : Remote (browser Net) :=
  let typed {A B : Type} (f : A -> B) (r : browser Net * Js.result A) :=
    match r with
    | (b', Js.Ok v) => (b', Js.Ok (f v))
    | (b', Js.Throw e) => (b', Js.Throw e)
    end in
  {| post_product d b := typed (fun _ => tt) (addProductAdmin d b);
     put_product d b := typed (fun _ => tt) (updateProductAdmin d b);
     get_categories b := typed as_categories (fetchCategories b);
     get_manufacturers b := typed as_manufacturers (fetchManufacturers b);
     get_products_admin b := typed as_products (fetchAllProductsAdmin b) |}.

End Service.

End productService.

(** ** The other handlers of the products page *)

(** The fields of the bulk edit form; [None] is [undefined]. *)
Record BulkUpdates : Type := {
  u_categoryId : option string;
  u_manufacturerId : option string;
  u_isVisible : option bool
}.

(** [formData] of lines 569-579. *)
Definition bulk_form_data (updates : BulkUpdates) (productToUpdate : Product)
  : ProductFormData :=
  {| pd_id := Some (id productToUpdate);
     pd_title := title productToUpdate;
     pd_code := code productToUpdate;
     pd_price := price productToUpdate;
     pd_categoryId := default (categoryId productToUpdate) (u_categoryId updates);
     pd_manufacturerId :=
       default (manufacturerId productToUpdate) (u_manufacturerId updates);
     pd_sizes := stringify_sizes (sizes productToUpdate);
     pd_image := image productToUpdate;
     pd_isVisible := default (isVisible productToUpdate) (u_isVisible updates) |}.

(** The report of lines 526-535 and 592-601. *)
Definition bulk_report (done_word failed_word nothing_done : string)
    (successCount : nat) (errs : list string) (pg : page) : page :=
  let message :=
    if (0 <? successCount)%nat
    then Js.string_of_nat successCount +:+ " product(s) " +:+ done_word
         +:+ " successfully. "
    else "" in
  match errs with
  | _ :: _ =>
      setActionError (message +:+ Js.string_of_nat (length errs)
                      +:+ " product(s) failed to " +:+ failed_word +:+ ". Details: "
                      +:+ Js.join ", " errs) pg
  | [] =>
      if (0 <? successCount)%nat then setSuccessMessage message pg
      else setActionError nothing_done pg
  end.

Definition not_deleted (productId : string) : string :=
  "Product ID " +:+ productId +:+ " not found or not deleted by server.".
Definition bulk_failure (productId : string) (e : Js.js_error) : string :=
  "Product ID " +:+ productId +:+ ": " +:+ Js.err_message e.
Definition no_data_returned (productId : string) : string :=
  "Product ID " +:+ productId +:+ ": Update returned no data.".
Definition not_found_for_update (productId : string) : string :=
  "Product ID " +:+ productId +:+ " not found for update.".

Section Handlers.

Import Fetch.
Context {Net : Type} `{Network Net}.

Variable t : string -> list (string * string) -> string.

(** The casts of the responses that the page reads. *)
Variable as_categories : Js.json -> list Category.
Variable as_manufacturers : Js.json -> list Manufacturer.
Variable as_products : Js.json -> list Product.

(** [loadProducts(true)] against the service over HTTP. *)
Definition refresh (pg : page) (b : browser Net) : page * browser Net :=
  @loadProducts (browser Net)
    (productService.remote as_categories as_manufacturers as_products) t pg b.

(** The loop of lines 515-524, with [successCount] and [errors]. *)
Fixpoint delete_each (ids : list string) (successCount : nat) (errs : list string)
    (b : browser Net) : nat * list string * browser Net :=
  match ids with
  | [] => (successCount, errs, b)
  | productId :: rest =>
      match productService.deleteProductAdmin productId b with
      | (b', Js.Ok success) =>
          if truthy_json success then delete_each rest (S successCount) errs b'
          else delete_each rest successCount (errs ++ [not_deleted productId]) b'
      | (b', Js.Throw e) =>
          delete_each rest successCount (errs ++ [bulk_failure productId e]) b'
      end
  end.

(** [handleBulkDeleteSelected] (lines 505-540): the page, the selection
    and the browser it leaves.  [confirmed] is the answer to
    [window.confirm]. *)
Definition handleBulkDeleteSelected (confirmed : bool) (selectedProductIds : list string)
    (pg : page) (b : browser Net) : page * list string * browser Net :=
  let pg0 := clearMessages pg in
  match selectedProductIds with
  | [] =>
      (setActionError (t "placeholders.noData" [] +:+ " selected for deletion.") pg0,
       selectedProductIds, b)
  | _ =>
      if confirmed then
        let '(successCount, errs, b1) := delete_each selectedProductIds 0 [] b in
        let done_word :=
          Js.toLowerCase (t "common.delete" [("count", Js.string_of_nat successCount)]) in
        let pg1 :=
          bulk_report done_word "delete"
            "Bulk deletion processed, but no products were confirmed deleted by the server."
            successCount errs pg0 in
        let '(pg2, b2) := refresh pg1 b1 in
        (pg2, [], b2)
      else (pg0, selectedProductIds, b)
  end.

(** The loop of lines 565-590 over the product list [known]. *)
Fixpoint edit_each (updates : BulkUpdates) (known : list Product) (ids : list string)
    (successCount : nat) (errs : list string) (b : browser Net)
  : nat * list string * browser Net :=
  match ids with
  | [] => (successCount, errs, b)
  | productId :: rest =>
      match List.find (fun p => String.eqb (id p) productId) known with
      | Some productToUpdate =>
          match productService.updateProductAdmin
                  (bulk_form_data updates productToUpdate) b with
          | (b', Js.Ok updated) =>
              if truthy_json (Some updated)
              then edit_each updates known rest (S successCount) errs b'
              else edit_each updates known rest successCount
                             (errs ++ [no_data_returned productId]) b'
          | (b', Js.Throw e) =>
              edit_each updates known rest successCount
                        (errs ++ [bulk_failure productId e]) b'
          end
      | None =>
          edit_each updates known rest successCount
                    (errs ++ [not_found_for_update productId]) b
      end
  end.

(** [handleBulkEditSave] (lines 555-607). *)
Definition handleBulkEditSave (updates : BulkUpdates) (selectedProductIds : list string)
    (pg : page) (b : browser Net) : page * list string * browser Net :=
  let pg0 := clearMessages pg in
  let '(successCount, errs, b1) :=
    edit_each updates (products pg) selectedProductIds 0 [] b in
  let done_word :=
    Js.toLowerCase (t "common.edit" [("count", Js.string_of_nat successCount)]) in
  let pg1 :=
    bulk_report done_word "update"
      "Bulk edit processed, but no products were confirmed updated by the server."
      successCount errs pg0 in
  let '(pg2, b2) := refresh pg1 b1 in
  (pg2, [], b2).

(** [handleDeleteProduct] (lines 148-167). *)
Definition handleDeleteProduct (confirmed : bool) (productId : string) (pg : page)
    (b : browser Net) : page * browser Net :=
  let pg0 := clearMessages pg in
  let failed :=
    t "errors.failedToLoadData"
      [("entity", Js.toLowerCase (t "common.productTitle" []))] in
  if confirmed then
    match productService.deleteProductAdmin productId b with
    | (b', Js.Ok success) =>
        if truthy_json success then
          refresh
            (setSuccessMessage
               (t "common.success" [] +:+ ": " +:+ t "common.productTitle" [] +:+ " "
                +:+ Js.toLowerCase (t "common.delete" [("count", "1")]) +:+ "!") pg0) b'
        else
          (setActionError
             (failed +:+ ". "
              +:+ t "errors.apiErrorGeneric" [("message", "Product might not exist.")])
             pg0, b')
    | (b', Js.Throw e) =>
        (setActionError (failed +:+ ": " +:+ Js.err_message e) pg0, b')
    end
  else (pg0, b).

End Handlers.

(** ** The users page ([UserManagementPage.tsx]) *)

(** [User], as far as the page reads it. *)
Record User : Type := { user_id : string; username : string }.

Record users_page : Type := {
  users : list User;
  users_actionError : option string;
  users_successMessage : option string
}.

Section Users.

Import Fetch.
Context {Net : Type} `{Network Net}.

Variable t : string -> list (string * string) -> string.

(** The cast of the response to [User[]]. *)
Variable as_users : Js.json -> list User.

(** [loadUsers] (lines 770-782): the messages are cleared first. *)
Definition loadUsers (pg : users_page) (b : browser Net) : users_page * browser Net :=
  match productService.fetchUsersAdmin b with
  | (b', Js.Ok fetchedUsers) =>
      ({| users := as_users fetchedUsers; users_actionError := None;
          users_successMessage := None |}, b')
  | (b', Js.Throw _) =>
      ({| users := users pg;
          users_actionError :=
            Some (t "errors.failedToLoadData"
                    [("entity", Js.toLowerCase (t "adminPage.tabUserManagement" []))]);
          users_successMessage := None |}, b')
  end.

(** [handleDeleteUser] (lines 836-859). *)
Definition handleDeleteUser (currentUser : User) (confirmed : bool)
    (userId username_ : string) (pg : users_page) (b : browser Net)
  : users_page * browser Net :=
  let pg0 :=
    {| users := users pg; users_actionError := None; users_successMessage := None |} in
  let error msg :=
    {| users := users pg; users_actionError := Some msg;
       users_successMessage := None |} in
  if String.eqb (user_id currentUser) userId then
    (error (t "userManagement.errorSelfDelete" []), b)
  else if confirmed then
    match productService.deleteUserAdmin userId b with
    | (b', Js.Ok success) =>
        if truthy_json success then
          loadUsers
            {| users := users pg; users_actionError := None;
               users_successMessage :=
                 Some (t "userManagement.deleteSuccess" [("username", username_)]) |} b'
        else (error (t "userManagement.deleteError" [("username", username_)]), b')
    | (b', Js.Throw e) =>
        (error (t "userManagement.saveError" [("error", Js.err_message e)]), b')
    end
  else (pg0, b).

End Users.

(** ** The inventory page ([InventoryOverviewPage.tsx]) *)

(** [a <= b] and [a === b] on numbers: false when either is [NaN]. *)
Definition number_le (a b : Js.number) : bool :=
  negb (Js.isNaN a) && negb (Js.isNaN b) && negb (number_lt b a).

Definition number_eq (a b : Js.number) : bool :=
  negb (Js.isNaN a) && negb (Js.isNaN b) && negb (number_lt a b) && negb (number_lt b a).

Definition LOW_STOCK_THRESHOLD : Js.number := Js.of_nat 10.

Inductive StockFilterType : Type := FAll | FInStock | FLowStock | FOutOfStock.

(** [p.totalStock ?? 0] *)
Definition stock_of (p : Product) : Js.number :=
  default (Js.of_nat 0) (totalStock p).

(** The three tests of lines 61-83. *)
Definition in_stock (p : Product) : bool := number_lt (Js.of_nat 0) (stock_of p).
Definition low_stock (p : Product) : bool :=
  number_lt (Js.of_nat 0) (stock_of p) && number_le (stock_of p) LOW_STOCK_THRESHOLD.
Definition out_of_stock (p : Product) : bool := number_eq (stock_of p) (Js.of_nat 0).

(** [searchedProducts] (lines 50-59). *)
Definition searchedProducts (searchTermInventory : string) (products : list Product)
  : list Product :=
  if Js.nonempty searchTermInventory
  then List.filter (matches_search (Js.toLowerCase searchTermInventory)) products
  else products.

(** [filteredInventoryProducts] (lines 61-74). *)
Definition filteredInventoryProducts (activeStockFilter : StockFilterType)
    (searchTermInventory : string) (products : list Product) : list Product :=
  let productsToFilter := searchedProducts searchTermInventory products in
  match activeStockFilter with
  | FInStock => List.filter in_stock productsToFilter
  | FLowStock => List.filter low_stock productsToFilter
  | FOutOfStock => List.filter out_of_stock productsToFilter
  | FAll => productsToFilter
  end.

Record InventorySummary : Type := {
  totalProducts : nat;
  productsInStockCount : nat;
  outOfStockCount : nat;
  lowStockCount : nat
}.

(** [inventorySummary] (lines 76-83). *)
Definition inventorySummary (searchTermInventory : string) (products : list Product)
  : InventorySummary :=
  let currentProductList := searchedProducts searchTermInventory products in
  {| totalProducts := length currentProductList;
     productsInStockCount := length (List.filter in_stock currentProductList);
     outOfStockCount := length (List.filter out_of_stock currentProductList);
     lowStockCount := length (List.filter low_stock currentProductList) |}.

(** ** The session of the application ([App.tsx]) *)

Inductive view_name : Type := view_pos | view_admin.

(** [currentView] and [currentUser]; the latter is [null] when nobody is
    logged in. *)
Record App : Type := { currentView : view_name; currentUser : Js.json }.

(** [user.role === 'employee'] *)
Definition is_employee (user : Js.json) : Js.result bool :=
  match Js.get user "role" with
  | Js.Throw e => Js.Throw e
  | Js.Ok (Some (Js.JString role)) => Js.Ok (String.eqb role "employee")
  | Js.Ok _ => Js.Ok false
  end.

Section App.

Import Fetch.
Context {Net : Type} `{Network Net}.

(** [handleLogout] (lines 73-78). *)
Definition handleLogout (b : browser Net) : App * browser Net :=
  ({| currentView := view_pos; currentUser := Js.JNull |},
   removeItem "authToken" (removeItem "currentUser" b)).

(** [checkSession] (lines 19-55). *)
Definition checkSession (a : App) (b : browser Net) : App * browser Net :=
  let entered user :=
    {| currentView :=
         match is_employee user with
         | Js.Ok true => view_pos
         | _ => currentView a
         end;
       currentUser := user |} in
  match truthy_id (localStorage b !! "authToken"),
        truthy_id (localStorage b !! "currentUser") with
  | Some _, Some _ =>
      let '(b1, userFromApi) := productService.fetchCurrentUser b in
      if truthy_json (Some userFromApi) then
        let b2 := setItem "currentUser" (Js.JSON_stringify userFromApi) b1 in
        match is_employee userFromApi with
        | Js.Ok _ => (entered userFromApi, b2)
        | Js.Throw _ => handleLogout b2
        end
      else handleLogout b1
  | None, Some storedUserString =>
      match Js.JSON_parse storedUserString with
      | Js.Ok storedUser =>
          match is_employee storedUser with
          | Js.Ok _ => (entered storedUser, b)
          | Js.Throw _ => handleLogout b
          end
      | Js.Throw _ => handleLogout b
      end
  | _, None => (a, b)
  end.

End App.

(** ** Vocabulary of the properties *)

(** The text is empty or its first character is not a digit. *)
Definition starts_without_digit (l : list ascii) : Prop :=
  match l with
  | c :: _ => Js.is_digit c = false
  | [] => True
  end.

Definition digits (l : list ascii) : Prop :=
  Forall (fun c => Js.is_digit c = true) l.

(** A list of digits whose first digit is not zero. *)
Definition significant (l : list ascii) : Prop :=
  exists d tl, l = d :: tl /\ Js.is_digit d = true /\ Js.digit_value d <> 0%N /\ digits tl.

(** A literal that both number parsers read in full, and whose value is not
    zero. *)
Record well_formed (x : Js.literal) : Prop := {
  wf_int : Js.int_part x <> [] /\ digits (Js.int_part x);
  wf_lead : Js.has_leading_zero (Js.int_part x) = false;
  wf_frac : digits (Js.frac_part x);
  wf_exp : match Js.exp_part x with
           | Some (_, eds) => eds <> [] /\ digits eds
           | None => True
           end;
  wf_value : Js.value_of_digits (Js.int_part x ++ Js.frac_part x) <> 0%N
}.

(** What follows the integer digits of a literal. *)
Definition literal_tail (x : Js.literal) : list ascii :=
  match Js.frac_part x with [] => [] | fp => "."%char :: fp end
  ++ match Js.exp_part x with
     | None => []
     | Some (eneg, eds) => "e"%char :: (if eneg then "-"%char else "+"%char) :: eds
     end.

(** The fields that precede the size/stock stage are in order. *)
Definition fields_ok (ix : CatalogIndex) (row : gmap string cell) : Prop :=
  required_missing row = false /\
  (exists categoryId,
     truthy_id (categoryMap ix !! Js.toLowerCase (String_ (field row "Category")))
       = Some categoryId) /\
  (exists manufacturerId,
     truthy_id (manufacturerMap ix !! Js.toLowerCase (String_ (field row "Manufacturer")))
       = Some manufacturerId) /\
  Js.isNaN (Js.parseFloat (String_ (field row "Price"))) = false /\
  Js.le0 (Js.parseFloat (String_ (field row "Price"))) = false.

(** What line 325 asks of an element of the parsed array: an object whose
    "size" is a string and whose "stock" is a number that is not
    negative. *)
Definition element_ok (v : Js.json) : Prop :=
  exists fields s x,
    v = Js.JObject fields /\
    Js.own_property "size" fields = Some (Js.JString s) /\
    Js.own_property "stock" fields = Some (Js.JNumber x) /\
    Js.ge0 x = true.

(** The text parses as an array of such elements. *)
Definition payload_ok (sizesString : string) : Prop :=
  exists items,
    Js.JSON_parse sizesString = Js.Ok (Js.JArray items) /\ Forall element_ok items.

(** A stock that [JSON.stringify] writes as a number and line 325
    accepts: finite and not negative. *)
Definition stock_ok (x : Js.number) : Prop :=
  Js.isFinite x = true /\ Js.ge0 x = true.

(** The JSON text of each element of a size list. *)
Definition sizes_texts (l : list SizeStock) : list (list ascii) :=
  map Js.stringify (map json_of_SizeStock l).

(** A position that the loop of lines 344-363 refuses, and one it
    accepts. *)
Definition bad_pair (ns : string * Js.number) : Prop :=
  ns.1 = "" \/ Js.isNaN ns.2 = true \/ Js.lt0 ns.2 = true.

Definition good_pair (ns : string * Js.number) : Prop :=
  ns.1 <> "" /\ Js.isNaN ns.2 = false /\ Js.lt0 ns.2 = false.

(** [sizeStockArray] when no position is refused. *)
Definition pair_up (names : list string) (stocks : list Js.number) : list SizeStock :=
  zip_with (fun n x => {| size := n; stock := x |}) names stocks.

(** The trimmed token is the digits of [v] followed by something that does
    not start with a digit: a fraction, a unit, or nothing. *)
Definition truncates_to (tok : string) (v : N) : Prop :=
  exists ds rest,
    Js.trim tok = Js.text (ds ++ rest) /\ ds <> [] /\ digits ds /\
    starts_without_digit rest /\ v = Js.value_of_digits ds.

(** [c == null] *)
Definition nullish (c : cell) : Prop := c = CUndefined \/ c = CNull.

(** A "TotalStock" or "Stock" cell that yields a stock number: present,
    and read by [parseInt] as a number that is not negative. *)
Definition valid_total (c : cell) : bool :=
  match c with
  | CUndefined => false
  | _ => negb (Js.isNaN (Js.parseInt (String_ c))) && Js.ge0 (Js.parseInt (String_ c))
  end.

(** A number that line 311 accepts as a price. *)
Definition positive (x : Js.number) : Prop :=
  Js.isNaN x = false /\ Js.le0 x = false.

(** The text exported in the "Category" and "Manufacturer" columns. *)
Definition exported_category (p : Product) : string :=
  or_else (categoryName p) (categoryId p).
Definition exported_manufacturer (p : Product) : string :=
  or_else (manufacturerName p) (manufacturerId p).

(** A product whose exported row passes every check of the import: title,
    code and picture not empty, a positive price, category and
    manufacturer texts that are not empty and resolve in the index to an
    id that is not empty, and finite stocks that are not negative. *)
Record reimportable (ix : CatalogIndex) (p : Product) : Prop := {
  ri_title : title p <> "";
  ri_code : code p <> "";
  ri_image : image p <> "";
  ri_price : positive (price p);
  ri_category_text : exported_category p <> "";
  ri_category :
    truthy_id (categoryMap ix !! Js.toLowerCase (exported_category p)) <> None;
  ri_manufacturer_text : exported_manufacturer p <> "";
  ri_manufacturer :
    truthy_id (manufacturerMap ix !! Js.toLowerCase (exported_manufacturer p)) <> None;
  ri_sizes : Forall (fun z => stock_ok (stock z)) (sizes p)
}.

(** The call is an update. *)
Definition is_update (r : request) : Prop :=
  match r with UpdateProduct _ => True | AddProduct _ => False end.

(** *** The wording of the specification, for comparison *)

(** "Present and non-null", in the words of the specification. *)
Definition present_non_null (c : cell) : bool :=
  match c with CUndefined | CNull => false | _ => true end.

(** An integer: a finite number with nothing after the binary point. *)
Definition is_integer (x : Js.number) : bool :=
  match double_of x with
  | DFinite _ mant exp2 => (0 <=? exp2)%Z || (mant mod 2 ^ Z.to_N (- exp2) =? 0)%N
  | _ => false
  end.

(** "Every element must have a non-empty string size and an integer stock
    >= 0". *)
Definition claimed_element_ok (v : Js.json) : bool :=
  match v with
  | Js.JObject fields =>
      match Js.own_property "size" fields, Js.own_property "stock" fields with
      | Some (Js.JString s), Some (Js.JNumber x) =>
          Js.nonempty s && is_integer x && Js.ge0 x
      | _, _ => false
      end
  | _ => false
  end.

(** The payload "must parse successfully" as an array of such
    elements. *)
Definition claimed_payload_ok (sizesString : string) : bool :=
  match Js.JSON_parse sizesString with
  | Js.Ok (Js.JArray items) => forallb claimed_element_ok items
  | _ => false
  end.

(** "Case-insensitive match against affirmative tokens". *)
Definition affirmative (c : cell) : bool :=
  bool_decide (Js.toLowerCase (String_ c) = "yes") ||
  bool_decide (Js.toLowerCase (String_ c) = "true").

(** *** Further vocabulary *)

(** [s] begins with [pre]. *)
Definition starts_with (pre s : string) : Prop := exists rest, s = pre +:+ rest.

(** The texts [parseInt] may read a stock from: the trimmed tokens of
    "Stocks", and the texts of "TotalStock" and "Stock". *)
Definition stock_texts (row : gmap string cell) : list string :=
  map Js.trim (Js.split "," (trimmed row "Stocks"))
  ++ [String_ (field row "TotalStock"); String_ (field row "Stock")].

(** [parseInt] reads the text as [NaN] or as a finite number: the digits
    it reads stay within the range of the doubles. *)
Definition within_range (s : string) : Prop :=
  Js.isNaN (Js.parseInt s) = true \/ Js.isFinite (Js.parseInt s) = true.

(** The number of insert calls and of update calls in a list of calls. *)
Definition inserts (l : list request) : nat :=
  length (List.filter (fun r => match r with AddProduct _ => true | _ => false end) l).
Definition updates (l : list request) : nat :=
  length (List.filter (fun r => match r with UpdateProduct _ => true | _ => false end) l).

(** The value the sort reads under key [k] is not [NaN]: the comparator
    is then a consistent ordering, and the outcome of the sort is
    determined. *)
Definition comparable (k : sort_key) (p : Product) : Prop :=
  match k with
  | KTitle => True
  | KPrice => Js.isNaN (price p) = false
  | KTotalStock => Js.isNaN (default (Js.of_nat 0) (totalStock p)) = false
  end.

(** The product passes the filters of [f]. *)
Definition passes (f : filters) (p : Product) : Prop :=
  (searchTerm f = "" \/
   Js.contains (Js.toLowerCase (title p)) (Js.toLowerCase (searchTerm f)) \/
   Js.contains (Js.toLowerCase (code p)) (Js.toLowerCase (searchTerm f))) /\
  (filterCategoryId f = ALL_FILTER_VALUE \/ categoryId p = filterCategoryId f) /\
  (filterManufacturerId f = ALL_FILTER_VALUE \/ manufacturerId p = filterManufacturerId f).

(** The two numbers have the same value: neither is [NaN] and neither is
    less than the other. *)
Definition same_number (x y : Js.number) : Prop :=
  Js.isNaN x = false /\ Js.isNaN y = false /\
  number_lt x y = false /\ number_lt y x = false.

(** The exponent a literal is written with. *)
Definition exp_value (x : Js.literal) : Z :=
  match Js.exp_part x with
  | None => 0%Z
  | Some (eneg, eds) =>
      if eneg then (- Z.of_N (Js.value_of_digits eds))%Z
      else Z.of_N (Js.value_of_digits eds)
  end.

(** The browser after a request that left the network in [s']. *)
Definition after {Net : Type} (b : Fetch.browser Net) (s' : Net) : Fetch.browser Net :=
  {| Fetch.localStorage := Fetch.localStorage b; Fetch.network := s' |}.

(** What reading [success] of [null] throws. *)
Definition no_success : Js.js_error :=
  Js.TypeError "Cannot read properties of null (reading 'success')".

(** Nobody is logged in, and the storage holds no token and no user. *)
Definition logged_out {Net : Type} (out : App * Fetch.browser Net) : Prop :=
  fst out = {| currentView := view_pos; currentUser := Js.JNull |} /\
  Fetch.localStorage (snd out) !! "authToken" = None /\
  Fetch.localStorage (snd out) !! "currentUser" = None.

(** ** A concrete service and catalog, for the examples *)

Module Demo.

(** A service that records what it receives and always resolves. *)
#[global] Instance remote : Remote (list request) := {|
  post_product d w := (w ++ [AddProduct d], Js.Ok tt);
  put_product d w := (w ++ [UpdateProduct d], Js.Ok tt);
  get_categories w := (w, Js.Ok []);
  get_manufacturers w := (w, Js.Ok []);
  get_products_admin w := (w, Js.Ok [])
|}.

(** A service that refuses every product titled "boom". *)
Definition flaky : Remote (list request) := {|
  post_product d w :=
    if bool_decide (pd_title d = "boom")
    then (w, Js.Throw (Js.Error "HTTP error! status: 500"))
    else (w ++ [AddProduct d], Js.Ok tt);
  put_product d w :=
    if bool_decide (pd_title d = "boom")
    then (w, Js.Throw (Js.Error "HTTP error! status: 500"))
    else (w ++ [UpdateProduct d], Js.Ok tt);
  get_categories w := (w, Js.Ok []);
  get_manufacturers w := (w, Js.Ok []);
  get_products_admin w := (w, Js.Ok [])
|}.

(** A translation that answers in English for the two keys the import
    can read back, and with the key otherwise. *)
Definition t (key : string) (args : list (string * string)) : string :=
  if bool_decide (key = "common.yes") then "Yes"
  else if bool_decide (key = "common.no") then "No"
  else key.

(** A text whose double quotes are written as apostrophes. *)
Fixpoint qq (s : string) : string :=
  match s with
  | EmptyString => EmptyString
  | String c r => String (if Ascii.eqb c "'" then "034"%char else c) (qq r)
  end.

Definition cats : list Category := [ {| cat_id := "c1"; cat_name := "Shoes" |} ].
Definition mans : list Manufacturer := [ {| man_id := "m1"; man_name := "Nike" |} ].

Definition air : Product :=
  {| id := "p1"; title := "Air"; code := "AB1";
     price := Js.Finite false 1999 (-2);
     categoryId := "c1"; manufacturerId := "m1";
     categoryName := Some "Shoes"; manufacturerName := Some "Nike";
     sizes := [ {| size := "M"; stock := Js.of_nat 3 |};
                {| size := "L"; stock := Js.of_nat 0 |} ];
     image := "http://img/air.png"; isVisible := true;
     totalStock := Some (Js.of_nat 3) |}.

(** The same product without a picture. *)
Definition bare : Product :=
  {| id := "p2"; title := "Bare"; code := "CD2";
     price := Js.Finite false 5 0;
     categoryId := "c1"; manufacturerId := "m1";
     categoryName := Some "Shoes"; manufacturerName := Some "Nike";
     sizes := []; image := ""; isVisible := false; totalStock := None |}.

Definition ix : CatalogIndex := build_index cats mans [air].

Definition page0 (ps : list Product) : page :=
  {| products := ps; categories := cats; manufacturers := mans;
     actionError := None; successMessage := None |}.

(** A row with the six required columns only. *)
Definition base_row (code_ : cell) : gmap string cell :=
  list_to_map [("Title", CStr "Runner"); ("Code", code_);
               ("Price", CNum (Js.Finite false 25 0));
               ("Category", CStr "shoes"); ("Manufacturer", CStr "NIKE");
               ("Image URL", CStr "http://img/r.png")].

Definition row_with (extra : list (string * cell)) (code_ : cell) : gmap string cell :=
  list_to_map extra ∪ base_row code_.

(** The world before any call. *)
Definition no_world : list request := [].

(** A new product, in a row with the required columns only. *)
Definition plain : gmap string cell := base_row (CStr "N1").

(** The data [plain] is validated to, but for the size list and the
    visibility. *)
Definition plain_data (sizes_ : string) (visible : bool) : ProductFormData :=
  {| pd_id := None; pd_title := "Runner"; pd_code := "N1";
     pd_price := Js.Finite false 25 0; pd_categoryId := "c1";
     pd_manufacturerId := "m1"; pd_sizes := sizes_;
     pd_image := "http://img/r.png"; pd_isVisible := visible |}.

(** A new product with a structured payload. *)
Definition payload_row (payload : string) : gmap string cell :=
  row_with [("SizesStockJSON", CStr payload)] (CStr "N1").

(** A new product with the two parallel columns. *)
Definition parallel_row (sizes_ stocks_ : string) : gmap string cell :=
  row_with [("Sizes", CStr sizes_); ("Stocks", CStr stocks_)] (CStr "N1").

End Demo.

(** ** A concrete network and page, for the examples *)

Module Shop.

(** A network that records the requests and answers each of them by
    [answer]. *)
Record net : Type := {
  answer : Fetch.Request -> Js.result Fetch.Response;
  seen : list Fetch.Request
}.

#[global] Instance wire : Fetch.Network net := {|
  Fetch.fetch request s :=
    ({| answer := answer s; seen := seen s ++ [request] |}, answer s request)
|}.

(** A browser with an empty storage in front of such a network. *)
Definition online (answer_ : Fetch.Request -> Js.result Fetch.Response)
  : Fetch.browser net :=
  {| Fetch.localStorage := ∅;
     Fetch.network := {| answer := answer_; seen := [] |} |}.

Definition no_content : Fetch.Response :=
  {| Fetch.status := 204; Fetch.statusText := "No Content"; Fetch.body := "" |}.

(** The answer 400 with an error body. *)
Definition refused (message : string) : Fetch.Response :=
  {| Fetch.status := 400; Fetch.statusText := "Bad Request";
     Fetch.body := Js.JSON_stringify (Js.JObject [("message", Js.JString message)]) |}.

(** The answer 200 with a JSON body. *)
Definition answered (v : Js.json) : Fetch.Response :=
  {| Fetch.status := 200; Fetch.statusText := "OK"; Fetch.body := Js.JSON_stringify v |}.

Definition always (response : Fetch.Response) (request : Fetch.Request)
  : Js.result Fetch.Response := Js.Ok response.

(** A server that keeps the requests it gets and answers each of them
    with 204 No Content. *)
Definition quiet : Fetch.Network (list Fetch.Request) := {|
  Fetch.fetch request s := (s ++ [request], Js.Ok no_content)
|}.

(** The answer to a login: a token and a user. *)
Definition session : Js.json :=
  Js.JObject [("token", Js.JString "tok1");
              ("user", Js.JObject [("username", Js.JString "ann")])].

(** Casts for a page that reads nothing from the answers. *)
Definition no_categories (v : Js.json) : list Category := [].
Definition no_manufacturers (v : Js.json) : list Manufacturer := [].
Definition no_products (v : Js.json) : list Product := [].
Definition no_users (v : Js.json) : list User := [].

(** A translation into another language. *)
Definition t_fr (key_ : string) (args : list (string * string)) : string :=
  if bool_decide (key_ = "common.yes") then "Oui"
  else if bool_decide (key_ = "common.no") then "Non"
  else key_.



Definition by_price : filters :=
  {| searchTerm := ""; filterCategoryId := ALL_FILTER_VALUE;
     filterManufacturerId := ALL_FILTER_VALUE;
     sortConfig := Some {| key := KPrice; direction := ascending |} |}.

Definition search (term : string) : filters :=
  {| searchTerm := term; filterCategoryId := ALL_FILTER_VALUE;
     filterManufacturerId := ALL_FILTER_VALUE; sortConfig := None |}.

Definition ann : User := {| user_id := "u1"; username := "ann" |}.

Definition users0 : users_page :=
  {| users := [ann]; users_actionError := None; users_successMessage := None |}.

(** The application before the check of the session. *)
Definition app0 : App := {| currentView := view_admin; currentUser := Js.JNull |}.

(** A browser that holds a user and no token. *)
Definition remembered : Fetch.browser net :=
  Fetch.setItem "currentUser"
    (Js.JSON_stringify (Js.JObject [("username", Js.JString "ann");
                                    ("role", Js.JString "employee")]))
    (online (always no_content)).

End Shop.

(** ** Properties *)

Lemma append_cons (x : ascii) (a b : string) :
  String x a +:+ b = String x (a +:+ b).
Proof. reflexivity. Qed.

Lemma append_assoc (a b c : string) : (a +:+ b) +:+ c = a +:+ (b +:+ c).
Proof.
  induction a as [|x a IH]; [reflexivity |].
  rewrite !append_cons. now rewrite IH.
Qed.

Lemma append_nil_r (a : string) : a +:+ "" = a.
Proof.
  induction a as [|x a IH]; [reflexivity |].
  rewrite append_cons. now rewrite IH.
Qed.

Lemma contains_here (pre x post : string) : Js.contains (pre +:+ x +:+ post) x.
Proof. now exists pre, post. Qed.

Lemma contains_append_l (pre hay x : string) :
  Js.contains hay x -> Js.contains (pre +:+ hay) x.
Proof.
  intros (a & b & ->). exists (pre +:+ a), b. now rewrite append_assoc.
Qed.

Lemma contains_end (pre x : string) : Js.contains (pre +:+ x) x.
Proof. exists pre, "". now rewrite append_nil_r. Qed.

Create HintDb contains.
Lemma contains_append_r (hay post x : string) :
  Js.contains hay x -> Js.contains (hay +:+ post) x.
Proof.
  intros (a & b & ->). exists a, (b +:+ post). now rewrite !append_assoc.
Qed.

Lemma contains_quoted (x : string) : Js.contains (Js.quoted x) x.
Proof. now exists (String "034" ""), (String "034" ""). Qed.

#[local] Hint Resolve contains_here contains_append_l contains_end
  contains_append_r contains_quoted : contains.

(** What a validated row went through. *)
Lemma parse_row_Parsed (ix : CatalogIndex) (rowIndex : nat) (row : gmap string cell)
    (warning : option string) (d : ProductFormData) :
  parse_row ix rowIndex row = Parsed warning d ->
  required_missing row = false /\
  exists categoryId manufacturerId sizesString,
    truthy_id (categoryMap ix !! Js.toLowerCase (String_ (field row "Category")))
      = Some categoryId /\
    truthy_id (manufacturerMap ix !! Js.toLowerCase (String_ (field row "Manufacturer")))
      = Some manufacturerId /\
    Js.isNaN (Js.parseFloat (String_ (field row "Price"))) = false /\
    Js.le0 (Js.parseFloat (String_ (field row "Price"))) = false /\
    resolve_sizes rowIndex row = SizesResolved warning sizesString /\
    d = {| pd_id := None;
           pd_title := String_ (field row "Title");
           pd_code := String_ (field row "Code");
           pd_price := Js.parseFloat (String_ (field row "Price"));
           pd_categoryId := categoryId;
           pd_manufacturerId := manufacturerId;
           pd_sizes := sizesString;
           pd_image := String_ (field row "Image URL");
           pd_isVisible := parse_isVisible row |}.
Proof.
  unfold parse_row.
  destruct (required_missing row); [discriminate |].
  destruct (truthy_id (categoryMap ix !! _)) as [cid|]; [| discriminate].
  destruct (truthy_id (manufacturerMap ix !! _)) as [mid|]; [| discriminate].
  destruct (Js.isNaN _) eqn:Hnan; [discriminate |].
  destruct (Js.le0 _) eqn:Hle; [discriminate |]. simpl.
  destruct (resolve_sizes rowIndex row) as [r|w s] eqn:Hs; [discriminate |].
  intros [= <- <-]. split; [reflexivity |].
  exists cid, mid, s. repeat split; reflexivity.
Qed.

Lemma parse_row_sizes (ix : CatalogIndex) (rowIndex : nat) (row : gmap string cell) :
  fields_ok ix row ->
  match resolve_sizes rowIndex row with
  | SizesRejected reason => parse_row ix rowIndex row = Rejected reason
  | SizesResolved warning sizesString =>
      exists d, parse_row ix rowIndex row = Parsed warning d /\
                pd_sizes d = sizesString /\
                pd_code d = String_ (field row "Code")
  end.
Proof.
  intros (Hreq & [cid Hc] & [mid Hm] & Hnan & Hle).
  unfold parse_row. rewrite Hreq, Hc, Hm, Hnan, Hle. simpl.
  destruct (resolve_sizes rowIndex row); [reflexivity |].
  eexists. repeat split; reflexivity.
Qed.

(** *** Facts about the runtime *)

Lemma span_digits_app (ds rest : list ascii) :
  Forall (fun c => Js.is_digit c = true) ds ->
  starts_without_digit rest ->
  Js.span_digits (ds ++ rest) = (ds, rest).
Proof.
  intros Hds Hrest. induction Hds as [|c ds Hc _ IH]; cbn [app Js.span_digits].
  - destruct rest as [|c r]; [reflexivity |].
    cbn [starts_without_digit] in Hrest. cbn [Js.span_digits]. now rewrite Hrest.
  - now rewrite Hc, IH.
Qed.

Lemma digit_not_space (c : ascii) : Js.is_digit c = true -> Js.is_space c = false.
Proof.
  unfold Js.is_digit, Js.is_space. intros Hd.
  apply andb_true_iff in Hd as [H1 H2].
  apply N.leb_le in H1, H2.
  destruct (N.leb_spec 9 (Js.code c)), (N.leb_spec (Js.code c) 13),
    (N.eqb_spec (Js.code c) 32), (N.eqb_spec (Js.code c) 160); simpl; try reflexivity; lia.
Qed.

Lemma digit_no_sign (c : ascii) (r : list ascii) :
  Js.is_digit c = true -> Js.take_sign (c :: r) = (false, c :: r).
Proof.
  destruct c as [[] [] [] [] [] [] [] []]; try discriminate; reflexivity.
Qed.

Lemma chars_text (l : list ascii) : Js.chars (Js.text l) = l.
Proof. apply list_ascii_of_string_of_list_ascii. Qed.

Lemma code_ascii_of_N (n : N) : (n < 256)%N -> Js.code (ascii_of_N n) = n.
Proof. apply N_ascii_embedding. Qed.

Lemma digit_char_spec (r : N) :
  (r < 10)%N ->
  Js.is_digit (Js.digit_char r) = true /\ Js.digit_value (Js.digit_char r) = r.
Proof.
  intros Hr. unfold Js.is_digit, Js.digit_value, Js.digit_char.
  rewrite code_ascii_of_N by lia. split; [| lia].
  apply andb_true_iff. split; apply N.leb_le; lia.
Qed.

Lemma digits_aux_spec (fuel : nat) :
  forall (n : N) (acc : list ascii),
  (n < 2 ^ N.of_nat fuel)%N -> n <> 0%N ->
  exists d tl, Js.digits_aux fuel n acc = d :: tl ++ acc /\
               Js.is_digit d = true /\ Js.digit_value d <> 0%N /\ digits tl.
Proof.
  induction fuel as [|f IH]; intros n acc Hlt Hnz.
  - simpl in Hlt. lia.
  - cbn [Js.digits_aux]. cbv zeta.
    destruct (digit_char_spec (n mod 10)) as [Hd Hv].
    { apply N.mod_upper_bound. lia. }
    destruct (N.ltb_spec n 10) as [Hsmall | Hbig].
    + exists (Js.digit_char (n mod 10)), []. rewrite N.mod_small in * by lia.
      repeat split; [assumption | lia | constructor].
    + destruct (IH (n / 10)%N (Js.digit_char (n mod 10) :: acc)) as (d & tl & Heq & Hdd & Hdv & Htl).
      * rewrite Nat2N.inj_succ, N.pow_succ_r' in Hlt.
        apply N.Div0.div_lt_upper_bound. lia.
      * intros H0. apply N.div_small_iff in H0; lia.
      * exists d, (tl ++ [Js.digit_char (n mod 10)]). rewrite Heq.
        rewrite <- app_assoc. repeat split; try assumption.
        apply Forall_app. split; [assumption |]. now constructor.
Qed.

Lemma digits_of_N_significant (n : N) : n <> 0%N -> significant (Js.digits_of_N n).
Proof.
  intros Hnz. unfold Js.digits_of_N.
  destruct (digits_aux_spec (S (N.to_nat (N.size n))) n []) as (d & tl & Heq & ?).
  - rewrite Nat2N.inj_succ, N2Nat.id, N.pow_succ_r'.
    pose proof (N.size_gt n). lia.
  - assumption.
  - exists d, tl. now rewrite Heq, app_nil_r.
Qed.

Lemma significant_digits (l : list ascii) : significant l -> l <> [] /\ digits l.
Proof.
  intros (d & tl & -> & Hd & _ & Htl). split; [discriminate | now constructor].
Qed.

Lemma digits_of_N_digits (n : N) : Js.digits_of_N n <> [] /\ digits (Js.digits_of_N n).
Proof.
  destruct (N.eq_dec n 0%N) as [-> | Hnz].
  - split; [discriminate | repeat constructor].
  - now apply significant_digits, digits_of_N_significant.
Qed.

Lemma zeros_digits (k : nat) : digits (Js.zeros k).
Proof. apply Forall_replicate. reflexivity. Qed.

Lemma strip_zeros_spec (r : list ascii) :
  forall (e : Z) (ds : list ascii) (e' : Z),
  Js.strip_zeros r e = (ds, e') -> exists k, rev r = ds ++ Js.zeros k.
Proof.
  induction r as [|c r IH]; intros e ds e' Hs; cbn [Js.strip_zeros] in Hs.
  - injection Hs as <- _. now exists 0.
  - destruct (Ascii.eqb_spec c "0") as [-> | Hc].
    + destruct (IH _ _ _ Hs) as [k Hk]. exists (S k).
      cbn [rev]. rewrite Hk, <- app_assoc. f_equal.
      change (Js.zeros (S k)) with ("0"%char :: Js.zeros k).
      unfold Js.zeros. now rewrite <- replicate_cons_app.
    + injection Hs as <- _. exists 0. now rewrite app_nil_r.
Qed.

Lemma zero_digit_value (c : ascii) : Js.digit_value c <> 0%N -> c <> "0"%char.
Proof. intros Hv ->. now apply Hv. Qed.

Lemma stripped_significant (m : N) (e : Z) (ds : list ascii) (e' : Z) :
  m <> 0%N ->
  Js.strip_zeros (rev (Js.digits_of_N m)) e = (ds, e') -> significant ds.
Proof.
  intros Hm Hs. destruct (strip_zeros_spec _ _ _ _ Hs) as [k Hk].
  rewrite rev_involutive in Hk.
  destruct (digits_of_N_significant m Hm) as (d & tl & Heq & Hd & Hv & Htl).
  rewrite Heq in Hk. destruct ds as [|d' ds'].
  - destruct k; [discriminate |]. simpl in Hk. injection Hk as -> _.
    now apply zero_digit_value in Hv.
  - injection Hk as <- ->. exists d, ds'. repeat split; try assumption.
    now apply Forall_app in Htl as [? _].
Qed.

Lemma value_of_digits_acc (l : list ascii) (acc : N) :
  acc <> 0%N ->
  fold_left (fun a c => (a * 10 + Js.digit_value c)%N) l acc <> 0%N.
Proof.
  revert acc. induction l as [|c l IH]; intros acc Hacc; simpl; [assumption |].
  apply IH. lia.
Qed.

Lemma value_fold_nonzero (l : list ascii) (acc : N) :
  Exists (fun c => Js.digit_value c <> 0%N) l ->
  fold_left (fun a c => (a * 10 + Js.digit_value c)%N) l acc <> 0%N.
Proof.
  revert acc. induction l as [|c l IH]; intros acc Hex; [inversion Hex |].
  simpl. apply Exists_cons in Hex as [Hc | Hl].
  - apply value_of_digits_acc. lia.
  - now apply IH.
Qed.

Lemma value_of_digits_nonzero (l : list ascii) :
  Exists (fun c => Js.digit_value c <> 0%N) l -> Js.value_of_digits l <> 0%N.
Proof. apply value_fold_nonzero. Qed.

Lemma layout_well_formed (ds : list ascii) (n : Z) :
  significant ds -> well_formed (Js.layout ds n).
Proof.
  intros (d & tl & -> & Hd & Hv & Htl).
  assert (Hds : digits (d :: tl)) by now constructor.
  assert (Hlead : Ascii.eqb d "0" = false).
  { apply Ascii.eqb_neq. now apply zero_digit_value. }
  assert (Hnz : forall pre post, Js.value_of_digits (pre ++ d :: post) <> 0%N).
  { intros pre post. apply value_of_digits_nonzero, Exists_app. right. now left. }
  unfold Js.layout.
  destruct ((Z.of_nat (length (d :: tl)) <=? n)%Z && (n <=? 21)%Z) eqn:Ha;
    [| destruct ((0 <? n)%Z && (n <=? 21)%Z) eqn:Hb;
       [| destruct ((-6 <? n)%Z && (n <=? 0)%Z) eqn:Hc]].
  - constructor; cbn [Js.int_part Js.frac_part Js.exp_part].
    + split; [discriminate |]. apply Forall_app. split; [assumption | apply zeros_digits].
    + simpl. now destruct (tl ++ _).
    + constructor.
    + exact I.
    + rewrite app_nil_r. apply (Hnz [] (tl ++ _)).
  - apply andb_true_iff in Hb as [Hb _]. apply Z.ltb_lt in Hb.
    destruct (Z.to_nat n) as [|n'] eqn:Hn; [lia |].
    constructor; cbn [Js.int_part Js.frac_part Js.exp_part].
    + split; [discriminate |]. now apply Forall_take.
    + simpl. now destruct (take n' tl).
    + now apply Forall_drop.
    + exact I.
    + rewrite take_drop. apply (Hnz [] tl).
  - constructor; cbn [Js.int_part Js.frac_part Js.exp_part].
    + split; [discriminate | repeat constructor].
    + reflexivity.
    + apply Forall_app. split; [apply zeros_digits | assumption].
    + exact I.
    + apply (Hnz ("0"%char :: Js.zeros _) tl).
  - constructor; cbn [Js.int_part Js.frac_part Js.exp_part].
    + split; [discriminate | now repeat constructor].
    + reflexivity.
    + simpl. now rewrite drop_0.
    + apply digits_of_N_digits.
    + rewrite take_drop. apply (Hnz [] tl).
Qed.

Lemma digit_no_minus (c : ascii) (r : list ascii) :
  Js.is_digit c = true -> Js.take_minus (c :: r) = (false, c :: r).
Proof.
  destruct c as [[] [] [] [] [] [] [] []]; try discriminate; reflexivity.
Qed.

Lemma digit_no_Infinity (c : ascii) (r : list ascii) :
  Js.is_digit c = true -> Js.is_prefix (Js.chars "Infinity") (c :: r) = false.
Proof.
  intros Hc. apply bool_decide_eq_false. simpl. intros [= -> _]. discriminate.
Qed.

Lemma literal_text_tail (x : Js.literal) :
  Js.literal_text x = Js.int_part x ++ literal_tail x.
Proof. reflexivity. Qed.

Lemma scan_exponent_literal (eneg : bool) (eds rest : list ascii) :
  eds <> [] -> digits eds -> starts_without_digit rest ->
  Js.scan_exponent ("e"%char :: (if eneg then "-"%char else "+"%char) :: eds ++ rest)
  = Some (if eneg then (- Z.of_N (Js.value_of_digits eds))%Z
          else Z.of_N (Js.value_of_digits eds), rest).
Proof.
  intros Hne Hds Hrest. unfold Js.scan_exponent.
  change (Js.is_e "e") with true. cbv iota.
  replace (Js.take_sign ((if eneg then "-"%char else "+"%char) :: eds ++ rest))
    with (eneg, eds ++ rest) by now destruct eneg.
  rewrite (span_digits_app _ _ Hds Hrest). now destruct eds.
Qed.

Lemma value_fold (l : list ascii) (acc : N) :
  fold_left (fun a c => (a * 10 + Js.digit_value c)%N) l acc
  = (acc * 10 ^ N.of_nat (length l) + Js.value_of_digits l)%N.
Proof.
  unfold Js.value_of_digits. revert acc.
  induction l as [|c l IH]; intros acc.
  - simpl. lia.
  - cbn [fold_left length]. rewrite IH, (IH (0 * 10 + Js.digit_value c)%N).
    rewrite Nat2N.inj_succ, N.pow_succ_r'. lia.
Qed.

Lemma value_of_digits_app (a b : list ascii) :
  Js.value_of_digits (a ++ b)
  = (Js.value_of_digits a * 10 ^ N.of_nat (length b) + Js.value_of_digits b)%N.
Proof. unfold Js.value_of_digits at 1. rewrite fold_left_app. apply value_fold. Qed.

Lemma value_of_zeros (k : nat) : Js.value_of_digits (Js.zeros k) = 0%N.
Proof.
  induction k as [|k IH]; [reflexivity |].
  change (Js.zeros (S k)) with (["0"%char] ++ Js.zeros k).
  rewrite value_of_digits_app, IH. reflexivity.
Qed.

Lemma length_zeros (k : nat) : length (Js.zeros k) = k.
Proof. apply length_replicate. Qed.

Lemma digits_aux_value (fuel : nat) :
  forall (n : N) (acc : list ascii),
  (n < 2 ^ N.of_nat fuel)%N ->
  Js.value_of_digits (Js.digits_aux fuel n acc)
  = (n * 10 ^ N.of_nat (length acc) + Js.value_of_digits acc)%N.
Proof.
  induction fuel as [|f IH]; intros n acc Hlt.
  - simpl in Hlt. assert (n = 0%N) by lia. subst. reflexivity.
  - cbn [Js.digits_aux]. cbv zeta.
    destruct (digit_char_spec (n mod 10)) as [_ Hv].
    { apply N.mod_upper_bound. lia. }
    assert (Hcons : forall acc0, Js.value_of_digits (Js.digit_char (n mod 10) :: acc0)
              = ((n mod 10) * 10 ^ N.of_nat (length acc0) + Js.value_of_digits acc0)%N).
    { intros acc0. change (?c :: acc0) with ([c] ++ acc0).
      rewrite value_of_digits_app. unfold Js.value_of_digits at 1. simpl.
      now rewrite Hv. }
    destruct (N.ltb_spec n 10) as [Hsmall | Hbig].
    + rewrite Hcons, N.mod_small by lia. reflexivity.
    + rewrite IH.
      * rewrite Hcons. cbn [length]. rewrite Nat2N.inj_succ, N.pow_succ_r'.
        pose proof (N.div_mod n 10). nia.
      * rewrite Nat2N.inj_succ, N.pow_succ_r' in Hlt.
        apply N.Div0.div_lt_upper_bound. lia.
Qed.

Lemma value_of_digits_of_N (n : N) : Js.value_of_digits (Js.digits_of_N n) = n.
Proof.
  unfold Js.digits_of_N. rewrite digits_aux_value.
  - change (Js.value_of_digits []) with 0%N. cbn [length]. rewrite N.pow_0_r. lia.
  - rewrite Nat2N.inj_succ, N2Nat.id, N.pow_succ_r'.
    pose proof (N.size_gt n). lia.
Qed.

Lemma strip_zeros_exp (r : list ascii) :
  forall (e : Z) (ds : list ascii) (e' : Z),
  Js.strip_zeros r e = (ds, e') ->
  exists k, rev r = ds ++ Js.zeros k /\ e' = (e + Z.of_nat k)%Z.
Proof.
  induction r as [|c r IH]; intros e ds e' Hs; cbn [Js.strip_zeros] in Hs.
  - injection Hs as <- <-. exists 0. split; [reflexivity | lia].
  - destruct (Ascii.eqb_spec c "0") as [-> | Hc].
    + destruct (IH _ _ _ Hs) as (k & Hk & ->). exists (S k). split; [| lia].
      cbn [rev]. rewrite Hk, <- app_assoc. f_equal.
      change (Js.zeros (S k)) with ("0"%char :: Js.zeros k).
      unfold Js.zeros. now rewrite <- replicate_cons_app.
    + injection Hs as <- <-. exists 0. split; [now rewrite app_nil_r | lia].
Qed.

(** [parseFloat] reads a well-formed literal with the value it is
    written with. *)
Lemma parseFloat_literal_exact (x : Js.literal) :
  well_formed x ->
  Js.parseFloat (Js.text (Js.literal_text x))
  = Js.number_value false (Js.value_of_digits (Js.int_part x ++ Js.frac_part x))
                          (exp_value x - Z.of_nat (length (Js.frac_part x))).
Proof.
  intros [[Hne Hint] _ Hfrac Hexp _].
  unfold Js.parseFloat, exp_value. rewrite chars_text, literal_text_tail.
  unfold literal_tail.
  destruct x as [ip fp ex]. cbn [Js.int_part Js.frac_part Js.exp_part] in *.
  assert (Hexp_start : starts_without_digit
            (match ex with
             | None => []
             | Some (eneg, eds) =>
                 "e"%char :: (if eneg then "-"%char else "+"%char) :: eds
             end)).
  { destruct ex as [[eneg eds]|]; reflexivity. }
  assert (Hscan : match Js.scan_exponent
                          (match ex with
                           | None => []
                           | Some (eneg, eds) =>
                               "e"%char :: (if eneg then "-"%char else "+"%char) :: eds
                           end) with
                  | Some (v, _) => v
                  | None => 0%Z
                  end
                  = match ex with
                    | None => 0%Z
                    | Some (eneg, eds) =>
                        if eneg then (- Z.of_N (Js.value_of_digits eds))%Z
                        else Z.of_N (Js.value_of_digits eds)
                    end).
  { destruct ex as [[eneg eds]|]; [| reflexivity].
    destruct Hexp as [Hene Heds].
    pose proof (scan_exponent_literal eneg eds [] Hene Heds I) as Hs.
    rewrite app_nil_r in Hs. rewrite Hs. now destruct eneg. }
  destruct ip as [|c ip]; [congruence |].
  pose proof (Forall_inv Hint) as Hc.
  change ((c :: ip) ++ ?t) with (c :: (ip ++ t)).
  cbn [Js.skip_spaces]. rewrite (digit_not_space c Hc), (digit_no_sign c _ Hc).
  rewrite (digit_no_Infinity c _ Hc).
  destruct fp as [|f fp].
  - cbn [app]. change (c :: (ip ++ ?t)) with ((c :: ip) ++ t).
    rewrite (span_digits_app _ _ Hint Hexp_start).
    rewrite app_nil_r.
    destruct ex as [[eneg eds]|].
    + cbn [app length] in *. cbv beta iota. rewrite Hscan, ?app_nil_r. reflexivity.
    + cbn [app length]. cbv beta iota. rewrite ?app_nil_r. reflexivity.
  - change (c :: (ip ++ ?t)) with ((c :: ip) ++ t).
    rewrite span_digits_app; [| assumption | reflexivity].
    cbn [app]. change (f :: (fp ++ ?t)) with ((f :: fp) ++ t).
    rewrite (span_digits_app _ _ Hfrac Hexp_start).
    cbn [app]. rewrite Hscan. reflexivity.
Qed.

Lemma layout_value (ds : list ascii) (n : Z) :
  ds <> [] ->
  exists j : nat,
    Js.value_of_digits (Js.int_part (Js.layout ds n) ++ Js.frac_part (Js.layout ds n))
      = (Js.value_of_digits ds * 10 ^ N.of_nat j)%N /\
    (exp_value (Js.layout ds n)
       - Z.of_nat (length (Js.frac_part (Js.layout ds n))) + Z.of_nat j
     = n - Z.of_nat (length ds))%Z.
Proof.
  intros Hne.
  assert (Hk : 1 <= length ds) by (destruct ds; [congruence | simpl; lia]).
  unfold Js.layout, exp_value.
  destruct ((Z.of_nat (length ds) <=? n)%Z && (n <=? 21)%Z) eqn:Ha;
    [| destruct ((0 <? n)%Z && (n <=? 21)%Z) eqn:Hb;
       [| destruct ((-6 <? n)%Z && (n <=? 0)%Z) eqn:Hc]];
    cbn [Js.int_part Js.frac_part Js.exp_part].
  - apply andb_true_iff in Ha as [Ha1 Ha2]. apply Z.leb_le in Ha1, Ha2.
    exists (Z.to_nat (n - Z.of_nat (length ds))). split; [| cbn [length]; lia].
    rewrite app_nil_r, value_of_digits_app, value_of_zeros, length_zeros. lia.
  - apply andb_true_iff in Hb as [Hb1 Hb2]. apply Z.ltb_lt in Hb1.
    apply andb_false_iff in Ha. exists 0. rewrite take_drop.
    change (N.of_nat 0) with 0%N. rewrite N.pow_0_r. split; [lia |].
    rewrite length_drop.
    destruct Ha as [Ha | Ha]; [apply Z.leb_gt in Ha; lia |].
    apply Z.leb_le in Hb2. apply Z.leb_gt in Ha. lia.
  - apply andb_true_iff in Hc as [Hc1 Hc2]. apply Z.leb_le in Hc2.
    exists 0. split.
    + rewrite app_assoc, value_of_digits_app.
      rewrite (value_of_digits_app ["0"%char]), value_of_zeros.
      change (Js.value_of_digits ["0"%char]) with 0%N.
      change (N.of_nat 0) with 0%N. rewrite N.pow_0_r. lia.
    + rewrite length_app, length_zeros. lia.
  - exists 0. rewrite take_drop.
    change (N.of_nat 0) with 0%N. rewrite N.pow_0_r. split; [lia |].
    rewrite length_drop, value_of_digits_of_N.
    destruct (Z.ltb_spec (n - 1) 0); rewrite N2Z.inj_abs_N; lia.
Qed.

(** *** The double a numeral stands for *)

Lemma binary64_eqb_eq (a b : Js.binary64) : Js.binary64_eqb a b = true -> a = b.
Proof.
  destruct a as [|ma ea|], b as [|mb eb|]; simpl; try discriminate; try reflexivity.
  intros Hab. apply andb_true_iff in Hab as [Hm He].
  apply N.eqb_eq in Hm. apply Z.eqb_eq in He. now subst.
Qed.

(** A numeral and the same numeral with zeros moved into the exponent are
    the same fraction. *)
Lemma fraction_scale (v : N) (k : nat) (e : Z) :
  Js.fraction (v * 10 ^ N.of_nat k) e = Js.fraction v (e + Z.of_nat k).
Proof.
  unfold Js.fraction.
  assert (Hc : exists c : N, c <> 0%N /\
            (v * 10 ^ N.of_nat k * 10 ^ Z.to_N e = v * 10 ^ Z.to_N (e + Z.of_nat k) * c)%N /\
            (10 ^ Z.to_N (- e) = 10 ^ Z.to_N (- (e + Z.of_nat k)) * c)%N).
  { destruct (Z.le_gt_cases 0 e) as [He | He].
    - exists 1%N. split; [lia |].
      replace (Z.to_N (e + Z.of_nat k)) with (N.of_nat k + Z.to_N e)%N by lia.
      replace (Z.to_N (- e)) with 0%N by lia.
      replace (Z.to_N (- (e + Z.of_nat k))) with 0%N by lia.
      rewrite N.pow_add_r. split; lia.
    - destruct (Z.le_gt_cases 0 (e + Z.of_nat k)) as [Hk | Hk].
      + exists (10 ^ Z.to_N (- e))%N. split; [apply N.pow_nonzero; lia |].
        replace (Z.to_N e) with 0%N by lia.
        replace (Z.to_N (- (e + Z.of_nat k))) with 0%N by lia.
        replace (N.of_nat k) with (Z.to_N (e + Z.of_nat k) + Z.to_N (- e))%N by lia.
        rewrite N.pow_add_r, !N.pow_0_r. split; lia.
      + exists (10 ^ N.of_nat k)%N. split; [apply N.pow_nonzero; lia |].
        replace (Z.to_N e) with 0%N by lia.
        replace (Z.to_N (e + Z.of_nat k)) with 0%N by lia.
        replace (Z.to_N (- e)) with (Z.to_N (- (e + Z.of_nat k)) + N.of_nat k)%N by lia.
        rewrite N.pow_add_r, !N.pow_0_r. split; lia. }
  destruct Hc as (c & Hc & -> & ->). cbv zeta.
  set (num := (v * 10 ^ Z.to_N (e + Z.of_nat k))%N).
  set (den := (10 ^ Z.to_N (- (e + Z.of_nat k)))%N).
  assert (Hg : N.gcd num den <> 0%N).
  { intros H0. apply N.gcd_eq_0_r in H0. subst den.
    revert H0. apply N.pow_nonzero. lia. }
  rewrite N.gcd_mul_mono_r.
  now rewrite !N.Div0.div_mul_cancel_r by assumption.
Qed.

Lemma magnitude_scale (v : N) (k : nat) (e : Z) :
  Js.magnitude (v * 10 ^ N.of_nat k) e = Js.magnitude v (e + Z.of_nat k).
Proof. unfold Js.magnitude. now rewrite fraction_scale. Qed.

Lemma magnitude_0 (e : Z) : Js.magnitude 0 e = Js.Zero.
Proof.
  unfold Js.magnitude, Js.fraction. rewrite N.mul_0_l, N.gcd_0_l.
  rewrite N.Div0.div_0_l. reflexivity.
Qed.

Lemma first_of_Some {A B : Type} (f : A -> option B) (l : list A) (y : B) :
  Js.first_of f l = Some y -> exists x, f x = Some y.
Proof.
  induction l as [|x l IH]; [discriminate |]. cbn [Js.first_of].
  destruct (f x) as [z|] eqn:Hx; [intros [= <-]; eauto | assumption].
Qed.

(** The decimal [Number::toString] chooses stands for the double it
    writes. *)
Lemma shortest_sound (d : Js.binary64) (s : N) (es : Z) :
  Js.shortest d = Some (s, es) -> s <> 0%N /\ Js.magnitude s es = d.
Proof.
  destruct d as [|mant exp2|]; [discriminate | | discriminate].
  unfold Js.shortest. destruct (Js.expansion mant exp2) as [i e].
  intros Hf. apply first_of_Some in Hf as [k Hk].
  apply find_some in Hk as [_ Hr]. unfold Js.rounds_to in Hr.
  apply andb_true_iff in Hr as [Hs Hm]. cbn [fst snd] in *.
  split; [now apply N.eqb_neq, negb_true_iff | now apply binary64_eqb_eq].
Qed.

(** A Number value reads as the numeral it is the value of. *)
Lemma isNaN_number_value (neg : bool) (m : N) (e : Z) :
  Js.isNaN (Js.number_value neg m e) = false.
Proof.
  unfold Js.number_value. destruct (Js.magnitude m e); try reflexivity.
  now destruct (default _ _).
Qed.

Lemma magnitude_number_value (neg : bool) (m : N) (e : Z) (mant : N) (exp2 : Z) :
  Js.magnitude m e = Js.Double mant exp2 ->
  exists s es,
    Js.number_value neg m e = Js.Finite neg s es /\
    default (m, e) (Js.shortest (Js.Double mant exp2)) = (s, es) /\
    Js.magnitude s es = Js.Double mant exp2.
Proof.
  intros Hm. unfold Js.number_value. rewrite Hm.
  destruct (Js.shortest (Js.Double mant exp2)) as [[s es]|] eqn:Hs; cbn [default].
  - exists s, es. repeat split. now apply shortest_sound.
  - exists m, e. now repeat split.
Qed.

Lemma lt0_number_value (neg : bool) (m : N) (e : Z) :
  Js.lt0 (Js.number_value neg m e) = Js.lt0 (Js.Finite neg m e).
Proof.
  destruct (Js.magnitude m e) as [|mant exp2|] eqn:Hm.
  - unfold Js.number_value. rewrite Hm. cbn [Js.lt0]. now rewrite Hm, magnitude_0.
  - destruct (magnitude_number_value neg m e mant exp2 Hm) as (s & es & -> & _ & Hs).
    cbn [Js.lt0]. now rewrite Hm, Hs.
  - unfold Js.number_value. rewrite Hm. cbn [Js.lt0]. rewrite Hm. now destruct neg.
Qed.

Lemma le0_number_value (neg : bool) (m : N) (e : Z) :
  Js.le0 (Js.number_value neg m e) = Js.le0 (Js.Finite neg m e).
Proof.
  destruct (Js.magnitude m e) as [|mant exp2|] eqn:Hm.
  - unfold Js.number_value. rewrite Hm. cbn [Js.le0]. now rewrite Hm, magnitude_0.
  - destruct (magnitude_number_value neg m e mant exp2 Hm) as (s & es & -> & _ & Hs).
    cbn [Js.le0]. now rewrite Hm, Hs.
  - unfold Js.number_value. rewrite Hm. cbn [Js.le0]. rewrite Hm. now destruct neg.
Qed.

Lemma ge0_number_value (neg : bool) (m : N) (e : Z) :
  Js.ge0 (Js.number_value neg m e) = Js.ge0 (Js.Finite neg m e).
Proof.
  destruct (Js.magnitude m e) as [|mant exp2|] eqn:Hm.
  - unfold Js.number_value. rewrite Hm. cbn [Js.ge0]. now rewrite Hm, magnitude_0.
  - destruct (magnitude_number_value neg m e mant exp2 Hm) as (s & es & -> & _ & Hs).
    cbn [Js.ge0]. now rewrite Hm, Hs.
  - unfold Js.number_value. rewrite Hm. cbn [Js.ge0]. rewrite Hm. now destruct neg.
Qed.

Lemma isFinite_number_value (neg : bool) (m : N) (e : Z) :
  Js.isFinite (Js.number_value neg m e) = Js.isFinite (Js.Finite neg m e).
Proof.
  destruct (Js.magnitude m e) as [|mant exp2|] eqn:Hm.
  - unfold Js.number_value. rewrite Hm. cbn [Js.isFinite]. now rewrite Hm, magnitude_0.
  - destruct (magnitude_number_value neg m e mant exp2 Hm) as (s & es & -> & _ & Hs).
    cbn [Js.isFinite]. now rewrite Hm, Hs.
  - unfold Js.number_value. rewrite Hm. cbn [Js.isFinite]. now rewrite Hm.
Qed.

Lemma double_of_number_value (neg : bool) (m : N) (e : Z) :
  double_of (Js.number_value neg m e) = double_of (Js.Finite neg m e).
Proof.
  destruct (Js.magnitude m e) as [|mant exp2|] eqn:Hm.
  - unfold Js.number_value. rewrite Hm. cbn [double_of]. now rewrite Hm, magnitude_0.
  - destruct (magnitude_number_value neg m e mant exp2 Hm) as (s & es & -> & _ & Hs).
    cbn [double_of]. now rewrite Hm, Hs.
  - unfold Js.number_value. rewrite Hm. cbn [double_of]. now rewrite Hm.
Qed.

Lemma toString_number_value (neg : bool) (m : N) (e : Z) :
  Js.toString (Js.number_value neg m e) = Js.toString (Js.Finite neg m e).
Proof.
  destruct (Js.magnitude m e) as [|mant exp2|] eqn:Hm.
  - unfold Js.number_value. rewrite Hm. unfold Js.toString. now rewrite Hm, magnitude_0.
  - destruct (magnitude_number_value neg m e mant exp2 Hm) as (s & es & -> & Hd & Hs).
    unfold Js.toString. rewrite Hm, Hs.
    destruct (Js.shortest (Js.Double mant exp2)) as [[s' es']|]; [reflexivity |].
    change ((m, e) = (s, es)) in Hd. now injection Hd as <- <-.
  - unfold Js.number_value. rewrite Hm. unfold Js.toString. now rewrite Hm.
Qed.

(** The text of a numeral that stands for a double other than zero: the
    layout of digits that stand for the same double. *)
Lemma toString_Double (neg : bool) (m : N) (e : Z) (mant : N) (exp2 : Z) :
  Js.magnitude m e = Js.Double mant exp2 ->
  exists ds e',
    Js.toString (Js.Finite neg m e) =
      (let body := Js.literal_text (Js.layout ds (Z.of_nat (length ds) + e')) in
       Js.text (if neg then "-"%char :: body else body)) /\
    significant ds /\
    Js.magnitude (Js.value_of_digits ds) e' = Js.Double mant exp2.
Proof.
  intros Hm. unfold Js.toString. rewrite Hm.
  assert (Hc : exists s es, default (m, e) (Js.shortest (Js.Double mant exp2)) = (s, es)
                            /\ s <> 0%N /\ Js.magnitude s es = Js.Double mant exp2).
  { destruct (Js.shortest (Js.Double mant exp2)) as [[s es]|] eqn:Hs.
    - exists s, es. split; [reflexivity | now apply shortest_sound].
    - exists m, e. split; [reflexivity |]. split; [| assumption].
      intros ->. now rewrite magnitude_0 in Hm. }
  destruct Hc as (s & es & -> & Hs & Hms).
  destruct (Js.strip_zeros (rev (Js.digits_of_N s)) es) as [ds e'] eqn:Hstrip.
  exists ds, e'. split; [reflexivity |].
  split; [eapply stripped_significant; eassumption |].
  destruct (strip_zeros_exp _ _ _ _ Hstrip) as (kz & Hrev & ->).
  rewrite rev_involutive in Hrev.
  rewrite <- magnitude_scale, <- Hms. f_equal.
  rewrite <- (value_of_digits_of_N s), Hrev.
  rewrite value_of_digits_app, value_of_zeros, length_zeros. lia.
Qed.

(** The value a layout is read with is the value of its digits. *)
Lemma layout_magnitude (ds : list ascii) (n : Z) :
  ds <> [] ->
  let x := Js.layout ds n in
  Js.magnitude (Js.value_of_digits (Js.int_part x ++ Js.frac_part x))
               (exp_value x - Z.of_nat (length (Js.frac_part x)))
  = Js.magnitude (Js.value_of_digits ds) (n - Z.of_nat (length ds)).
Proof.
  intros Hne x. destruct (layout_value ds n Hne) as (j & Hv & Hx).
  subst x. rewrite Hv, magnitude_scale. f_equal. lia.
Qed.

(** [JSON.parse] reads a well-formed literal in full when a closing brace
    follows, with the value it is written with. *)
Lemma parse_number_literal (x : Js.literal) (r : list ascii) :
  well_formed x ->
  Js.parse_number (Js.literal_text x ++ "}"%char :: r)
  = Js.Ok (Js.number_value false
             (Js.value_of_digits (Js.int_part x ++ Js.frac_part x))
             (exp_value x - Z.of_nat (length (Js.frac_part x))),
           "}"%char :: r).
Proof.
  intros [[Hne Hint] Hlead Hfrac Hexp _].
  rewrite literal_text_tail. unfold literal_tail, exp_value. rewrite <- !app_assoc.
  destruct x as [ip fp ex]. cbn [Js.int_part Js.frac_part Js.exp_part] in *.
  assert (Hbrace : starts_without_digit ("}"%char :: r)) by reflexivity.
  assert (Hexp_start : starts_without_digit
            (match ex with
             | None => []
             | Some (eneg, eds) =>
                 "e"%char :: (if eneg then "-"%char else "+"%char) :: eds
             end ++ "}"%char :: r)).
  { destruct ex as [[eneg eds]|]; reflexivity. }
  unfold Js.parse_number.
  destruct ip as [|c ip]; [congruence |].
  pose proof (Forall_inv Hint) as Hc.
  change ((c :: ip) ++ ?t) with (c :: (ip ++ t)).
  rewrite (digit_no_minus c _ Hc).
  destruct fp as [|f fp].
  - cbn [app]. change (c :: (ip ++ ?t)) with ((c :: ip) ++ t).
    rewrite (span_digits_app _ _ Hint Hexp_start).
    rewrite bool_decide_eq_false_2 by discriminate. rewrite Hlead.
    rewrite app_nil_r.
    destruct ex as [[eneg eds]|]; cbn [app].
    + destruct Hexp as [Hene Heds]. change (Js.is_e "e") with true. cbv iota.
      rewrite (scan_exponent_literal eneg eds _ Hene Heds Hbrace).
      repeat rewrite app_nil_r. reflexivity.
    + change (Js.is_e "}") with false. cbv iota.
      repeat rewrite app_nil_r. reflexivity.
  - change (c :: (ip ++ ?t)) with ((c :: ip) ++ t).
    rewrite span_digits_app; [| assumption | reflexivity].
    rewrite bool_decide_eq_false_2 by discriminate. rewrite Hlead.
    cbn [app]. change (f :: (fp ++ ?t)) with ((f :: fp) ++ t).
    rewrite (span_digits_app _ _ Hfrac Hexp_start).
    destruct ex as [[eneg eds]|]; cbn [app].
    + destruct Hexp as [Hene Heds]. change (Js.is_e "e") with true. cbv iota.
      rewrite (scan_exponent_literal eneg eds _ Hene Heds Hbrace).
      repeat rewrite app_nil_r. reflexivity.
    + change (Js.is_e "}") with false. cbv iota.
      repeat rewrite app_nil_r. reflexivity.
Qed.

(** The text of a numeral that stands for a positive double is read by
    [parseFloat] as a numeral that stands for the same double. *)
Lemma parseFloat_toString_Double (m : N) (e : Z) (mant : N) (exp2 : Z) :
  Js.magnitude m e = Js.Double mant exp2 ->
  exists v X,
    Js.parseFloat (Js.toString (Js.Finite false m e)) = Js.number_value false v X /\
    Js.magnitude v X = Js.Double mant exp2.
Proof.
  intros Hm. destruct (toString_Double false m e mant exp2 Hm) as (ds & e' & -> & Hsig & Hd).
  cbv zeta.
  rewrite parseFloat_literal_exact by now apply layout_well_formed.
  eexists _, _. split; [reflexivity |].
  rewrite layout_magnitude by now apply significant_digits in Hsig as [? _].
  rewrite <- Hd. f_equal. lia.
Qed.

(** The same for [JSON.parse], inside an object. *)
Lemma parse_number_toString_Double (m : N) (e : Z) (mant : N) (exp2 : Z) (r : list ascii) :
  Js.magnitude m e = Js.Double mant exp2 ->
  exists v X,
    Js.parse_number (Js.chars (Js.toString (Js.Finite false m e)) ++ "}"%char :: r)
      = Js.Ok (Js.number_value false v X, "}"%char :: r) /\
    Js.magnitude v X = Js.Double mant exp2.
Proof.
  intros Hm. destruct (toString_Double false m e mant exp2 Hm) as (ds & e' & -> & Hsig & Hd).
  cbv zeta. rewrite chars_text.
  rewrite parse_number_literal by now apply layout_well_formed.
  eexists _, _. split; [reflexivity |].
  rewrite layout_magnitude by now apply significant_digits in Hsig as [? _].
  rewrite <- Hd. f_equal. lia.
Qed.

(** A number that is not negative is a zero or has no minus sign. *)
Lemma ge0_Double (neg : bool) (m : N) (e : Z) (mant : N) (exp2 : Z) :
  Js.magnitude m e = Js.Double mant exp2 ->
  Js.ge0 (Js.Finite neg m e) = true -> neg = false.
Proof. intros Hm. cbn [Js.ge0]. rewrite Hm. now destruct neg. Qed.

(** The text of a finite number that is not negative parses back, inside
    an object, to a number that is not negative. *)
Lemma parse_number_toString (neg : bool) (m : N) (e : Z) (r : list ascii) :
  Js.isFinite (Js.Finite neg m e) = true ->
  Js.ge0 (Js.Finite neg m e) = true ->
  exists y, Js.parse_number (Js.chars (Js.toString (Js.Finite neg m e)) ++ "}"%char :: r)
            = Js.Ok (y, "}"%char :: r) /\ Js.ge0 y = true.
Proof.
  intros Hfin Hge.
  destruct (Js.magnitude m e) as [|mant exp2|] eqn:Hm.
  - unfold Js.toString. rewrite Hm. eexists. split; [reflexivity |].
    now rewrite ge0_number_value.
  - rewrite (ge0_Double _ _ _ _ _ Hm Hge).
    destruct (parse_number_toString_Double m e mant exp2 r Hm) as (v & X & -> & _).
    eexists. split; [reflexivity |]. now rewrite ge0_number_value.
  - cbn [Js.isFinite] in Hfin. now rewrite Hm in Hfin.
Qed.

(** The text of a positive number is read by [parseFloat] as a positive
    number. *)
Lemma parseFloat_toString (x : Js.number) :
  Js.isNaN x = false -> Js.le0 x = false ->
  Js.isNaN (Js.parseFloat (Js.toString x)) = false /\
  Js.le0 (Js.parseFloat (Js.toString x)) = false.
Proof.
  destruct x as [|neg|neg m e]; intros Hnan Hle; [discriminate | |].
  - simpl in Hle. subst neg. split; reflexivity.
  - cbn [Js.le0] in Hle. apply orb_false_iff in Hle as [-> Hz].
    destruct (Js.magnitude m e) as [|mant exp2|] eqn:Hm; [discriminate | |].
    + destruct (parseFloat_toString_Double m e mant exp2 Hm) as (v & X & -> & Hv).
      split; [apply isNaN_number_value |].
      rewrite le0_number_value. cbn [Js.le0]. now rewrite Hv.
    + unfold Js.toString. rewrite Hm. split; reflexivity.
Qed.

Lemma toString_starts_with_digit (neg : bool) (m : N) (e : Z) :
  Js.isFinite (Js.Finite neg m e) = true ->
  Js.ge0 (Js.Finite neg m e) = true ->
  exists c tl, Js.chars (Js.toString (Js.Finite neg m e)) = c :: tl /\
               Js.is_digit c = true.
Proof.
  intros Hfin Hge.
  destruct (Js.magnitude m e) as [|mant exp2|] eqn:Hm.
  - unfold Js.toString. rewrite Hm. now exists "0"%char, [].
  - rewrite (ge0_Double _ _ _ _ _ Hm Hge).
    destruct (toString_Double false m e mant exp2 Hm) as (ds & e' & -> & Hsig & _).
    cbv zeta. rewrite chars_text, literal_text_tail.
    destruct (layout_well_formed ds (Z.of_nat (length ds) + e') Hsig)
      as [[Hne Hint] _ _ _ _].
    destruct (Js.int_part _) as [|c tl]; [congruence |].
    exists c, (tl ++ literal_tail (Js.layout ds (Z.of_nat (length ds) + e'))).
    split; [reflexivity | exact (Forall_inv Hint)].
  - cbn [Js.isFinite] in Hfin. now rewrite Hm in Hfin.
Qed.

Lemma toString_nonempty (x : Js.number) : Js.toString x <> "".
Proof.
  destruct x as [|neg|neg m e]; [discriminate | now destruct neg |].
  destruct (Js.magnitude m e) as [|mant exp2|] eqn:Hm.
  - unfold Js.toString. now rewrite Hm.
  - destruct (toString_Double neg m e mant exp2 Hm) as (ds & e' & -> & Hsig & _).
    cbv zeta. destruct neg; [discriminate |].
    rewrite literal_text_tail.
    destruct (layout_well_formed ds (Z.of_nat (length ds) + e') Hsig)
      as [[Hne _] _ _ _ _].
    destruct (Js.int_part _); [congruence | discriminate].
  - unfold Js.toString. rewrite Hm. now destruct neg.
Qed.

(** *** The structured payload *)

Lemma size_stock_ok_true (v : Js.json) :
  size_stock_ok v = Js.Ok true <-> element_ok v.
Proof.
  unfold element_ok. split.
  - destruct v as [| | | | |fields]; try discriminate. unfold size_stock_ok. simpl.
    destruct (Js.own_property "size" fields) as [[| | |s| |]|] eqn:Hs; try discriminate.
    destruct (Js.own_property "stock" fields) as [[| |x| | |]|] eqn:Hk; try discriminate.
    intros [= Hx]. now exists fields, s, x.
  - intros (fields & s0 & x & -> & Hs & Hk & Hx).
    unfold size_stock_ok. simpl. now rewrite Hs, Hk, Hx.
Qed.

Lemma every_true {A : Type} (f : A -> Js.result bool) (l : list A) :
  Js.every f l = Js.Ok true <-> Forall (fun x => f x = Js.Ok true) l.
Proof.
  induction l as [|x l IH]; simpl.
  - split; [constructor | reflexivity].
  - rewrite Forall_cons. destruct (f x) as [[]|e].
    + rewrite IH. tauto.
    + split; [discriminate | intros [? _]; discriminate].
    + split; [discriminate | intros [? _]; discriminate].
Qed.

Lemma every_size_stock_ok (items : list Js.json) :
  Js.every size_stock_ok items = Js.Ok true <-> Forall element_ok items.
Proof.
  rewrite every_true. apply Forall_iff. intros v. apply size_stock_ok_true.
Qed.

(** The two ways out of lines 321-332. *)
Lemma check_payload_cases (rowIndex : nat) (sizesString : string) :
  (payload_ok sizesString /\
   check_payload rowIndex sizesString = SizesResolved None sizesString) \/
  (~ payload_ok sizesString /\
   exists reason,
     check_payload rowIndex sizesString = SizesRejected reason /\
     Js.contains reason sizesString /\
     forall e, Js.JSON_parse sizesString = Js.Throw e ->
               Js.contains reason (Js.error_text e)).
Proof.
  unfold check_payload, payload_ok.
  destruct (Js.JSON_parse sizesString) as [v|e] eqn:Hparse.
  - assert (Hshape : forall v', v = v' -> (forall items, v' <> Js.JArray items) ->
      (¬ (∃ items, Js.Ok v = Js.Ok (Js.JArray items) ∧ Forall element_ok items)) /\
      Js.contains (row_label rowIndex +:+ ": 'SizesStockJSON' ("
         +:+ Js.quoted sizesString
         +:+ ") is not a valid array of {size: string, stock: number (>=0)}.")
        sizesString).
    { intros v' -> Hv. split; [| auto 10 with contains].
      intros (items & [= ->] & _). now apply (Hv items). }
    destruct v as [| | | |items|];
      try (right; destruct (Hshape _ eq_refl) as [Hno Hc]; [discriminate |];
           split; [exact Hno |]; eexists; split; [reflexivity |];
           split; [exact Hc | discriminate]).
    destruct (Js.every size_stock_ok items) as [[]|e] eqn:Hev.
    + left. split; [| reflexivity]. exists items. split; [reflexivity |].
      now apply every_size_stock_ok.
    + right. split.
      * intros (items' & [= <-] & Hall). apply every_size_stock_ok in Hall. congruence.
      * eexists. split; [reflexivity |]. split; [auto 10 with contains | discriminate].
    + right. split.
      * intros (items' & [= <-] & Hall). apply every_size_stock_ok in Hall. congruence.
      * eexists. split; [reflexivity |]. split; [auto 10 with contains | discriminate].
  - right. split; [intros (items & [=] & _) |].
    eexists. split; [reflexivity |]. split; [auto 10 with contains |].
    intros e' [= <-]. auto 10 with contains.
Qed.

(** *** [JSON.parse] after [JSON.stringify] on a size list *)

Lemma parse_quote_char (c : ascii) (tail : list ascii) :
  Js.parse_string_body (Js.quote_char c ++ tail)
  = Js.cons_char c (Js.parse_string_body tail).
Proof. destruct c as [[] [] [] [] [] [] [] []]; reflexivity. Qed.

Lemma parse_quote_body (s : string) (rest : list ascii) :
  Js.parse_string_body (Js.quote_body s ++ "034"%char :: rest) = Js.Ok (s, rest).
Proof.
  induction s as [|c s IH]; [reflexivity |].
  cbn [Js.quote_body]. now rewrite <- app_assoc, parse_quote_char, IH.
Qed.

Lemma parse_value_string (f : nat) (body : list ascii) :
  Js.parse_value (S f) ("034"%char :: body) =
    match Js.parse_string_body body with
    | Js.Ok (s, r) => Js.Ok (Js.JString s, r)
    | Js.Throw e => Js.Throw e
    end.
Proof. reflexivity. Qed.

Lemma parse_value_object (f : nat) (body : list ascii) :
  Js.parse_value (S f) ("{"%char :: "034"%char :: body) =
    match Js.parse_members (Js.parse_value f) f ("034"%char :: body) with
    | Js.Ok (kvs, r) => Js.Ok (Js.JObject kvs, r)
    | Js.Throw e => Js.Throw e
    end.
Proof. reflexivity. Qed.

Lemma parse_value_array (f : nat) (body : list ascii) :
  Js.parse_value (S f) ("["%char :: "{"%char :: body) =
    match Js.parse_items (Js.parse_value f) f ("{"%char :: body) with
    | Js.Ok (vs, r) => Js.Ok (Js.JArray vs, r)
    | Js.Throw e => Js.Throw e
    end.
Proof. reflexivity. Qed.

Lemma parse_value_number (f : nat) (c : ascii) (l : list ascii) :
  Js.is_digit c = true ->
  Js.parse_value (S f) (c :: l) =
    match Js.parse_number (c :: l) with
    | Js.Ok (x, r) => Js.Ok (Js.JNumber x, r)
    | Js.Throw e => Js.Throw e
    end.
Proof.
  destruct c as [[] [] [] [] [] [] [] []]; try discriminate; reflexivity.
Qed.

Lemma element_text (x : SizeStock) (rest : list ascii) :
  Js.stringify (json_of_SizeStock x) ++ rest =
    "{"%char :: "034"%char :: Js.quote_body "size" ++ "034"%char :: ":"%char ::
    "034"%char :: Js.quote_body (size x) ++ "034"%char :: ","%char ::
    "034"%char :: Js.quote_body "stock" ++ "034"%char :: ":"%char ::
    Js.number_text (stock x) ++ "}"%char :: rest.
Proof.
  unfold json_of_SizeStock. cbn [Js.stringify map Js.intercalate].
  unfold Js.quote. cbn [app]. repeat (rewrite <- app_assoc; cbn [app]).
  reflexivity.
Qed.

Lemma parse_element (f : nat) (x : SizeStock) (rest : list ascii) :
  stock_ok (stock x) ->
  exists y,
    Js.parse_value (S (S (S f))) (Js.stringify (json_of_SizeStock x) ++ rest)
    = Js.Ok (Js.JObject [("size", Js.JString (size x)); ("stock", Js.JNumber y)], rest)
    /\ Js.ge0 y = true.
Proof.
  intros [Hfin Hok]. destruct (stock x) as [| |neg m e] eqn:Hstock; try discriminate.
  destruct (toString_starts_with_digit neg m e Hfin Hok) as (c & tl & Htext & Hc).
  destruct (parse_number_toString neg m e rest Hfin Hok) as (y & Hnum & Hy).
  exists y. split; [| assumption].
  rewrite element_text, Hstock. unfold Js.number_text. rewrite Hfin.
  rewrite parse_value_object. cbn [Js.parse_members].
  change (Js.skip_ws ("034"%char :: ?r)) with ("034"%char :: r). cbv beta iota.
  rewrite parse_quote_body.
  change (Js.skip_ws (":"%char :: ?r)) with (":"%char :: r). cbv beta iota.
  rewrite parse_value_string, parse_quote_body.
  change (Js.skip_ws (","%char :: ?r)) with (","%char :: r). cbv beta iota.
  change (Js.skip_ws ("034"%char :: ?r)) with ("034"%char :: r). cbv beta iota.
  rewrite parse_quote_body.
  change (Js.skip_ws (":"%char :: ?r)) with (":"%char :: r). cbv beta iota.
  rewrite Htext in *. cbn [app] in *.
  rewrite (parse_value_number _ c _ Hc), Hnum.
  reflexivity.
Qed.

Lemma element_ok_parsed (s : string) (y : Js.number) :
  Js.ge0 y = true ->
  element_ok (Js.JObject [("size", Js.JString s); ("stock", Js.JNumber y)]).
Proof. intros Hy. now exists [("size", Js.JString s); ("stock", Js.JNumber y)], s, y. Qed.

Lemma intercalate_cons (sep : ascii) (p : list ascii) (ps : list (list ascii)) :
  ps <> [] -> Js.intercalate sep (p :: ps) = p ++ sep :: Js.intercalate sep ps.
Proof. destruct ps; [congruence | reflexivity]. Qed.

Lemma parse_items_sizes (F : nat) (l : list SizeStock) :
  forall (x : SizeStock) (fuel : nat) (rest : list ascii),
  3 <= F -> length (x :: l) <= fuel ->
  Forall (fun z => stock_ok (stock z)) (x :: l) ->
  exists items,
    Js.parse_items (Js.parse_value F) fuel
      (Js.intercalate "," (sizes_texts (x :: l)) ++ "]"%char :: rest)
    = Js.Ok (items, rest) /\ Forall element_ok items.
Proof.
  induction l as [|x' l IH]; intros x fuel rest HF Hfuel Hall;
    destruct fuel as [|fuel]; try (simpl in Hfuel; lia);
    destruct F as [|[|[|F]]]; try lia;
    apply Forall_cons in Hall as [Hx Hall];
    change (sizes_texts (x :: ?t)) with (Js.stringify (json_of_SizeStock x) :: sizes_texts t).
  - cbn [sizes_texts map Js.intercalate Js.parse_items].
    destruct (parse_element F x ("]"%char :: rest) Hx) as (y & Hp & Hy).
    rewrite Hp. change (Js.skip_ws ("]"%char :: ?r)) with ("]"%char :: r). cbv beta iota.
    eexists. split; [reflexivity |]. constructor; [| constructor].
    now apply element_ok_parsed.
  - rewrite intercalate_cons by discriminate.
    rewrite <- app_assoc. cbn [app Js.parse_items].
    destruct (parse_element F x
                (","%char :: Js.intercalate "," (sizes_texts (x' :: l))
                 ++ "]"%char :: rest) Hx) as (y & Hp & Hy).
    rewrite Hp.
    change (Js.skip_ws (","%char :: ?r)) with (","%char :: r). cbv beta iota.
    destruct (IH x' fuel rest) as (items & Hitems & Hok);
      [lia | cbn [length] in Hfuel |- *; lia | assumption |].
    rewrite Hitems.
    eexists. split; [reflexivity |]. constructor; [| assumption].
    now apply element_ok_parsed.
Qed.

Lemma intercalate_length (sep : ascii) (parts : list (list ascii)) :
  Forall (fun p => 2 <= length p) parts ->
  2 * length parts <= length (Js.intercalate sep parts).
Proof.
  induction 1 as [|p ps Hp _ IH]; [simpl; lia |].
  destruct ps as [|q ps]; [simpl in *; lia |].
  change (Js.intercalate sep (p :: q :: ps))
    with (p ++ sep :: Js.intercalate sep (q :: ps)).
  rewrite length_app. simpl in *. lia.
Qed.

(** What [JSON.stringify] writes for a list of sizes with finite stocks
    that are not negative, [JSON.parse] reads as an array that passes the
    test of line 325. *)
Lemma sizes_roundtrip (l : list SizeStock) :
  Forall (fun z => stock_ok (stock z)) l -> payload_ok (stringify_sizes l).
Proof.
  intros Hall. unfold payload_ok, stringify_sizes, Js.JSON_stringify, Js.JSON_parse.
  rewrite chars_text.
  destruct l as [|x l].
  - exists []. split; [reflexivity | constructor].
  - cbn [Js.stringify]. fold (sizes_texts (x :: l)).
    set (inner := Js.intercalate "," (sizes_texts (x :: l))).
    assert (Hlen : 2 * length (x :: l) <= length inner).
    { subst inner. etransitivity; [| apply intercalate_length].
      - unfold sizes_texts. now rewrite !length_map.
      - apply Forall_forall. intros p Hp.
        apply list_elem_of_fmap in Hp as (j & -> & Hj).
        apply list_elem_of_fmap in Hj as (z & -> & _).
        pose proof (element_text z []) as Ht. rewrite app_nil_r in Ht.
        rewrite Ht. simpl. lia. }
    assert (Hbrace : exists body, inner = "{"%char :: body).
    { subst inner.
      change (sizes_texts (x :: l))
        with (Js.stringify (json_of_SizeStock x) :: sizes_texts l).
      pose proof (element_text x []) as Ht.
      rewrite app_nil_r in Ht. rewrite Ht.
      destruct (sizes_texts l); cbn [Js.intercalate app]; eauto. }
    destruct (parse_items_sizes (S (length (inner ++ ["]"%char]))) l x
                (S (length (inner ++ ["]"%char]))) []) as (items & Hitems & Hok).
    + rewrite length_app. simpl in *. lia.
    + rewrite length_app. simpl in *. lia.
    + assumption.
    + fold inner in Hitems. exists items. split; [| assumption].
      cbn [length]. destruct Hbrace as [body Hbody].
      rewrite Hbody in *. cbn [app] in *.
      rewrite parse_value_array, Hitems. reflexivity.
Qed.

(** [trim] leaves a text alone that neither begins nor ends with white
    space. *)
Lemma trimEnd_last (l : list ascii) (c : ascii) :
  Js.is_space c = false -> Js.trimEnd (Js.text (l ++ [c])) = Js.text (l ++ [c]).
Proof.
  intros Hc. induction l as [|a l IH].
  - simpl. now rewrite Hc.
  - change (Js.text ((a :: l) ++ [c])) with (String a (Js.text (l ++ [c]))).
    cbn [Js.trimEnd]. rewrite IH. now destruct l.
Qed.

Lemma trim_stringify_sizes (l : list SizeStock) :
  Js.trim (stringify_sizes l) = stringify_sizes l /\
  Js.nonempty (stringify_sizes l) = true.
Proof.
  unfold stringify_sizes, Js.JSON_stringify. cbn [Js.stringify].
  split; [| reflexivity]. unfold Js.trim.
  change (Js.trimStart (Js.text ("["%char :: ?r))) with (Js.text ("["%char :: r)).
  rewrite app_comm_cons. now apply trimEnd_last.
Qed.

(** [parseInt] reads the leading digits and ignores what follows them. *)
Lemma parseInt_leading_digits (ds rest : list ascii) :
  ds <> [] ->
  Forall (fun c => Js.is_digit c = true) ds ->
  starts_without_digit rest ->
  Js.parseInt (Js.text (ds ++ rest)) = Js.number_value false (Js.value_of_digits ds) 0.
Proof.
  intros Hne Hds Hrest. unfold Js.parseInt. rewrite chars_text.
  destruct ds as [|c ds]; [congruence |].
  pose proof (Forall_inv Hds) as Hc.
  change ((c :: ds) ++ rest) with (c :: (ds ++ rest)).
  cbn [Js.skip_spaces]. rewrite (digit_not_space c Hc).
  rewrite (digit_no_sign c _ Hc).
  change (c :: (ds ++ rest)) with ((c :: ds) ++ rest).
  now rewrite (span_digits_app _ _ Hds Hrest).
Qed.

(** [parseInt] gives [NaN] exactly when no digit follows the leading white
    space and the optional sign. *)
Lemma parseInt_NaN (s : string) :
  Js.parseInt s = Js.NaN <->
  starts_without_digit (Js.take_sign (Js.skip_spaces (Js.chars s))).2.
Proof.
  unfold Js.parseInt.
  destruct (Js.take_sign _) as [neg l]. simpl.
  destruct l as [|c r]; simpl; [tauto |].
  destruct (Js.is_digit c); [| tauto].
  destruct (Js.span_digits r). split; [| discriminate].
  intros Hnan. pose proof (isNaN_number_value neg (Js.value_of_digits (c :: l)) 0) as Hn.
  rewrite Hnan in Hn. discriminate.
Qed.

(** [new Map(entries).get(k)] is the value of the last entry with key
    [k]. *)
Lemma Map_of_lookup_acc {V : Type} (entries : list (string * V)) (m : gmap string V)
    (k : string) :
  fold_left (fun m kv => <[kv.1 := kv.2]> m) entries m !! k =
    match Map_of entries !! k with
    | Some v => Some v
    | None => m !! k
    end.
Proof.
  unfold Map_of. revert m.
  induction entries as [|[k' v'] l IH]; intros m; simpl.
  - now rewrite lookup_empty.
  - rewrite IH. rewrite (IH (<[k':=v']> ∅)).
    destruct (fold_left _ l ∅ !! k); [reflexivity |].
    destruct (decide (k' = k)) as [->|Hne].
    + now rewrite !lookup_insert_eq.
    + now rewrite !lookup_insert_ne, lookup_empty.
Qed.

Lemma Map_of_lookup_Some {V : Type} (entries : list (string * V)) (k : string) (v : V) :
  Map_of entries !! k = Some v -> (k, v) ∈ entries.
Proof.
  induction entries as [|[k' v'] l IH].
  - unfold Map_of. simpl. now rewrite lookup_empty.
  - unfold Map_of. simpl. rewrite Map_of_lookup_acc.
    destruct (Map_of l !! k) eqn:Hl.
    + intros [= ->]. right. now apply IH.
    + destruct (decide (k' = k)) as [->|Hne].
      * rewrite lookup_insert_eq. intros [= ->]. left.
      * rewrite lookup_insert_ne, lookup_empty by done. discriminate.
Qed.

Lemma Map_of_lookup_None {V : Type} (entries : list (string * V)) (k : string) :
  Map_of entries !! k = None <-> forall v, (k, v) ∉ entries.
Proof.
  induction entries as [|[k' v'] l IH].
  - unfold Map_of. simpl. rewrite lookup_empty. split; [| reflexivity].
    intros _ v Hin. inversion Hin.
  - unfold Map_of. simpl. rewrite Map_of_lookup_acc.
    destruct (Map_of l !! k) eqn:Hl.
    + split; [discriminate |]. intros Hno. exfalso.
      apply (Hno v). right. now apply Map_of_lookup_Some.
    + destruct (decide (k' = k)) as [->|Hne].
      * rewrite lookup_insert_eq. split; [discriminate |].
        intros Hno. exfalso. apply (Hno v'). left.
      * rewrite lookup_insert_ne, lookup_empty by done.
        split; [| reflexivity]. intros _ v Hin.
        apply elem_of_cons in Hin as [[= ? ?] | Hin]; [congruence |].
        destruct IH as [IH _]. now apply (IH eq_refl v).
Qed.

(** The code lookup of line 391 is an exact match up to case against the
    snapshot the index was built from. *)
Lemma productCodeMap_Some (cs : list Category) (ms : list Manufacturer)
    (ps : list Product) (c : string) (p : Product) :
  productCodeMap (build_index cs ms ps) !! Js.toLowerCase c = Some p ->
  p ∈ ps /\ Js.toLowerCase (code p) = Js.toLowerCase c.
Proof.
  simpl. intros Hl. apply Map_of_lookup_Some in Hl.
  apply list_elem_of_fmap in Hl as (q & [= Hk ->] & Hq). now split.
Qed.

Lemma productCodeMap_None (cs : list Category) (ms : list Manufacturer)
    (ps : list Product) (c : string) :
  productCodeMap (build_index cs ms ps) !! Js.toLowerCase c = None <->
  forall p, p ∈ ps -> Js.toLowerCase (code p) <> Js.toLowerCase c.
Proof.
  simpl. rewrite Map_of_lookup_None. split.
  - intros Hno p Hp Heq. apply (Hno p).
    apply list_elem_of_fmap. exists p. now rewrite Heq.
  - intros Hno v Hin.
    apply list_elem_of_fmap in Hin as (q & [= Hk ->] & Hq).
    now apply (Hno q).
Qed.

(** *** The positional loop *)

Lemma nonempty_true (s : string) : Js.nonempty s = true <-> s <> "".
Proof. destruct s; simpl; split; congruence. Qed.

Lemma zip_sizes_good (rowIndex : nat) (names : list string) :
  forall (stocks : list Js.number) (raw : list string) (acc : list SizeStock) (j : nat),
  length names = length stocks ->
  Forall good_pair (zip names stocks) ->
  zip_sizes rowIndex j names stocks raw acc = inr (acc ++ pair_up names stocks).
Proof.
  induction names as [|n names IH]; intros stocks raw acc j Hlen Hgood.
  - simpl. now rewrite app_nil_r.
  - destruct stocks as [|x stocks]; [discriminate |].
    apply Forall_cons in Hgood as [(Hn & Hnan & Hneg) Hgood].
    simpl in Hn, Hnan, Hneg. apply nonempty_true in Hn.
    cbn [zip_sizes]. rewrite Hn, Hnan, Hneg. cbn [negb].
    rewrite IH by (simpl in Hlen; auto with lia).
    unfold pair_up. simpl. now rewrite <- app_assoc.
Qed.

Lemma zip_sizes_bad (rowIndex : nat) (names : list string) :
  forall (stocks : list Js.number) (raw : list string) (acc : list SizeStock) (j : nat),
  Exists bad_pair (zip names stocks) ->
  exists reason, zip_sizes rowIndex j names stocks raw acc = inl reason.
Proof.
  induction names as [|n names IH]; intros stocks raw acc j Hbad.
  - inversion Hbad.
  - destruct stocks as [|x stocks]; [inversion Hbad |].
    cbn [zip_sizes].
    destruct (Js.nonempty n) eqn:Hn; cbn [negb]; [| eauto].
    destruct (Js.isNaN x) eqn:Hnan; [eauto |].
    destruct (Js.lt0 x) eqn:Hneg; [eauto |].
    apply Exists_cons in Hbad as [[Hb | [Hb | Hb]] | Hbad].
    + simpl in Hb. apply nonempty_true in Hn. congruence.
    + simpl in Hb. congruence.
    + simpl in Hb. congruence.
    + now apply IH.
Qed.

Lemma parseInt_truncates (tok : string) (v : N) :
  truncates_to tok v -> Js.parseInt (Js.trim tok) = Js.number_value false v 0.
Proof.
  intros (ds & rest & -> & Hne & Hds & Hrest & ->).
  now apply parseInt_leading_digits.
Qed.

Lemma map_parseInt_truncates (toks : list string) (values : list N) :
  Forall2 truncates_to toks values ->
  map (fun s => Js.parseInt (Js.trim s)) toks
  = map (fun v => Js.number_value false v 0) values.
Proof.
  induction 1 as [|tok v toks vs Htok _ IH]; [reflexivity |].
  cbn [map]. now rewrite (parseInt_truncates tok v Htok), IH.
Qed.

(** A row that the size/stock stage refuses is rejected, by that stage or
    by an earlier one. *)
Lemma parse_row_sizes_rejected (ix : CatalogIndex) (rowIndex : nat)
    (row : gmap string cell) (reason : string) :
  resolve_sizes rowIndex row = SizesRejected reason ->
  exists r, parse_row ix rowIndex row = Rejected r.
Proof.
  intros Hs. unfold parse_row.
  destruct (required_missing row); [eauto |].
  destruct (truthy_id (categoryMap ix !! _)); [| eauto].
  destruct (truthy_id (manufacturerMap ix !! _)); [| eauto].
  destruct (Js.isNaN _ || Js.le0 _); [eauto |].
  rewrite Hs. eauto.
Qed.

Section Properties.

Context {W : Type} `{Remote W}.

(** A rejected row leaves one reason and nothing else: no mutation call,
    no count, the world untouched. *)
Lemma process_row_rejected (ix : CatalogIndex) (i : nat) (row : gmap string cell)
    (st : pass W) (reason : string) :
  parse_row ix (i + 2) row = Rejected reason ->
  process_row ix i row st =
    {| importedCount := importedCount st; updatedCount := updatedCount st;
       errors := errors st ++ [reason]; calls := calls st; world := world st |}.
Proof. intros Hp. unfold process_row. now rewrite Hp. Qed.

(** A validated row makes exactly one mutation call. *)
Lemma process_row_parsed (ix : CatalogIndex) (i : nat) (row : gmap string cell)
    (st : pass W) (warning : option string) (d : ProductFormData) :
  parse_row ix (i + 2) row = Parsed warning d ->
  calls (process_row ix i row st) = calls st ++ [mutation_for ix d].
Proof.
  intros Hp. unfold process_row. rewrite Hp.
  now destruct (perform _ _) as [w' [[]|e]].
Qed.

(** *** The required-field gate *)

Lemma negb_truthy_true (c : cell) : negb (truthy c) = true <-> truthy c = false.
Proof. destruct (truthy c); simpl; intuition congruence. Qed.

(** C3 (amended).  The gate of line 294 rejects a row exactly when Title,
    Code, Category, Manufacturer or Image URL is falsy (absent, null, the
    empty string, zero, NaN or false) or Price is absent or null.  A row it
    rejects leaves exactly one reason, the one that names the six required
    columns; nothing else of the row is validated, no mutation call is made,
    no count moves and the world is untouched. *)
Theorem required_field_gate (ix : CatalogIndex) (i : nat) (row : gmap string cell)
    (st : pass W) :
  (required_missing row = true <->
     truthy (field row "Title") = false \/
     truthy (field row "Code") = false \/
     nullish (field row "Price") \/
     truthy (field row "Category") = false \/
     truthy (field row "Manufacturer") = false \/
     truthy (field row "Image URL") = false) /\
  (required_missing row = true ->
     process_row ix i row st =
       {| importedCount := importedCount st; updatedCount := updatedCount st;
          errors := errors st ++ [missing_required_reason (i + 2)];
          calls := calls st; world := world st |}).
Proof.
  split.
  - unfold required_missing, nullish.
    rewrite !orb_true_iff, !negb_truthy_true.
    destruct (field row "Price"); intuition congruence.
  - intros Hm. apply process_row_rejected.
    unfold parse_row. now rewrite Hm.
Qed.

(** *** Visibility *)

(** C5 (amended).  The record of a validated row has [isVisible = true]
    exactly when the "Is Visible" cell is falsy (absent, null, empty, zero,
    NaN or false) or its text is "yes" or "true" up to case; any other
    value, "no" for one, gives [false]. *)
Theorem isVisible_of_row (ix : CatalogIndex) (rowIndex : nat) (row : gmap string cell)
    (warning : option string) (d : ProductFormData) :
  parse_row ix rowIndex row = Parsed warning d ->
  pd_isVisible d = true <->
    truthy (field row "Is Visible") = false \/
    Js.toLowerCase (String_ (field row "Is Visible")) = "yes" \/
    Js.toLowerCase (String_ (field row "Is Visible")) = "true".
Proof.
  intros Hp. apply parse_row_Parsed in Hp as (_ & cid & mid & s & _ & _ & _ & _ & _ & ->).
  simpl. unfold parse_isVisible.
  destruct (truthy (field row "Is Visible")).
  - rewrite orb_true_iff, !bool_decide_eq_true. intuition congruence.
  - intuition.
Qed.

(** *** Category and manufacturer resolution *)

(** C6 (amended).  For a row past the required-field gate: when the
    category does not resolve, the row leaves exactly one reason, which
    names the category value, and nothing after it is checked; when the
    category resolves and the manufacturer does not, the row leaves exactly
    one reason, which names the manufacturer value.  Either way no
    mutation call is made. *)
Theorem unresolved_reference_stops_row (ix : CatalogIndex) (i : nat)
    (row : gmap string cell) (st : pass W) :
  required_missing row = false ->
  let category := field row "Category" in
  let manufacturer := field row "Manufacturer" in
  let rejected_with reason :=
    process_row ix i row st =
      {| importedCount := importedCount st; updatedCount := updatedCount st;
         errors := errors st ++ [reason]; calls := calls st; world := world st |} in
  (truthy_id (categoryMap ix !! Js.toLowerCase (String_ category)) = None ->
     Js.contains (not_found_reason (i + 2) "Category" category) (String_ category) /\
     rejected_with (not_found_reason (i + 2) "Category" category)) /\
  (truthy_id (categoryMap ix !! Js.toLowerCase (String_ category)) <> None ->
   truthy_id (manufacturerMap ix !! Js.toLowerCase (String_ manufacturer)) = None ->
     Js.contains (not_found_reason (i + 2) "Manufacturer" manufacturer)
                 (String_ manufacturer) /\
     rejected_with (not_found_reason (i + 2) "Manufacturer" manufacturer)).
Proof.
  intros Hreq category manufacturer rejected_with. subst rejected_with. split.
  - intros Hc. split.
    + unfold not_found_reason. auto 10 with contains.
    + apply process_row_rejected. unfold parse_row.
      fold category. now rewrite Hreq, Hc.
  - intros Hc Hm. split.
    + unfold not_found_reason. auto 10 with contains.
    + apply process_row_rejected. unfold parse_row.
      fold category manufacturer. rewrite Hreq.
      destruct (truthy_id (categoryMap ix !! _)); [| congruence].
      now rewrite Hm.
Qed.

(** *** Reconciliation *)


(** *** Rows without size data *)

Lemma check_total_warns (rowIndex : nat) (row : gmap string cell) :
  valid_total (field row "TotalStock") = false ->
  valid_total (field row "Stock") = false ->
  check_total rowIndex row = SizesResolved (Some (no_sizes_warning rowIndex)) "[]".
Proof.
  unfold check_total, totalStockFromRow, valid_total. intros Ht Hs.
  destruct (field row "TotalStock"); try (now rewrite Ht);
    destruct (field row "Stock"); try (now rewrite Hs); reflexivity.
Qed.

(** C9.  An otherwise valid row with no structured payload, without both
    of "Sizes" and "Stocks", and with no valid non-negative "TotalStock" or
    "Stock", is not rejected: it gets the warning and the empty size list
    "[]", and its insert or update is called all the same; when that call
    resolves the row is counted as inserted or updated. *)
Theorem no_size_data_fallback (ix : CatalogIndex) (i : nat) (row : gmap string cell)
    (st : pass W) :
  fields_ok ix row ->
  trimmed row "SizesStockJSON" = "" ->
  trimmed row "Sizes" = "" \/ trimmed row "Stocks" = "" ->
  valid_total (field row "TotalStock") = false ->
  valid_total (field row "Stock") = false ->
  let st' := process_row ix i row st in
  exists d,
    parse_row ix (i + 2) row = Parsed (Some (no_sizes_warning (i + 2))) d /\
    pd_sizes d = "[]" /\
    calls st' = calls st ++ [mutation_for ix d] /\
    match perform (mutation_for ix d) (world st) with
    | (_, Js.Ok _) =>
        errors st' = errors st ++ [no_sizes_warning (i + 2)] /\
        importedCount st' + updatedCount st' = S (importedCount st + updatedCount st)
    | (_, Js.Throw e) =>
        errors st' = errors st ++ [no_sizes_warning (i + 2)]
                       ++ [service_error_reason (i + 2) d e]
    end.
Proof.
  intros Hok Hj Hpair Ht Hs st'.
  assert (Hres : resolve_sizes (i + 2) row =
                 SizesResolved (Some (no_sizes_warning (i + 2))) "[]").
  { unfold resolve_sizes. rewrite Hj. simpl.
    replace (Js.nonempty (trimmed row "Sizes") && Js.nonempty (trimmed row "Stocks"))
      with false by (destruct Hpair as [-> | ->]; simpl; now rewrite ?andb_false_r).
    now apply check_total_warns. }
  pose proof (parse_row_sizes ix (i + 2) row Hok) as Hp. rewrite Hres in Hp.
  destruct Hp as (d & Hp & Hsz & _). exists d.
  split; [assumption |]. split; [assumption |].
  split; [now apply process_row_parsed with (warning := Some (no_sizes_warning (i + 2))) |].
  subst st'. unfold process_row. rewrite Hp.
  destruct (perform _ _) as [w' [[]|e]]; simpl.
  - split; [reflexivity |]. destruct (mutation_for ix d); lia.
  - now rewrite <- app_assoc.
Qed.

(** *** Parallel "Sizes" and "Stocks" columns *)

(** The parallel strategy refuses a row whose lists differ in length or
    hold a refused position. *)
Lemma parallel_rejected (ix : CatalogIndex) (i : nat) (row : gmap string cell)
    (st : pass W) :
  trimmed row "SizesStockJSON" = "" ->
  trimmed row "Sizes" <> "" ->
  trimmed row "Stocks" <> "" ->
  let names := map Js.trim (Js.split "," (trimmed row "Sizes")) in
  let stocks :=
    map (fun s => Js.parseInt (Js.trim s)) (Js.split "," (trimmed row "Stocks")) in
  length names <> length stocks \/ Exists bad_pair (zip names stocks) ->
  exists reason,
    process_row ix i row st =
      {| importedCount := importedCount st; updatedCount := updatedCount st;
         errors := errors st ++ [reason]; calls := calls st; world := world st |}.
Proof.
  intros Hj Hs Hk names stocks Hbad.
  apply nonempty_true in Hs, Hk.
  assert (Hres : resolve_sizes (i + 2) row =
                 check_parallel (i + 2) (trimmed row "Sizes") (trimmed row "Stocks")).
  { unfold resolve_sizes. now rewrite Hj, Hs, Hk. }
  unfold check_parallel in Hres. fold names stocks in Hres.
  assert (Hrej : exists reason, resolve_sizes (i + 2) row = SizesRejected reason).
  { destruct (Nat.eqb_spec (length names) (length stocks)) as [Hlen | Hlen];
      cbn [negb] in Hres; [| eauto].
    destruct Hbad as [Hne | Hbad]; [congruence |].
    destruct (zip_sizes_bad (i + 2) names stocks
                (Js.split "," (trimmed row "Stocks")) [] 0 Hbad) as [reason Hz].
    rewrite Hz in Hres. eauto. }
  destruct Hrej as [reason Hrej].
  destruct (parse_row_sizes_rejected ix (i + 2) row reason Hrej) as [r Hr].
  exists r. now apply process_row_rejected.
Qed.

(** C8 (amended).  For a row without structured payload whose "Sizes" and
    "Stocks" cells are both truthy with a text that is not blank: the two
    texts are split on commas and trimmed, the stock tokens read by
    [parseInt], and the lists zipped.  If the lists differ in length, or a
    position has an empty size name or a stock that is [NaN] or negative,
    the row is rejected: it leaves exactly one reason and makes no
    mutation call.  When the fields before this stage are in order, lists
    of different lengths leave the mismatch reason, and a row without a
    refused position is validated with the zipped list as its sizes.  A
    row one of whose two cells is falsy or blank, the number 0 for one,
    does not come under this strategy. *)
Theorem parallel_columns (ix : CatalogIndex) (i : nat) (row : gmap string cell)
    (st : pass W) :
  trimmed row "SizesStockJSON" = "" ->
  trimmed row "Sizes" <> "" ->
  trimmed row "Stocks" <> "" ->
  let names := map Js.trim (Js.split "," (trimmed row "Sizes")) in
  let stocks :=
    map (fun s => Js.parseInt (Js.trim s)) (Js.split "," (trimmed row "Stocks")) in
  let st' := process_row ix i row st in
  let rejected_with reason :=
    st' = {| importedCount := importedCount st; updatedCount := updatedCount st;
             errors := errors st ++ [reason]; calls := calls st; world := world st |} in
  (length names <> length stocks \/ Exists bad_pair (zip names stocks) ->
     exists reason, rejected_with reason) /\
  (fields_ok ix row -> length names <> length stocks ->
     rejected_with (mismatch_reason (i + 2) (length names) (length stocks))) /\
  (fields_ok ix row -> length names = length stocks ->
   Forall good_pair (zip names stocks) ->
     exists d, parse_row ix (i + 2) row = Parsed None d /\
               pd_sizes d = stringify_sizes (pair_up names stocks) /\
               calls st' = calls st ++ [mutation_for ix d]) /\
  (forall row', trimmed row' "Sizes" = "" \/ trimmed row' "Stocks" = "" ->
     trimmed row' "SizesStockJSON" = "" ->
     resolve_sizes (i + 2) row' = check_total (i + 2) row').
Proof.
  intros Hj Hs Hk names stocks st' rejected_with.
  pose proof (parallel_rejected ix i row st Hj Hs Hk) as Hrejected.
  apply nonempty_true in Hs, Hk.
  assert (Hres : resolve_sizes (i + 2) row =
                 check_parallel (i + 2) (trimmed row "Sizes") (trimmed row "Stocks")).
  { unfold resolve_sizes. now rewrite Hj, Hs, Hk. }
  unfold check_parallel in Hres. fold names stocks in Hres.
  subst rejected_with st'. cbv beta. split; [| split; [| split]].
  - exact Hrejected.
  - intros Hok Hlen. pose proof (parse_row_sizes ix (i + 2) row Hok) as Hp.
    rewrite Hres in Hp.
    apply Nat.eqb_neq in Hlen. rewrite Hlen in Hp. cbn [negb] in Hp.
    now apply process_row_rejected.
  - intros Hok Hlen Hgood. pose proof (parse_row_sizes ix (i + 2) row Hok) as Hp.
    rewrite Hres in Hp.
    rewrite (zip_sizes_good (i + 2) names stocks _ [] 0 Hlen Hgood) in Hp.
    apply Nat.eqb_eq in Hlen. rewrite Hlen in Hp. cbn [negb app] in Hp.
    destruct Hp as (d & Hp & Hsz & _). exists d.
    split; [assumption |]. split; [assumption |].
    now apply process_row_parsed with (warning := None).
  - intros row' Hblank Hj'. unfold resolve_sizes. rewrite Hj'. cbn [Js.nonempty].
    now destruct Hblank as [-> | ->]; cbn [Js.nonempty andb]; rewrite ?andb_false_r.
Qed.

(** *** The structured payload *)

(** C7 (amended).  For an otherwise valid row whose trimmed
    "SizesStockJSON" text is not empty, the row passes this stage exactly
    when the text parses as a JSON array each element of which is an object
    with a string "size", empty or not, and a number "stock" that is not
    negative, integer or not.  Otherwise the row leaves exactly one reason,
    which quotes the text and, when parsing threw, the text of the error,
    and no mutation call is made. *)
Theorem structured_payload (ix : CatalogIndex) (i : nat) (row : gmap string cell)
    (st : pass W) :
  fields_ok ix row ->
  trimmed row "SizesStockJSON" <> "" ->
  let sizesString := trimmed row "SizesStockJSON" in
  let st' := process_row ix i row st in
  (payload_ok sizesString ->
     exists d, parse_row ix (i + 2) row = Parsed None d /\
               pd_sizes d = sizesString /\
               calls st' = calls st ++ [mutation_for ix d]) /\
  (~ payload_ok sizesString ->
     exists reason,
       st' = {| importedCount := importedCount st; updatedCount := updatedCount st;
                errors := errors st ++ [reason]; calls := calls st;
                world := world st |} /\
       Js.contains reason sizesString /\
       forall e, Js.JSON_parse sizesString = Js.Throw e ->
                 Js.contains reason (Js.error_text e)).
Proof.
  intros Hok Hne sizesString st'. apply nonempty_true in Hne.
  assert (Hres : resolve_sizes (i + 2) row = check_payload (i + 2) sizesString).
  { unfold resolve_sizes. now rewrite Hne. }
  pose proof (parse_row_sizes ix (i + 2) row Hok) as Hp. rewrite Hres in Hp.
  destruct (check_payload_cases (i + 2) sizesString)
    as [[Hyes Hc] | [Hno (reason & Hc & Hquote & Herr)]]; rewrite Hc in Hp.
  - split; [| tauto]. intros _.
    destruct Hp as (d & Hp & Hsz & _). exists d.
    split; [assumption |]. split; [assumption |].
    now apply process_row_parsed with (warning := None).
  - split; [tauto |]. intros _. exists reason.
    split; [now apply process_row_rejected |]. now split.
Qed.

End Properties.

Section Reports.

Context {W : Type} `{Remote W}.
Variable t : string -> list (string * string) -> string.

(** *** The report *)

Lemma nonempty_append (a b : string) :
  Js.nonempty (a +:+ b) = Js.nonempty a || Js.nonempty b.
Proof. destruct a; reflexivity. Qed.

Lemma nonempty_append_r (a b : string) :
  Js.nonempty b = true -> Js.nonempty (a +:+ b) = true.
Proof. intros Hb. rewrite nonempty_append, Hb. apply orb_true_r. Qed.

Lemma summaryMessage_nonempty (st : pass W) :
  0 < importedCount st + updatedCount st ->
  Js.nonempty (summaryMessage st) = true.
Proof.
  intros Hpos. unfold summaryMessage.
  destruct (importedCount st) as [|n] eqn:Hi.
  - destruct (updatedCount st) as [|m] eqn:Hu; [simpl in Hpos; lia |].
    change (0 <? S m)%nat with true. cbv iota.
    now repeat apply nonempty_append_r.
  - change (0 <? S n)%nat with true. cbv iota.
    rewrite nonempty_append. apply orb_true_iff. left.
    now apply nonempty_append_r.
Qed.

Lemma contains_join (sep e : string) (l : list string) :
  e ∈ l -> Js.contains (Js.join sep l) e.
Proof.
  induction l as [|x l IH]; intros Hin; [inversion Hin |].
  apply elem_of_cons in Hin as [-> | Hin].
  - destruct l; simpl.
    + exists "", "". now rewrite append_nil_r.
    + now exists "", (sep +:+ Js.join sep (s :: l)).
  - destruct l as [|y l]; [inversion Hin |].
    change (Js.join sep (x :: y :: l)) with (x +:+ sep +:+ Js.join sep (y :: l)).
    auto with contains.
Qed.

(** C4 (amended).  A worksheet without data rows sets the empty-file
    error; the catalog is not read, no row is processed and no insert or
    update is called, and the refresh of the product list that ends every
    import still runs.  After the loop, a pass with no entry in [errors]
    and at least one insert or update is reported as a success with its
    counts; a pass with any entry in [errors], rejections and warnings
    alike, is reported through the error message "Import completed with
    errors", which carries the counts and every entry, whether or not some
    rows were inserted or updated. *)
Theorem report_policy (pg : page) (w : W) (st : pass W) :
  import_pass t [] pg w = (setActionError (empty_file_message t) pg, w, None) /\
  handleFileImport t [] pg w
    = loadProducts t (setActionError (empty_file_message t) (clearMessages pg)) w /\
  (errors st = [] -> 0 < importedCount st + updatedCount st ->
     report st pg = setSuccessMessage ("Import successful! " +:+ summaryMessage st) pg) /\
  (errors st <> [] ->
     report st pg = setActionError (completed_with_errors st) pg /\
     Js.contains (completed_with_errors st) (summaryMessage st) /\
     Forall (Js.contains (completed_with_errors st)) (errors st)).
Proof.
  split; [reflexivity |]. split; [reflexivity |]. split.
  - intros He Hpos. unfold report. rewrite He.
    now rewrite summaryMessage_nonempty.
  - intros He. unfold report.
    destruct (errors st) as [|e l] eqn:Hl; [congruence |].
    split; [reflexivity |]. split.
    + unfold completed_with_errors. auto with contains.
    + apply Forall_forall. intros x Hx. unfold completed_with_errors.
      rewrite Hl. do 4 apply contains_append_l. now apply contains_join.
Qed.

(** The refresh of the [finally] block leaves the messages of the pass
    alone when it succeeds. *)
Lemma handleFileImport_messages (jsonData : list (gmap string cell)) (pg : page)
    (w : W) :
  forall pg1 w1 st,
  import_pass t jsonData (clearMessages pg) w = (pg1, w1, st) ->
  (exists w2 ps, get_products_admin w1 = (w2, Js.Ok ps)) ->
  actionError (fst (handleFileImport t jsonData pg w)) = actionError pg1 /\
  successMessage (fst (handleFileImport t jsonData pg w)) = successMessage pg1.
Proof.
  intros pg1 w1 st Hpass (w2 & ps & Hget).
  unfold handleFileImport. rewrite Hpass.
  unfold loadProducts. rewrite Hget. now split.
Qed.

(** *** Export, then import *)

Lemma export_row_fields (p : Product) :
  let row := export_row t p in
  field row "Title" = CStr (title p) /\
  field row "Code" = CStr (code p) /\
  field row "Price" = CNum (price p) /\
  field row "Category" = CStr (exported_category p) /\
  field row "Manufacturer" = CStr (exported_manufacturer p) /\
  field row "Image URL" = CStr (image p) /\
  field row "SizesStockJSON" = CStr (stringify_sizes (sizes p)).
Proof. repeat split; reflexivity. Qed.

Lemma parse_row_export (ix : CatalogIndex) (rowIndex : nat) (p : Product) :
  reimportable ix p ->
  exists d, parse_row ix rowIndex (export_row t p) = Parsed None d /\
            pd_code d = code p.
Proof.
  intros [Ht Hc Hi [Hnan Hle] Hct Hcat Hmt Hman Hsz].
  destruct (export_row_fields p) as (Ft & Fc & Fp & Fcat & Fman & Fi & Fs).
  apply nonempty_true in Ht, Hc, Hi, Hct, Hmt.
  assert (Hok : fields_ok ix (export_row t p)).
  { unfold fields_ok, required_missing.
    rewrite Ft, Fc, Fp, Fcat, Fman, Fi. cbn [truthy String_].
    rewrite Ht, Hc, Hi, Hct, Hmt.
    destruct (parseFloat_toString (price p) Hnan Hle) as [Hn' Hl'].
    split; [reflexivity |].
    split; [destruct (truthy_id (categoryMap ix !! _)); [eauto | congruence] |].
    split; [destruct (truthy_id (manufacturerMap ix !! _)); [eauto | congruence] |].
    now split. }
  pose proof (parse_row_sizes ix rowIndex (export_row t p) Hok) as Hp.
  destruct (trim_stringify_sizes (sizes p)) as [Htrim Hne].
  assert (Hres : resolve_sizes rowIndex (export_row t p)
                 = SizesResolved None (stringify_sizes (sizes p))).
  { unfold resolve_sizes, trimmed. rewrite Fs. cbn [truthy String_].
    rewrite Hne, Htrim, Hne.
    destruct (check_payload_cases rowIndex (stringify_sizes (sizes p)))
      as [[_ Hc'] | [Hno _]]; [assumption |].
    exfalso. now apply Hno, sizes_roundtrip. }
  rewrite Hres in Hp. destruct Hp as (d & Hp & _ & Hcode).
  exists d. split; [assumption |]. now rewrite Hcode, Fc.
Qed.

Lemma import_rows_export (cs : list Category) (ms : list Manufacturer)
    (ps : list Product) :
  let ix := build_index cs ms ps in
  Forall (fun p => id p <> "") ps ->
  (forall d w, exists w', put_product d w = (w', Js.Ok tt)) ->
  forall (l : list Product) (i : nat) (st : pass W),
  l ⊆ ps -> Forall (reimportable ix) l -> errors st = [] ->
  let st' := import_rows ix i (map (export_row t) l) st in
  updatedCount st' = updatedCount st + length l /\
  importedCount st' = importedCount st /\
  errors st' = [] /\
  exists new_calls, calls st' = calls st ++ new_calls /\
                    Forall is_update new_calls /\ length new_calls = length l.
Proof.
  intros ix Hids Hput l. induction l as [|p l IH]; intros i st Hsub Hall Herr st'.
  - subst st'. simpl. repeat split; [lia | assumption |].
    exists []. now rewrite app_nil_r.
  - apply Forall_cons in Hall as [Hp Hall].
    assert (Hin : p ∈ ps) by (apply Hsub; left).
    assert (Hsub' : l ⊆ ps) by (intros q Hq; apply Hsub; now right).
    destruct (parse_row_export ix (i + 2) p Hp) as (d & Hparse & Hcode).
    destruct (productCodeMap ix !! Js.toLowerCase (pd_code d)) as [p'|] eqn:Hlook.
    2:{ exfalso. subst ix.
        apply (proj1 (productCodeMap_None cs ms ps (pd_code d)) Hlook p Hin).
        now rewrite Hcode. }
    assert (Hid : Js.nonempty (id p') = true).
    { apply nonempty_true. subst ix.
      destruct (productCodeMap_Some cs ms ps (pd_code d) p' Hlook) as [Hin' _].
      now apply (proj1 (Forall_forall _ _) Hids). }
    destruct (Hput (with_id d (id p')) (world st)) as [w' Hw'].
    assert (Hstep : process_row ix i (export_row t p) st =
              {| importedCount := importedCount st;
                 updatedCount := S (updatedCount st);
                 errors := []; calls := calls st ++ [UpdateProduct (with_id d (id p'))];
                 world := w' |}).
    { unfold process_row. rewrite Hparse. unfold mutation_for. rewrite Hlook.
      cbn [perform]. unfold updateProductAdmin. cbn [with_id pd_id truthy_id].
      rewrite Hid, Hw'. cbn [push]. now rewrite Herr. }
    subst st'. cbn [map import_rows]. rewrite Hstep.
    match goal with
    | |- context [import_rows ix (S i) _ ?s] =>
        destruct (IH (S i) s Hsub' Hall eq_refl)
          as (Hu & Him & He & new_calls & Hcalls & Hupd & Hlen)
    end.
    cbn [updatedCount importedCount errors calls] in *.
    repeat split; [simpl; lia | assumption | assumption |].
    exists (UpdateProduct (with_id d (id p')) :: new_calls).
    rewrite Hcalls, <- app_assoc. repeat split; [now constructor | simpl; lia].
Qed.

(** C1 (amended).  Let a non-empty product list be exported and the
    worksheet imported on the same page.  If every product is
    [reimportable] for the index of the pass, every product id is not
    empty and every update call resolves, then the pass ends with as many
    updates as there are products, no insert and no entry in [errors]; every
    mutation call is an update, and the page shows the success message with
    that count. *)
Theorem export_import_round_trip (pg pg' : page) (w w1 w2 : W)
    (cs : list Category) (ms : list Manufacturer)
    (rows : list (gmap string cell)) :
  handleExportProducts t (products pg) pg = (pg', Some rows) ->
  cached_or (categories pg) get_categories w = (w1, Js.Ok cs) ->
  cached_or (manufacturers pg) get_manufacturers w1 = (w2, Js.Ok ms) ->
  Forall (reimportable (build_index cs ms (products pg))) (products pg) ->
  Forall (fun p => id p <> "") (products pg) ->
  (forall d w0, exists w', put_product d w0 = (w', Js.Ok tt)) ->
  exists pg'' w' st,
    import_pass t rows (clearMessages pg') w = (pg'', w', Some st) /\
    updatedCount st = length (products pg) /\
    importedCount st = 0 /\
    errors st = [] /\
    Forall is_update (calls st) /\
    length (calls st) = length (products pg) /\
    actionError pg'' = None /\
    successMessage pg'' =
      Some ("Import successful! " +:+ Js.string_of_nat (length (products pg))
            +:+ " products updated. ").
Proof.
  intros Hexp Hcs Hms Hall Hids Hput.
  unfold handleExportProducts in Hexp.
  destruct (products pg) as [|p ps] eqn:Hps; [discriminate |].
  injection Hexp as <- <-.
  destruct (import_rows_export cs ms (p :: ps) Hids Hput (p :: ps) 0 (start w2))
    as (Hu & Him & He & new_calls & Hcalls & Hupd & Hlen);
    [reflexivity | assumption | reflexivity |].
  cbn [start updatedCount importedCount calls] in Hu, Him, Hcalls.
  set (st := import_rows (build_index cs ms (p :: ps)) 0
               (map (export_row t) (p :: ps)) (start w2)) in *.
  exists (report st (setFilters cs ms
                       (clearMessages (setSuccessMessage
                          (t "common.success" [] +:+ "! "
                           +:+ t "adminPage.tabProducts" [] +:+ " exported.")
                          (clearMessages pg))))), (world st), st.
  split.
  - unfold import_pass. cbn [map].
    cbn [clearMessages setSuccessMessage categories manufacturers products].
    rewrite Hcs, Hms, Hps. reflexivity.
  - split; [exact Hu |]. split; [exact Him |]. split; [exact He |].
    split; [now rewrite Hcalls |]. split; [now rewrite Hcalls |].
    unfold report. rewrite He.
    assert (Hsum : summaryMessage st =
                   Js.string_of_nat (length (p :: ps)) +:+ " products updated. ").
    { unfold summaryMessage. rewrite Him, Hu. reflexivity. }
    rewrite Hsum, nonempty_append_r by reflexivity.
    split; reflexivity.
Qed.

End Reports.

(** *** Stock tokens read by [parseInt] *)

Lemma zip_NaN (f : string -> Js.number) (tok : string) (toks : list string) :
  forall names : list string,
  length names = length toks -> tok ∈ toks -> f tok = Js.NaN ->
  Exists bad_pair (zip names (map f toks)).
Proof.
  induction toks as [|t0 toks IH]; intros names Hlen Hin Hnan; [inversion Hin |].
  destruct names as [|n names]; [discriminate |].
  cbn [map zip zip_with]. apply elem_of_cons in Hin as [<- | Hin].
  - left. right. left. cbn [snd]. now rewrite Hnan.
  - right. apply IH; [simpl in Hlen; lia | assumption..].
Qed.

Section StockTokens.
Context {W : Type} `{Remote W}.

(** C10 (amended).  In the parallel strategy every stock token goes
    through [parseInt].  A token whose trimmed text is digits followed by
    a fraction or by other characters is not refused: it is read as the
    Number value of those digits, and a row of such tokens is validated
    and its insert or update called with those stocks.  [parseInt] gives
    [NaN] exactly when no digit follows the leading white space and the
    optional sign, and a row with such a token is rejected without a
    mutation call.  The Number value of a run of digits is the double
    nearest to it: 2 and 3 for "2.9" and "3x", 9007199254740992 for the
    digits 9007199254740993. *)
Theorem stock_tokens_truncated :
  (forall tok v, truncates_to tok v ->
     Js.parseInt (Js.trim tok) = Js.number_value false v 0) /\
  (forall s, Js.parseInt s = Js.NaN <->
     starts_without_digit (Js.take_sign (Js.skip_spaces (Js.chars s))).2) /\
  (forall ix i row values (st : pass W),
     fields_ok ix row ->
     trimmed row "SizesStockJSON" = "" ->
     trimmed row "Sizes" <> "" ->
     trimmed row "Stocks" <> "" ->
     let names := map Js.trim (Js.split "," (trimmed row "Sizes")) in
     Forall (fun n => n <> "") names ->
     Forall2 truncates_to (Js.split "," (trimmed row "Stocks")) values ->
     length names = length values ->
     exists d,
       parse_row ix (i + 2) row = Parsed None d /\
       pd_sizes d =
         stringify_sizes (pair_up names (map (fun v => Js.number_value false v 0) values)) /\
       calls (process_row ix i row st) = calls st ++ [mutation_for ix d]) /\
  (forall ix i row tok (st : pass W),
     trimmed row "SizesStockJSON" = "" ->
     trimmed row "Sizes" <> "" ->
     trimmed row "Stocks" <> "" ->
     tok ∈ Js.split "," (trimmed row "Stocks") ->
     Js.parseInt (Js.trim tok) = Js.NaN ->
     exists reason,
       process_row ix i row st =
         {| importedCount := importedCount st; updatedCount := updatedCount st;
            errors := errors st ++ [reason]; calls := calls st; world := world st |}) /\
  map (fun s => Js.parseInt (Js.trim s)) (Js.split "," "2.9,3x, 12abc,abc,,-")
  = [Js.Finite false 2 0; Js.Finite false 3 0; Js.Finite false 12 0;
     Js.NaN; Js.NaN; Js.NaN] /\
  map (fun v => Js.number_value false v 0) [2; 3; 9007199254740993]%N
  = [Js.Finite false 2 0; Js.Finite false 3 0; Js.Finite false 9007199254740992 0].
Proof.
  split; [exact parseInt_truncates |].
  split; [exact parseInt_NaN |].
  split; [| split; [| split; vm_compute; reflexivity]].
  - intros ix i row values st Hok Hj Hs Hk names Hnames Htoks Hlen.
    apply nonempty_true in Hs, Hk.
    assert (Hstocks : map (fun s => Js.parseInt (Js.trim s))
                        (Js.split "," (trimmed row "Stocks"))
                      = map (fun v => Js.number_value false v 0) values).
    { now apply map_parseInt_truncates. }
    pose proof (parse_row_sizes ix (i + 2) row Hok) as Hp.
    unfold resolve_sizes in Hp. rewrite Hj, Hs, Hk in Hp. cbn [Js.nonempty andb] in Hp.
    unfold check_parallel in Hp. fold names in Hp. rewrite Hstocks in Hp.
    rewrite length_map in Hp. rewrite (proj2 (Nat.eqb_eq _ _) Hlen) in Hp.
    cbn [negb] in Hp.
    rewrite zip_sizes_good in Hp.
    + destruct Hp as (d & Hp & Hsz & _). exists d.
      split; [assumption |]. split; [assumption |].
      now apply process_row_parsed with (warning := None).
    + now rewrite length_map.
    + clear Hp Hstocks Htoks. revert values Hlen.
      induction Hnames as [|n ns Hn _ IH]; intros [|v vs] Hlen; try constructor.
      * split; [exact Hn |]. cbn [snd].
        split; [apply isNaN_number_value | now rewrite lt0_number_value].
      * apply IH. simpl in Hlen. lia.
  - intros ix i row tok st Hj Hs Hk Hin Hnan.
    apply (parallel_rejected ix i row st Hj Hs Hk).
    destruct (Nat.eq_dec
                (length (map Js.trim (Js.split "," (trimmed row "Sizes"))))
                (length (map (fun s => Js.parseInt (Js.trim s))
                             (Js.split "," (trimmed row "Stocks")))))
      as [Hlen | Hlen]; [right | now left].
    apply zip_NaN with (tok := tok); [| assumption..].
    rewrite length_map. rewrite !length_map in Hlen. exact Hlen.
Qed.

End StockTokens.

(** ** Further properties of the import and the export *)

Lemma starts_with_append (pre rest : string) : starts_with pre (pre +:+ rest).
Proof. now exists rest. Qed.

Lemma zip_sizes_label (rowIndex : nat) (names : list string) :
  forall (stocks : list Js.number) (raw : list string) (acc : list SizeStock) (j : nat)
         (reason : string),
  zip_sizes rowIndex j names stocks raw acc = inl reason ->
  starts_with (row_label rowIndex) reason.
Proof.
  induction names as [|n names IH]; intros stocks raw acc j reason; cbn [zip_sizes].
  - discriminate.
  - destruct (negb (Js.nonempty n)); [intros [= <-]; apply starts_with_append |].
    destruct stocks as [|x stocks]; [intros [= <-]; apply starts_with_append |].
    destruct (Js.isNaN x); [intros [= <-]; apply starts_with_append |].
    destruct (Js.lt0 x); [intros [= <-]; apply starts_with_append |].
    apply IH.
Qed.

Lemma resolve_sizes_label (rowIndex : nat) (row : gmap string cell) :
  match resolve_sizes rowIndex row with
  | SizesRejected reason => starts_with (row_label rowIndex) reason
  | SizesResolved (Some w) _ => starts_with (row_label rowIndex) w
  | SizesResolved None _ => True
  end.
Proof.
  unfold resolve_sizes.
  destruct (Js.nonempty (trimmed row "SizesStockJSON")).
  - unfold check_payload.
    destruct (Js.JSON_parse _) as [[| | | |items|]|e];
      try apply starts_with_append.
    destruct (Js.every size_stock_ok items) as [[]|e];
      [exact I | apply starts_with_append | apply starts_with_append].
  - destruct (_ && _).
    + unfold check_parallel.
      destruct (negb _); [apply starts_with_append |].
      destruct (zip_sizes _ _ _ _ _ _) as [reason|l] eqn:Hz; [| exact I].
      now apply zip_sizes_label in Hz.
    + unfold check_total.
      destruct (totalStockFromRow row) as [x|]; [| apply starts_with_append].
      destruct (_ && _); [exact I | apply starts_with_append].
Qed.

Lemma parse_row_label (ix : CatalogIndex) (rowIndex : nat) (row : gmap string cell) :
  match parse_row ix rowIndex row with
  | Rejected reason => starts_with (row_label rowIndex) reason
  | Parsed (Some w) _ => starts_with (row_label rowIndex) w
  | Parsed None _ => True
  end.
Proof.
  unfold parse_row.
  destruct (required_missing row); [apply starts_with_append |].
  destruct (truthy_id (categoryMap ix !! _)); [| apply starts_with_append].
  destruct (truthy_id (manufacturerMap ix !! _)); [| apply starts_with_append].
  destruct (_ || _); [apply starts_with_append |].
  pose proof (resolve_sizes_label rowIndex row) as Hs.
  destruct (resolve_sizes rowIndex row) as [r|[w|] ss]; assumption.
Qed.

Section RowNumbers.
Context {W : Type} `{Remote W}.

Lemma process_row_label (ix : CatalogIndex) (i : nat) (row : gmap string cell)
    (st : pass W) :
  exists new, errors (process_row ix i row st) = errors st ++ new /\
              Forall (starts_with (row_label (i + 2))) new.
Proof.
  unfold process_row.
  pose proof (parse_row_label ix (i + 2) row) as Hl.
  destruct (parse_row ix (i + 2) row) as [reason|w d].
  - exists [reason]. split; [reflexivity | now repeat constructor].
  - assert (Hw : exists nw, push w (errors st) = errors st ++ nw /\
                            Forall (starts_with (row_label (i + 2))) nw).
    { destruct w as [w|]; simpl.
      - exists [w]. split; [reflexivity | now repeat constructor].
      - exists []. split; [now rewrite app_nil_r | constructor]. }
    destruct Hw as (nw & Hnw & Hf).
    destruct (perform _ _) as [w' [[]|e]]; cbn [errors].
    + now exists nw.
    + exists (nw ++ [service_error_reason (i + 2) d e]).
      rewrite Hnw, <- app_assoc. split; [reflexivity |].
      apply Forall_app. split; [assumption |].
      repeat constructor. apply starts_with_append.
Qed.

(** X1: every entry the loop adds to [errors] starts with "Row n", where n is
    the position of its row in the worksheet data plus two. *)
Theorem errors_carry_row_numbers (ix : CatalogIndex) (rows : list (gmap string cell)) :
  forall (i : nat) (st : pass W),
  exists new,
    errors (import_rows ix i rows st) = errors st ++ new /\
    Forall (fun e => exists k, k < length rows /\
                               starts_with (row_label (i + k + 2)) e) new.
Proof.
  induction rows as [|row rows IH]; intros i st.
  - exists []. split; [now rewrite app_nil_r | constructor].
  - cbn [import_rows].
    destruct (process_row_label ix i row st) as (n1 & H1 & F1).
    destruct (IH (S i) (process_row ix i row st)) as (n2 & H2 & F2).
    exists (n1 ++ n2). rewrite H2, H1, <- app_assoc. split; [reflexivity |].
    apply Forall_app. split.
    + eapply Forall_impl; [exact F1 |]. intros e He. exists 0. simpl.
      split; [lia |]. now rewrite Nat.add_0_r.
    + eapply Forall_impl; [exact F2 |]. intros e (k & Hk & He). exists (S k).
      simpl. split; [lia |]. now replace (i + S k + 2) with (S i + k + 2) by lia.
Qed.

End RowNumbers.

Lemma inserts_app (a b : list request) : inserts (a ++ b) = inserts a + inserts b.
Proof. unfold inserts. now rewrite List.filter_app, length_app. Qed.
Lemma updates_app (a b : list request) : updates (a ++ b) = updates a + updates b.
Proof. unfold updates. now rewrite List.filter_app, length_app. Qed.

Section Totals.
Context {W : Type} `{Remote W}.

Lemma process_row_accounting (ix : CatalogIndex) (i : nat) (row : gmap string cell)
    (st : pass W) :
  exists a u made new,
    importedCount (process_row ix i row st) = importedCount st + a /\
    updatedCount (process_row ix i row st) = updatedCount st + u /\
    calls (process_row ix i row st) = calls st ++ made /\
    errors (process_row ix i row st) = errors st ++ new /\
    a <= inserts made /\ u <= updates made /\
    length made <= 1 /\ a + u <= length made /\
    1 <= a + u + length new /\ length new <= 2 /\
    length made <= a + u + length new.
Proof.
  unfold process_row.
  destruct (parse_row ix (i + 2) row) as [reason|w d].
  - exists 0, 0, [], [reason]. cbn. rewrite !Nat.add_0_r, app_nil_r.
    repeat split; lia.
  - assert (Hw : exists nw, push w (errors st) = errors st ++ nw /\ length nw <= 1).
    { destruct w as [w|]; simpl.
      - exists [w]. split; [reflexivity | simpl; lia].
      - exists []. split; [now rewrite app_nil_r | simpl; lia]. }
    destruct Hw as (nw & -> & Hnw).
    destruct (perform _ _) as [w' [[]|e]]; cbn [importedCount updatedCount calls errors].
    + destruct (mutation_for ix d) as [d'|d'] eqn:Hm.
      * exists 1, 0, [AddProduct d'], nw. cbn. repeat split; lia.
      * exists 0, 1, [UpdateProduct d'], nw. cbn. repeat split; lia.
    + exists 0, 0, [mutation_for ix d], (nw ++ [service_error_reason (i + 2) d e]).
      rewrite <- app_assoc, length_app. cbn. repeat split; lia.
Qed.

(** X2: the totals of a pass add up: every row leaves a count or an entry in
    [errors], no row leaves more than one call or more than two entries,
    and a product is counted only for a call of its kind that was made. *)
Theorem pass_accounting (ix : CatalogIndex) (rows : list (gmap string cell)) :
  forall (i : nat) (st : pass W),
  exists a u made new,
    importedCount (import_rows ix i rows st) = importedCount st + a /\
    updatedCount (import_rows ix i rows st) = updatedCount st + u /\
    calls (import_rows ix i rows st) = calls st ++ made /\
    errors (import_rows ix i rows st) = errors st ++ new /\
    a <= inserts made /\ u <= updates made /\
    a + u <= length made /\ length made <= length rows /\
    length rows <= a + u + length new /\
    length made <= a + u + length new /\
    length new <= 2 * length rows.
Proof.
  induction rows as [|row rows IH]; intros i st.
  - exists 0, 0, [], []. cbn. rewrite !Nat.add_0_r, !app_nil_r. repeat split; lia.
  - cbn [import_rows].
    destruct (process_row_accounting ix i row st)
      as (a1 & u1 & m1 & n1 & Ha1 & Hu1 & Hm1 & Hn1 & ? & ? & ? & ? & ? & ? & ?).
    destruct (IH (S i) (process_row ix i row st))
      as (a2 & u2 & m2 & n2 & Ha2 & Hu2 & Hm2 & Hn2 & ? & ? & ? & ? & ? & ? & ?).
    exists (a1 + a2), (u1 + u2), (m1 ++ m2), (n1 ++ n2).
    rewrite Ha2, Hu2, Hm2, Hn2, Ha1, Hu1, Hm1, Hn1.
    rewrite <- !app_assoc, inserts_app, updates_app, !length_app. cbn [length].
    repeat split; lia.
Qed.

End Totals.

(** *** The product data of a validated row *)

Lemma truthy_String (c : cell) : truthy c = true -> String_ c <> "".
Proof.
  destruct c as [| |b|x|s]; simpl; try discriminate.
  - now destruct b.
  - intros _. apply toString_nonempty.
  - apply nonempty_true.
Qed.

Lemma truthy_id_Some (o : option string) (i : string) :
  truthy_id o = Some i -> o = Some i /\ i <> "".
Proof.
  destruct o as [j|]; simpl; [| discriminate].
  destruct (Js.nonempty j) eqn:Hj; [| discriminate].
  intros [= ->]. split; [reflexivity | now apply nonempty_true].
Qed.

Lemma stock_ok_accepted (x : Js.number) :
  Js.isNaN x = true \/ Js.isFinite x = true ->
  Js.isNaN x = false -> Js.lt0 x = false -> stock_ok x.
Proof.
  intros [Hnan' | Hfin] Hnan Hlt; [congruence |]. split; [assumption |].
  destruct x as [|neg|neg m e]; [discriminate.. |].
  cbn [Js.lt0 Js.ge0] in *. now destruct neg, (Js.is_zero _).
Qed.

Lemma zip_sizes_stock_ok (rowIndex : nat) (names : list string) :
  forall (stocks : list Js.number) (raw : list string) (acc l : list SizeStock) (j : nat),
  Forall (fun x => Js.isNaN x = true \/ Js.isFinite x = true) stocks ->
  Forall (fun z => stock_ok (stock z)) acc ->
  zip_sizes rowIndex j names stocks raw acc = inr l ->
  Forall (fun z => stock_ok (stock z)) l.
Proof.
  induction names as [|n names IH]; intros stocks raw acc l j Hfin Hacc; cbn [zip_sizes].
  - now intros [= <-].
  - destruct (negb (Js.nonempty n)); [discriminate |].
    destruct stocks as [|x stocks]; [discriminate |].
    destruct (Js.isNaN x) eqn:Hnan; [discriminate |].
    destruct (Js.lt0 x) eqn:Hlt; [discriminate |].
    apply IH; [exact (Forall_inv_tail Hfin) |].
    apply Forall_app. split; [assumption |].
    apply Forall_cons. split; [| constructor]. simpl.
    apply stock_ok_accepted; [exact (Forall_inv Hfin) | assumption..].
Qed.

Lemma payload_ok_empty : payload_ok "[]".
Proof. apply (sizes_roundtrip []). constructor. Qed.

(** Whatever strategy resolved the sizes, the text handed on is a payload
    that line 325 accepts, as long as no stock was read beyond the range
    of the doubles. *)
Lemma resolve_sizes_payload (rowIndex : nat) (row : gmap string cell)
    (w : option string) (s : string) :
  Forall within_range (stock_texts row) ->
  resolve_sizes rowIndex row = SizesResolved w s -> payload_ok s.
Proof.
  intros Hrange. unfold stock_texts in Hrange.
  apply Forall_app in Hrange as [Htoks Htotal].
  apply Forall_cons in Htotal as [Hts Htotal]. apply Forall_inv in Htotal as Hst.
  unfold resolve_sizes.
  destruct (Js.nonempty (trimmed row "SizesStockJSON")).
  - destruct (check_payload_cases rowIndex (trimmed row "SizesStockJSON"))
      as [[Hok ->] | [_ (r & -> & _)]]; [| discriminate].
    now intros [= _ <-].
  - destruct (_ && _).
    + unfold check_parallel. destruct (negb _); [discriminate |].
      destruct (zip_sizes _ _ _ _ _ _) as [r|l] eqn:Hz; [discriminate |].
      intros [= _ <-]. apply sizes_roundtrip.
      eapply zip_sizes_stock_ok; [| | exact Hz]; [| constructor].
      rewrite Forall_map in Htoks. now rewrite Forall_map.
    + unfold check_total.
      destruct (totalStockFromRow row) as [x|] eqn:Ht;
        [| intros [= _ <-]; apply payload_ok_empty].
      destruct (negb (Js.isNaN x) && Js.ge0 x) eqn:Hx;
        [| intros [= _ <-]; apply payload_ok_empty].
      intros [= _ <-]. apply sizes_roundtrip.
      apply Forall_cons. split; [| constructor]. simpl.
      apply andb_true_iff in Hx as [Hnan Hge]. apply negb_true_iff in Hnan.
      split; [| assumption].
      assert (Hin : within_range (String_ (field row "TotalStock")) /\
                      x = Js.parseInt (String_ (field row "TotalStock")) \/
                      within_range (String_ (field row "Stock")) /\
                      x = Js.parseInt (String_ (field row "Stock"))).
      { unfold totalStockFromRow in Ht.
        destruct (field row "TotalStock"); [destruct (field row "Stock") |..];
          try discriminate; injection Ht as <-; auto. }
      destruct Hin as [[[Hn | Hf] ->] | [[Hn | Hf] ->]]; congruence.
Qed.

(** X3: the product data of a validated row has no id, a title, a code
    and a picture that are not empty, a positive price, the ids the index
    holds for the texts of the row, and, unless a stock text of the row is
    read as a number beyond the range of the doubles, a size payload that
    line 325 accepts. *)
Theorem validated_record (ix : CatalogIndex) (rowIndex : nat) (row : gmap string cell)
    (warning : option string) (d : ProductFormData) :
  parse_row ix rowIndex row = Parsed warning d ->
  pd_id d = None /\
  pd_title d <> "" /\ pd_code d <> "" /\ pd_image d <> "" /\
  positive (pd_price d) /\
  pd_categoryId d <> "" /\
  categoryMap ix !! Js.toLowerCase (String_ (field row "Category")) = Some (pd_categoryId d) /\
  pd_manufacturerId d <> "" /\
  manufacturerMap ix !! Js.toLowerCase (String_ (field row "Manufacturer"))
    = Some (pd_manufacturerId d) /\
  (Forall within_range (stock_texts row) -> payload_ok (pd_sizes d)).
Proof.
  intros Hp. apply parse_row_Parsed in Hp
    as (Hreq & cid & mid & s & Hc & Hm & Hnan & Hle & Hs & ->). cbn.
  unfold required_missing in Hreq.
  repeat (apply orb_false_iff in Hreq as [Hreq ?]).
  apply truthy_id_Some in Hc as [Hc ?], Hm as [Hm ?].
  repeat split; try assumption;
    try (apply truthy_String; now apply negb_false_iff).
  intros Hrange. eapply resolve_sizes_payload; eassumption.
Qed.




Section Language.
Context {W : Type} `{Remote W}.
Variable t : string -> list (string * string) -> string.

Lemma field_insert (row : gmap string cell) (k : string) (c : cell) :
  field (<[k := c]> row) k = c.
Proof. unfold field. now rewrite lookup_insert_eq. Qed.

Lemma field_insert_ne (row : gmap string cell) (k k' : string) (c : cell) :
  k <> k' -> field (<[k := c]> row) k' = field row k'.
Proof. intros Hne. unfold field. now rewrite lookup_insert_ne. Qed.

(** X5: the visibility of a product survives export and import exactly when
    the language writes it in words line 388 reads the same way. *)
Theorem visibility_round_trip (p : Product) :
  parse_isVisible (export_row t p) =
    (let word := if isVisible p then t "common.yes" [] else t "common.no" [] in
     negb (Js.nonempty word) || affirmative (CStr word)) /\
  (affirmative (CStr (t "common.yes" [])) = true ->
   Js.nonempty (t "common.no" []) = true ->
   affirmative (CStr (t "common.no" [])) = false ->
   parse_isVisible (export_row t p) = isVisible p) /\
  (Js.nonempty (t "common.yes" []) = true ->
   affirmative (CStr (t "common.yes" [])) = false ->
   isVisible p = true -> parse_isVisible (export_row t p) = false).
Proof.
  assert (Hv : field (export_row t p) "Is Visible"
               = CStr (if isVisible p then t "common.yes" [] else t "common.no" []))
    by reflexivity.
  assert (Hp : parse_isVisible (export_row t p) =
    (let word := if isVisible p then t "common.yes" [] else t "common.no" [] in
     negb (Js.nonempty word) || affirmative (CStr word))).
  { unfold parse_isVisible. rewrite Hv. cbn [truthy String_]. unfold affirmative.
    cbn [String_]. cbv zeta.
    now destruct (Js.nonempty _). }
  split; [exact Hp |]. rewrite Hp. cbv zeta. split.
  - intros Hyes Hne Hno. destruct (isVisible p).
    + rewrite Hyes. apply orb_true_r.
    + now rewrite Hne, Hno.
  - intros Hne Hyes ->. now rewrite Hne, Hyes.
Qed.

(** X6: exported rows are read back by the structured payload alone: the
    "TotalStock" column they carry has no part in it. *)
Theorem exported_rows_take_the_payload (p : Product) (rowIndex : nat) (c : cell) :
  resolve_sizes rowIndex (export_row t p)
    = check_payload rowIndex (stringify_sizes (sizes p)) /\
  resolve_sizes rowIndex (<["TotalStock" := c]> (export_row t p))
    = resolve_sizes rowIndex (export_row t p) /\
  (Forall (fun z => stock_ok (stock z)) (sizes p) ->
   resolve_sizes rowIndex (export_row t p)
     = SizesResolved None (stringify_sizes (sizes p))).
Proof.
  destruct (trim_stringify_sizes (sizes p)) as [Htrim Hne].
  assert (Hs : forall row, field row "SizesStockJSON" = CStr (stringify_sizes (sizes p)) ->
               resolve_sizes rowIndex row
               = check_payload rowIndex (stringify_sizes (sizes p))).
  { intros row Hf. unfold resolve_sizes, trimmed. rewrite Hf. cbn [truthy String_].
    now rewrite Hne, Htrim, Hne. }
  assert (H1 := Hs (export_row t p) eq_refl).
  split; [exact H1 |]. split.
  - rewrite H1. apply Hs. now rewrite field_insert_ne.
  - intros Hall. rewrite H1.
    destruct (check_payload_cases rowIndex (stringify_sizes (sizes p)))
      as [[_ Hc] | [Hno _]]; [assumption |].
    exfalso. now apply Hno, sizes_roundtrip.
Qed.

(** X7: the refresh of the [finally] block: the product list is replaced by
    what the service returns, also after an empty worksheet; when the
    refresh fails, its error replaces the one of the pass and is what
    [MessageDisplay] shows, a success message notwithstanding. *)
Theorem refresh_after_import (jsonData : list (gmap string cell)) (pg : page) (w : W) :
  forall pg1 w1 st,
  import_pass t jsonData (clearMessages pg) w = (pg1, w1, st) ->
  (forall w2 ps, get_products_admin w1 = (w2, Js.Ok ps) ->
     handleFileImport t jsonData pg w = (setProducts ps pg1, w2)) /\
  (forall w2 e, get_products_admin w1 = (w2, Js.Throw e) ->
     handleFileImport t jsonData pg w
       = (setActionError (failed_to_load_products t) pg1, w2) /\
     (failed_to_load_products t <> "" ->
      MessageDisplay (fst (handleFileImport t jsonData pg w))
        = Some (ErrorBanner (failed_to_load_products t)))).
Proof.
  intros pg1 w1 st Hpass. unfold handleFileImport. rewrite Hpass. unfold loadProducts.
  split.
  - intros w2 ps ->. reflexivity.
  - intros w2 e ->. split; [reflexivity |]. intros Hne. cbn.
    unfold MessageDisplay. cbn. apply nonempty_true in Hne. now rewrite Hne.
Qed.

End Language.

(** ** The list shown, its order and the selection *)

(** *** Search *)

Lemma prefix_append (needle hay : string) :
  String.prefix needle hay = true <-> exists post, hay = needle +:+ post.
Proof.
  revert hay. induction needle as [|c needle IH]; intros hay.
  - split; [intros _; now exists hay | intros _; now destruct hay].
  - destruct hay as [|h hay]; simpl.
    + split; [discriminate | intros [post Hp]; discriminate].
    + destruct (ascii_dec c h) as [-> | Hne].
      * rewrite IH. split; intros [post Hp]; exists post.
        -- now rewrite append_cons, <- Hp.
        -- rewrite append_cons in Hp. now injection Hp.
      * split; [discriminate |]. intros [post Hp].
        rewrite append_cons in Hp. injection Hp as -> _. congruence.
Qed.

Lemma includes_contains (hay needle : string) :
  includes hay needle = true <-> Js.contains hay needle.
Proof.
  unfold Js.contains. induction hay as [|h hay IH]; cbn [includes].
  - rewrite orb_false_r, prefix_append. split.
    + intros [post Hp]. now exists "", post.
    + intros ([|c pre] & post & Hp); [now exists post |].
      rewrite append_cons in Hp. discriminate.
  - rewrite orb_true_iff, prefix_append, IH. split.
    + intros [[post Hp] | (pre & post & Hp)].
      * now exists "", post.
      * exists (String h pre), post. now rewrite append_cons, <- Hp.
    + intros ([|c pre] & post & Hp).
      * left. now exists post.
      * right. rewrite append_cons in Hp. injection Hp as -> ->. now exists pre, post.
Qed.

(** *** The sort *)

Section Sort.
Context {A : Type} (cmp : A -> A -> Z).

Lemma insert_sorted_perm (x : A) (l : list A) : insert_sorted cmp x l ≡ₚ x :: l.
Proof.
  induction l as [|y r IH]; cbn [insert_sorted]; [reflexivity |].
  destruct (0 <? cmp x y)%Z; [| reflexivity].
  rewrite IH. apply perm_swap.
Qed.

Lemma Array_sort_perm (l : list A) : Array_sort cmp l ≡ₚ l.
Proof.
  induction l as [|x l IH]; [reflexivity |].
  cbn [Array_sort foldr]. fold (Array_sort cmp l).
  now rewrite insert_sorted_perm, IH.
Qed.

(** The elements on which the comparator is a consistent ordering. *)
Variable ok : A -> Prop.
Hypothesis asym : forall x y, ok x -> ok y -> (0 < cmp x y)%Z -> (cmp y x <= 0)%Z.
Hypothesis trans : forall x y z, ok x -> ok y -> ok z ->
  (cmp x y <= 0)%Z -> (cmp y z <= 0)%Z -> (cmp x z <= 0)%Z.

Lemma insert_sorted_sorted (x : A) (l : list A) :
  ok x -> Forall ok l ->
  StronglySorted (fun a b => (cmp a b <= 0)%Z) l ->
  StronglySorted (fun a b => (cmp a b <= 0)%Z) (insert_sorted cmp x l).
Proof.
  intros Hx Hok Hs. induction Hs as [|y r Hs IH Hy]; cbn [insert_sorted].
  - repeat constructor.
  - pose proof (Forall_inv Hok) as Hoky. pose proof (Forall_inv_tail Hok) as Hokr.
    destruct (0 <? cmp x y)%Z eqn:Hc.
    + apply Z.ltb_lt in Hc. constructor; [now apply IH |].
      rewrite insert_sorted_perm. constructor; [now apply asym | assumption].
    + apply Z.ltb_ge in Hc. constructor; [now constructor |].
      constructor; [assumption |].
      rewrite List.Forall_forall in *. intros z Hz.
      apply (trans x y z); auto.
Qed.

Lemma Array_sort_sorted (l : list A) :
  Forall ok l -> StronglySorted (fun a b => (cmp a b <= 0)%Z) (Array_sort cmp l).
Proof.
  induction l as [|x l IH]; intros Hok; [constructor |].
  cbn [Array_sort foldr]. fold (Array_sort cmp l).
  apply insert_sorted_sorted.
  - exact (Forall_inv Hok).
  - rewrite Array_sort_perm. exact (Forall_inv_tail Hok).
  - apply IH. exact (Forall_inv_tail Hok).
Qed.

(** Stability: the elements that compare equal to [p] keep their order. *)
Hypothesis equiv : forall p x y, ok p -> ok x -> ok y ->
  cmp p x = 0%Z -> cmp p y = 0%Z -> (cmp x y <= 0)%Z.

Lemma filter_insert_sorted (p x : A) (l : list A) :
  ok p -> ok x -> Forall ok l ->
  List.filter (fun q => (cmp p q =? 0)%Z) (insert_sorted cmp x l) =
  List.filter (fun q => (cmp p q =? 0)%Z) (x :: l).
Proof.
  intros Hp Hx Hok. induction l as [|y r IH]; cbn [insert_sorted]; [reflexivity |].
  pose proof (Forall_inv Hok) as Hoky. pose proof (Forall_inv_tail Hok) as Hokr.
  destruct (0 <? cmp x y)%Z eqn:Hc; [| reflexivity].
  apply Z.ltb_lt in Hc.
  cbn [List.filter] in *. rewrite (IH Hokr).
  destruct (cmp p x =? 0)%Z eqn:Ex; [| reflexivity].
  destruct (cmp p y =? 0)%Z eqn:Ey; [| reflexivity].
  apply Z.eqb_eq in Ex, Ey. pose proof (equiv p x y Hp Hx Hoky Ex Ey). lia.
Qed.

Lemma Array_sort_stable (p : A) (l : list A) :
  ok p -> Forall ok l ->
  List.filter (fun q => (cmp p q =? 0)%Z) (Array_sort cmp l) =
  List.filter (fun q => (cmp p q =? 0)%Z) l.
Proof.
  intros Hp. induction l as [|x l IH]; intros Hok; [reflexivity |].
  cbn [Array_sort foldr]. fold (Array_sort cmp l).
  rewrite filter_insert_sorted.
  - cbn [List.filter]. now rewrite (IH (Forall_inv_tail Hok)).
  - assumption.
  - exact (Forall_inv Hok).
  - rewrite Array_sort_perm. exact (Forall_inv_tail Hok).
Qed.

End Sort.

(** *** The order of strings and of numbers *)

Lemma ltb_Lt (a b : string) : String.ltb a b = true <-> String.compare a b = Lt.
Proof. unfold String.ltb. destruct (String.compare a b); split; congruence. Qed.

Lemma string_lt_asym (a b : string) : String.ltb a b = true -> String.ltb b a = false.
Proof.
  rewrite ltb_Lt. intros Hc. unfold String.ltb.
  rewrite String.compare_antisym, Hc. reflexivity.
Qed.

Lemma string_lt_cotrans (a b c : string) :
  String.ltb a c = true -> String.ltb a b = true \/ String.ltb b c = true.
Proof.
  rewrite !ltb_Lt. intros Hac.
  destruct (String.compare a b) eqn:Hab.
  - apply String.compare_eq_iff in Hab as ->. now right.
  - now left.
  - right. assert (Hba : String.compare b a = Lt).
    { rewrite String.compare_antisym, Hab. reflexivity. }
    apply String_as_OT.cmp_lt. apply String_as_OT.cmp_lt in Hba, Hac.
    eapply String_as_OT.lt_trans; eassumption.
Qed.

Lemma scaled_rescale (neg : bool) (m : N) (e e0 E : Z) :
  (E <= e0)%Z -> (e0 <= e)%Z ->
  scaled neg m e E = (scaled neg m e e0 * 2 ^ (e0 - E))%Z.
Proof.
  intros H1 H2. unfold scaled.
  replace (e - E)%Z with ((e - e0) + (e0 - E))%Z by lia.
  rewrite Z.pow_add_r by lia. destruct neg; lia.
Qed.

Lemma double_lt_at (E : Z) (na nb : bool) (ma mb : N) (ea eb : Z) :
  (E <= ea)%Z -> (E <= eb)%Z ->
  double_lt (DFinite na ma ea) (DFinite nb mb eb)
    = (scaled na ma ea E <? scaled nb mb eb E)%Z.
Proof.
  intros Ha Hb. cbn [double_lt]. cbv zeta.
  rewrite (scaled_rescale na ma ea (Z.min ea eb) E) by lia.
  rewrite (scaled_rescale nb mb eb (Z.min ea eb) E) by lia.
  assert (Hpos : (0 < 2 ^ (Z.min ea eb - E))%Z) by (apply Z.pow_pos_nonneg; lia).
  destruct (Z.ltb_spec (scaled na ma ea (Z.min ea eb)) (scaled nb mb eb (Z.min ea eb)));
    symmetry; [apply Z.ltb_lt | apply Z.ltb_ge]; nia.
Qed.

Lemma double_lt_irrefl (a : double) : double_lt a a = false.
Proof.
  destruct a as [|na|na ma ea]; [reflexivity | now destruct na |].
  cbn [double_lt]. apply Z.ltb_irrefl.
Qed.

Lemma double_lt_asym (a b : double) : double_lt a b = true -> double_lt b a = false.
Proof.
  destruct a as [|na|na ma ea], b as [|nb|nb mb eb]; try reflexivity; try discriminate.
  - simpl. now destruct na, nb.
  - simpl. now destruct na.
  - simpl. now destruct nb.
  - rewrite (double_lt_at (Z.min ea eb)), (double_lt_at (Z.min ea eb)) by lia.
    rewrite Z.ltb_lt, Z.ltb_ge. lia.
Qed.

Lemma double_lt_cotrans (a b c : double) :
  b <> DNaN ->
  double_lt a c = true -> double_lt a b = true \/ double_lt b c = true.
Proof.
  intros Hb.
  destruct a as [|na|na ma ea], b as [|nb|nb mb eb], c as [|nc|nc mc ec];
    try discriminate; try congruence; simpl;
    try (destruct na; simpl; tauto); try (destruct nb; simpl; tauto);
    try (destruct nc; simpl; tauto);
    try (destruct na, nb, nc; simpl; tauto).
  change (double_lt (DFinite na ma ea) (DFinite nc mc ec) = true ->
          double_lt (DFinite na ma ea) (DFinite nb mb eb) = true \/
          double_lt (DFinite nb mb eb) (DFinite nc mc ec) = true).
  rewrite !(double_lt_at (Z.min ea (Z.min eb ec))) by lia.
  rewrite !Z.ltb_lt. lia.
Qed.

Lemma double_of_NaN (x : Js.number) : double_of x = DNaN -> Js.isNaN x = true.
Proof.
  destruct x as [|neg|neg m e]; [reflexivity | discriminate |].
  cbn [double_of]. now destruct (Js.magnitude m e).
Qed.

Lemma number_lt_asym (a b : Js.number) : number_lt a b = true -> number_lt b a = false.
Proof. apply double_lt_asym. Qed.

Lemma number_lt_cotrans (a b c : Js.number) :
  Js.isNaN b = false ->
  number_lt a c = true -> number_lt a b = true \/ number_lt b c = true.
Proof.
  intros Hb. apply double_lt_cotrans. intros Hd.
  apply double_of_NaN in Hd. congruence.
Qed.

Lemma lt_by_asym (k : sort_key) (a b : Product) :
  lt_by k a b = true -> lt_by k b a = false.
Proof.
  destruct k; cbn [lt_by]; [apply string_lt_asym | apply number_lt_asym..].
Qed.

Lemma lt_by_cotrans (k : sort_key) (a b c : Product) :
  comparable k b ->
  lt_by k a c = true -> lt_by k a b = true \/ lt_by k b c = true.
Proof.
  destruct k; cbn [lt_by comparable]; intros Hb;
    [apply string_lt_cotrans | now apply number_lt_cotrans..].
Qed.

(** The comparator does not put [a] after [b] exactly when [b] is not
    before [a] in the chosen direction. *)
Lemma compare_products_le (c : SortConfig) (a b : Product) :
  (compare_products c a b <= 0)%Z <->
  match direction c with
  | ascending => lt_by (key c) b a = false
  | descending => lt_by (key c) a b = false
  end.
Proof.
  unfold compare_products.
  destruct (lt_by (key c) a b) eqn:Hab.
  - rewrite (lt_by_asym _ _ _ Hab). destruct (direction c); split; (lia || congruence).
  - destruct (lt_by (key c) b a), (direction c); split; (lia || congruence).
Qed.

Lemma compare_products_asym (c : SortConfig) (x y : Product) :
  (0 < compare_products c x y)%Z -> (compare_products c y x <= 0)%Z.
Proof.
  unfold compare_products.
  destruct (lt_by (key c) x y) eqn:Hxy.
  - rewrite (lt_by_asym _ _ _ Hxy). destruct (direction c); lia.
  - destruct (lt_by (key c) y x), (direction c); lia.
Qed.

Lemma compare_products_trans (c : SortConfig) (x y z : Product) :
  comparable (key c) y ->
  (compare_products c x y <= 0)%Z -> (compare_products c y z <= 0)%Z ->
  (compare_products c x z <= 0)%Z.
Proof.
  intros Hy. rewrite !compare_products_le.
  destruct (direction c); intros H1 H2.
  - destruct (lt_by (key c) z x) eqn:Hzx; [| reflexivity].
    destruct (lt_by_cotrans _ z y x Hy Hzx); congruence.
  - destruct (lt_by (key c) x z) eqn:Hxz; [| reflexivity].
    destruct (lt_by_cotrans _ x y z Hy Hxz); congruence.
Qed.

Lemma compare_products_0 (c : SortConfig) (a b : Product) :
  compare_products c a b = 0%Z <->
  lt_by (key c) a b = false /\ lt_by (key c) b a = false.
Proof.
  unfold compare_products.
  destruct (lt_by (key c) a b), (lt_by (key c) b a), (direction c);
    split; (lia || (intros [? ?]; congruence) || (split; congruence)).
Qed.

Lemma compare_products_equiv (c : SortConfig) (p x y : Product) :
  comparable (key c) p ->
  compare_products c p x = 0%Z -> compare_products c p y = 0%Z ->
  (compare_products c x y <= 0)%Z.
Proof.
  intros Hp. rewrite !compare_products_0. intros [Hpx Hxp] [Hpy Hyp].
  apply compare_products_le.
  destruct (direction c).
  - destruct (lt_by (key c) y x) eqn:H; [| reflexivity].
    destruct (lt_by_cotrans _ y p x Hp H); congruence.
  - destruct (lt_by (key c) x y) eqn:H; [| reflexivity].
    destruct (lt_by_cotrans _ x p y Hp H); congruence.
Qed.

Lemma elem_of_List_filter {A : Type} (f : A -> bool) (l : list A) (x : A) :
  x ∈ List.filter f l <-> x ∈ l /\ f x = true.
Proof. rewrite !list_elem_of_In. apply filter_In. Qed.

Lemma sublist_List_filter {A : Type} (f : A -> bool) (l : list A) :
  sublist (List.filter f l) l.
Proof.
  induction l as [|x l IH]; simpl; [constructor |].
  destruct (f x); now constructor.
Qed.

Lemma matches_search_spec (term : string) (p : Product) :
  matches_search term p = true <->
  Js.contains (Js.toLowerCase (title p)) term \/
  Js.contains (Js.toLowerCase (code p)) term.
Proof. unfold matches_search. now rewrite orb_true_iff, !includes_contains. Qed.

Lemma elem_of_filtered (f : filters) (ps : list Product) (p : Product) :
  p ∈ filtered f ps <-> p ∈ ps /\ passes f p.
Proof.
  unfold filtered, passes.
  assert (H1 : forall l, p ∈ (if Js.nonempty (searchTerm f)
                 then List.filter (matches_search (Js.toLowerCase (searchTerm f))) l
                 else l) <->
               p ∈ l /\ (searchTerm f = "" \/
     Js.contains (Js.toLowerCase (title p)) (Js.toLowerCase (searchTerm f)) \/
     Js.contains (Js.toLowerCase (code p)) (Js.toLowerCase (searchTerm f)))).
  { intros l. destruct (Js.nonempty (searchTerm f)) eqn:Hs.
    - rewrite elem_of_List_filter, matches_search_spec.
      apply nonempty_true in Hs. tauto.
    - assert (searchTerm f = "") by (destruct (searchTerm f); [reflexivity | discriminate]).
      tauto. }
  assert (H2 : forall (get : Product -> string) (v : string) l,
             p ∈ (if bool_decide (v = ALL_FILTER_VALUE) then l
                  else List.filter (fun q => bool_decide (get q = v)) l) <->
             p ∈ l /\ (v = ALL_FILTER_VALUE \/ get p = v)).
  { intros get v l. destruct (bool_decide_reflect (v = ALL_FILTER_VALUE)) as [Hv|Hv].
    - tauto.
    - rewrite elem_of_List_filter, bool_decide_eq_true. tauto. }
  cbv zeta. rewrite (H2 manufacturerId), (H2 categoryId), H1. tauto.
Qed.

Lemma view_perm (f : filters) (ps : list Product) :
  filteredAndSortedProducts f ps ≡ₚ filtered f ps.
Proof.
  unfold filteredAndSortedProducts. destruct (sortConfig f); [| reflexivity].
  apply Array_sort_perm.
Qed.

Lemma elem_of_view (f : filters) (ps : list Product) (p : Product) :
  p ∈ filteredAndSortedProducts f ps <-> p ∈ ps /\ passes f p.
Proof. rewrite view_perm. apply elem_of_filtered. Qed.

(** X9: the list shown holds exactly the products that pass the search and
    the two drop-downs, whatever the sort order. *)
Theorem shown_products (f : filters) (ps : list Product) (p : Product) :
  p ∈ filteredAndSortedProducts f ps <-> p ∈ ps /\ passes f p.
Proof. rewrite view_perm. apply elem_of_filtered. Qed.

(** X10: filtering keeps the order of the product list and sorting only
    rearranges what the filters left; after [handleClearFilters] the
    list shown is the product list. *)
Theorem view_is_part_of_the_list (f : filters) (ps : list Product) :
  sublist (filtered f ps) ps /\
  filteredAndSortedProducts f ps ≡ₚ filtered f ps /\
  filteredAndSortedProducts cleared ps = ps.
Proof.
  split; [| split; [| reflexivity]].
  - unfold filtered. cbv zeta.
    repeat match goal with
    | |- sublist (if ?b then _ else _) _ => destruct b
    | |- sublist (List.filter _ _) _ =>
        etransitivity; [apply sublist_List_filter |]
    end; reflexivity.
  - apply view_perm.
Qed.

Lemma filtered_comparable (f : filters) (k : sort_key) (ps : list Product) :
  Forall (comparable k) ps -> Forall (comparable k) (filtered f ps).
Proof.
  rewrite !Forall_forall. intros Hall p Hp.
  apply elem_of_filtered in Hp as [Hp _]. now apply Hall.
Qed.

Lemma StronglySorted_weaken {A : Type} (P Q : A -> A -> Prop) (l : list A) :
  (forall a b, P a b -> Q a b) -> StronglySorted P l -> StronglySorted Q l.
Proof.
  intros HPQ Hs. induction Hs as [|x l Hs IH Hx]; constructor; [assumption |].
  eapply List.Forall_impl; [| exact Hx]. apply HPQ.
Qed.

(** X11: when no value sorted on is [NaN], no product of the sorted list is
    followed, at any distance, by one that belongs before it. *)
Theorem sorted_view (f : filters) (ps : list Product) (c : SortConfig) :
  sortConfig f = Some c ->
  Forall (comparable (key c)) ps ->
  StronglySorted
    (fun a b => match direction c with
                | ascending => lt_by (key c) b a = false
                | descending => lt_by (key c) a b = false
                end)
    (filteredAndSortedProducts f ps).
Proof.
  intros Hc Hok. unfold filteredAndSortedProducts. rewrite Hc.
  eapply StronglySorted_weaken;
    [| apply (Array_sort_sorted (compare_products c) (comparable (key c)))].
  - intros a b. apply compare_products_le.
  - intros x y _ _. apply compare_products_asym.
  - intros x y z _ Hy _. now apply compare_products_trans.
  - now apply filtered_comparable.
Qed.

(** X12: the sort is stable: the products that compare equal to [p] come in
    the order the product list has them. *)
Theorem sorted_view_stable (f : filters) (ps : list Product) (c : SortConfig)
    (p : Product) :
  sortConfig f = Some c ->
  comparable (key c) p ->
  Forall (comparable (key c)) ps ->
  List.filter (fun q => (compare_products c p q =? 0)%Z) (filteredAndSortedProducts f ps)
  = List.filter (fun q => (compare_products c p q =? 0)%Z) (filtered f ps).
Proof.
  intros Hc Hp Hok. unfold filteredAndSortedProducts. rewrite Hc.
  apply (Array_sort_stable (compare_products c) (comparable (key c))).
  - intros q x y Hq _ _. now apply compare_products_equiv.
  - assumption.
  - now apply filtered_comparable.
Qed.

Lemma same_key_refl (k : sort_key) : same_key k k = true.
Proof. now destruct k. Qed.

(** X13: [requestSort] never leaves the list unsorted and never touches the
    filters; on the same key it alternates between the two directions,
    on another key it starts ascending. *)
Theorem requestSort_directions (k : sort_key) (f : filters) :
  (exists d, sortConfig (requestSort k f) = Some {| key := k; direction := d |}) /\
  (forall ps, filtered (requestSort k f) ps = filtered f ps) /\
  sortConfig (requestSort k (requestSort k f)) <> sortConfig (requestSort k f) /\
  requestSort k (requestSort k (requestSort k f)) = requestSort k f /\
  (forall k', same_key k k' = false ->
     sortConfig (requestSort k' (requestSort k f))
       = Some {| key := k'; direction := ascending |}).
Proof.
  split; [eexists; reflexivity |]. split; [reflexivity |].
  unfold requestSort. cbn. rewrite !same_key_refl.
  split; [| split].
  - destruct (sortConfig f) as [[k0 []]|]; cbn; try destruct (same_key k0 k);
      intros [=].
  - destruct (sortConfig f) as [[k0 []]|]; cbn; try destruct (same_key k0 k);
      reflexivity.
  - intros k' ->. reflexivity.
Qed.

(** X14: ticking a product adds it at the end of the selection, unticking
    removes every occurrence of it; no other product is affected. *)
Theorem selection_toggle (productId x : string) (prev : list string) :
  (x ∈ handleSelectProduct productId true prev <-> x ∈ prev \/ x = productId) /\
  (x ∈ handleSelectProduct productId false prev <-> x ∈ prev /\ x <> productId) /\
  handleSelectProduct productId false (handleSelectProduct productId true prev)
    = handleSelectProduct productId false prev /\
  length (handleSelectProduct productId true prev) = S (length prev) /\
  (NoDup prev -> NoDup (handleSelectProduct productId false prev)).
Proof.
  unfold handleSelectProduct. split; [| split; [| split; [| split]]].
  - rewrite elem_of_app, list_elem_of_singleton. tauto.
  - rewrite elem_of_List_filter, negb_true_iff, bool_decide_eq_false. tauto.
  - rewrite List.filter_app. cbn [List.filter].
    rewrite bool_decide_eq_true_2 by reflexivity. cbn. now rewrite app_nil_r.
  - rewrite length_app. cbn. lia.
  - rewrite !NoDup_ListNoDup. apply List.NoDup_filter.
Qed.

(** X15: ticking the header selects the products shown, and only those. *)
Theorem select_all_selects_the_shown (f : filters) (ps : list Product) (x : string) :
  (x ∈ handleSelectAllProducts true (filteredAndSortedProducts f ps) <->
   exists p, p ∈ ps /\ passes f p /\ id p = x) /\
  length (handleSelectAllProducts true (filteredAndSortedProducts f ps))
    = length (filtered f ps) /\
  handleSelectAllProducts false (filteredAndSortedProducts f ps) = [].
Proof.
  split; [| split; [| reflexivity]].
  - cbn. rewrite list_elem_of_fmap. split.
    + intros (p & -> & Hp). apply elem_of_view in Hp as [? ?]. now exists p.
    + intros (p & Hp & Hpass & <-). exists p. split; [reflexivity |].
      now apply elem_of_view.
  - cbn. now rewrite length_map, view_perm.
Qed.

Section ExportView.
Variable t : string -> list (string * string) -> string.

(** X16: the export writes the list shown: no sheet when no product passes
    the filters, else one row for each product that does. *)
Theorem export_of_the_view (f : filters) (pg : page) :
  let out := handleExportProducts t (filteredAndSortedProducts f (products pg)) pg in
  (snd out = None <-> forall p, p ∈ products pg -> ~ passes f p) /\
  (forall rows, snd out = Some rows ->
     rows ≡ₚ map (export_row t) (filtered f (products pg)) /\
     actionError (fst out) = None).
Proof.
  cbv zeta. unfold handleExportProducts.
  destruct (filteredAndSortedProducts f (products pg)) as [|p l] eqn:Hv.
  - split.
    + split; [| reflexivity]. intros _ p Hp Hpass.
      assert (Hin : p ∈ filteredAndSortedProducts f (products pg))
        by now apply elem_of_view.
      rewrite Hv in Hin. inversion Hin.
    + intros rows [=].
  - split.
    + split; [discriminate |]. intros Hno. exfalso.
      assert (Hin : p ∈ filteredAndSortedProducts f (products pg))
        by (rewrite Hv; left).
      apply elem_of_view in Hin as [Hin Hpass]. now apply (Hno p).
    + intros rows [= <-]. split; [| reflexivity].
      transitivity (map (export_row t) (filteredAndSortedProducts f (products pg)));
        [now rewrite Hv |].
      apply Permutation_map, view_perm.
Qed.
End ExportView.

(** ** What a round trip keeps *)

(** The text of a positive number is read back by [parseFloat] as the
    same double. *)
Lemma parseFloat_toString_same (x : Js.number) :
  positive x -> same_number x (Js.parseFloat (Js.toString x)).
Proof.
  intros [Hnan Hle]. destruct x as [|neg|neg m e]; [discriminate | |].
  - simpl in Hle. subst neg. now repeat split.
  - cbn [Js.le0] in Hle. apply orb_false_iff in Hle as [-> Hz].
    unfold same_number, number_lt.
    destruct (Js.magnitude m e) as [|mant exp2|] eqn:Hm; [discriminate | |].
    + destruct (parseFloat_toString_Double m e mant exp2 Hm) as (v & X & -> & Hv).
      rewrite isNaN_number_value, double_of_number_value.
      cbn [double_of Js.isNaN]. rewrite Hm, Hv.
      rewrite double_lt_irrefl. now repeat split.
    + unfold Js.toString. rewrite Hm.
      change (Js.parseFloat "Infinity") with (Js.Infinity false).
      cbn [double_of Js.isNaN]. rewrite Hm. now repeat split.
Qed.

Section RoundTrip.
Variable t : string -> list (string * string) -> string.

(** X8: what comes back from the export of a product that can be imported
    again: its title, code, picture and size list as they were, its
    price with the same value, and the ids the index holds for the
    category and manufacturer texts. *)
Theorem round_trip_keeps_the_data (ix : CatalogIndex) (rowIndex : nat) (p : Product) :
  reimportable ix p ->
  exists d,
    parse_row ix rowIndex (export_row t p) = Parsed None d /\
    pd_title d = title p /\ pd_code d = code p /\ pd_image d = image p /\
    pd_sizes d = stringify_sizes (sizes p) /\
    same_number (price p) (pd_price d) /\
    categoryMap ix !! Js.toLowerCase (exported_category p) = Some (pd_categoryId d) /\
    manufacturerMap ix !! Js.toLowerCase (exported_manufacturer p)
      = Some (pd_manufacturerId d).
Proof.
  intros Hre. destruct (parse_row_export t ix rowIndex p Hre) as (d & Hp & _).
  exists d. split; [exact Hp |].
  apply parse_row_Parsed in Hp
    as (_ & cid & mid & s & Hc & Hm & _ & _ & Hs & ->).
  cbn [pd_title pd_code pd_image pd_sizes pd_price pd_categoryId pd_manufacturerId].
  apply truthy_id_Some in Hc as [Hc _], Hm as [Hm _].
  repeat split; try assumption.
  - destruct (trim_stringify_sizes (sizes p)) as [Htrim Hne].
    revert Hs. unfold resolve_sizes, trimmed.
    change (field (export_row t p) "SizesStockJSON")
      with (CStr (stringify_sizes (sizes p))).
    cbn [truthy String_]. rewrite Hne, Htrim, Hne.
    destruct (check_payload_cases rowIndex (stringify_sizes (sizes p)))
      as [[_ ->] | [_ (r & -> & _)]]; [| discriminate].
    now intros [= <-].
  - apply parseFloat_toString_same, Hre.
  - apply parseFloat_toString_same, Hre.
  - apply parseFloat_toString_same, Hre.
  - apply parseFloat_toString_same, Hre.
Qed.
End RoundTrip.

(** ** The service over HTTP *)

Section Responses.
Import Fetch.

Lemma handleApiResponse_not_ok (response : Response) :
  ok response = false -> exists e, productService.handleApiResponse response = Js.Throw e.
Proof.
  intros Hok. unfold productService.handleApiResponse. rewrite Hok. cbn [negb].
  destruct (Js.get _ "message"); eexists; reflexivity.
Qed.

Lemma handleApiResponse_message (response : Response)
    (fields : list (string * Js.json)) (m : string) :
  ok response = false ->
  Js.JSON_parse (body response) = Js.Ok (Js.JObject fields) ->
  Js.own_property "message" fields = Some (Js.JString m) -> m <> "" ->
  productService.handleApiResponse response = Js.Throw (Js.Error m).
Proof.
  intros Hok Hparse Hm Hne. unfold productService.handleApiResponse.
  rewrite Hok, Hparse. cbn. rewrite Hm. cbn.
  apply nonempty_true in Hne. now rewrite Hne.
Qed.

(** X17: a response outside 200-299 never yields a value: the error carries
    the message of the body when it has one, the status line when the
    body is not JSON; a body that is [null] gives a [TypeError]. *)
Theorem failed_response_throws (response : Response) :
  ok response = false ->
  exists e, productService.handleApiResponse response = Js.Throw e /\
    (forall fields m,
       Js.JSON_parse (body response) = Js.Ok (Js.JObject fields) ->
       Js.own_property "message" fields = Some (Js.JString m) -> m <> "" ->
       e = Js.Error m) /\
    (forall fields,
       Js.JSON_parse (body response) = Js.Ok (Js.JObject fields) ->
       Js.own_property "message" fields = None ->
       e = Js.Error ("HTTP error! status: " +:+ Js.string_of_nat (status response))) /\
    (forall e',
       Js.JSON_parse (body response) = Js.Throw e' ->
       e = Js.Error ("HTTP error! Status: " +:+ Js.string_of_nat (status response)
                     +:+ " " +:+ statusText response)) /\
    (Js.JSON_parse (body response) = Js.Ok Js.JNull -> Js.err_name e = "TypeError").
Proof.
  intros Hok. unfold productService.handleApiResponse. rewrite Hok. cbn [negb].
  destruct (Js.JSON_parse (body response)) as [v|e0] eqn:Hparse.
  - destruct (Js.get v "message") as [m|e] eqn:Hget.
    + eexists. split; [reflexivity |]. split; [| split; [| split]].
      * intros fields s [= ->] Hm Hne. cbn in Hget. rewrite Hm in Hget.
        injection Hget as <-. cbn. apply nonempty_true in Hne. now rewrite Hne.
      * intros fields [= ->] Hm. cbn in Hget. rewrite Hm in Hget.
        now injection Hget as <-.
      * discriminate.
      * intros [= ->]. discriminate.
    + exists e. split; [reflexivity |].
      destruct v; try discriminate. injection Hget as <-.
      split; [| split; [| split]]; try discriminate. reflexivity.
  - cbn. eexists. split; [reflexivity |].
    split; [| split; [| split]]; try discriminate.
    intros e' _. reflexivity.
Qed.

End Responses.

Section ServiceProperties.
Import Fetch.
Context {Net : Type} `{Network Net}.

Lemma call_response (request : Request) (b : browser Net) (s' : Net)
    (response : Response) :
  fetch request (network b) = (s', Js.Ok response) ->
  productService.call request b
    = (after b s', productService.handleApiResponse response).
Proof. intros Hf. unfold productService.call. now rewrite Hf. Qed.

Lemma handleApiResponse_no_content (response : Response) :
  status response = 204 -> productService.handleApiResponse response = Js.Ok Js.JNull.
Proof.
  intros Hs. unfold productService.handleApiResponse, ok. now rewrite Hs.
Qed.

Lemma deleted_no_content (request : Request) (b : browser Net) (s' : Net)
    (response : Response) :
  fetch request (network b) = (s', Js.Ok response) ->
  status response = 204 ->
  productService.deleted request b = (after b s', Js.Throw no_success).
Proof.
  intros Hf Hs. unfold productService.deleted.
  now rewrite (call_response _ _ _ _ Hf), (handleApiResponse_no_content _ Hs).
Qed.

(** X19: [updateProductStockAdmin]: a size list, even an empty one, is sent
    whatever the other two parameters are; without a list and without
    both of them no request is made. *)
Theorem stock_update_parameters (productId : string) (sizeName : option string)
    (newStockValue : option Js.number) (b : browser Net) :
  (forall l, productService.updateProductStockAdmin productId sizeName newStockValue
                                                    (Some l) b
             = productService.updateProductStockAdmin productId None None (Some l) b) /\
  (sizeName = None \/ newStockValue = None ->
   productService.updateProductStockAdmin productId sizeName newStockValue None b
     = (b, Js.Throw (Js.Error "Invalid parameters for updateProductStockAdmin"))).
Proof.
  split; [reflexivity |].
  intros [-> | ->]; [reflexivity | now destruct sizeName].
Qed.

(** X29: a sale answers with [success] of the body when the body has
    one, and otherwise with whether the body has a product; an answer
    204 No Content throws. *)
Theorem stock_sale_outcome (productId sizeSold : string) (quantitySold : Js.number)
    (b : browser Net) (s' : Net) (response : Response) :
  fetch {| method := "PUT";
           url := productService.API_BASE_URL +:+ "/products/" +:+ productId
                  +:+ "/stock";
           headers := productService.getAuthHeaders b ++ productService.content_type;
           payload := JsonBody (Js.JObject [("sizeName", Js.JString sizeSold);
                                            ("newStock", Js.JNumber (negate quantitySold));
                                            ("action", Js.JString "sell")]) |}
        (network b) = (s', Js.Ok response) ->
  ok response = true ->
  (status response = 204 ->
   productService.updateStock productId sizeSold quantitySold b
     = (after b s', Js.Throw no_success)) /\
  (forall fields,
     status response <> 204 ->
     Js.JSON_parse (body response) = Js.Ok (Js.JObject fields) ->
     productService.updateStock productId sizeSold quantitySold b
       = (after b s',
          Js.Ok match Js.own_property "success" fields with
                | Some Js.JNull | None =>
                    Js.JBool (truthy_json (Js.own_property "product" fields))
                | Some success => success
                end)).
Proof.
  intros Hf Hok. unfold productService.updateStock.
  rewrite (call_response _ _ _ _ Hf). split.
  - intros Hs. now rewrite (handleApiResponse_no_content _ Hs).
  - intros fields Hs Hparse. unfold productService.handleApiResponse.
    rewrite Hok. cbn [negb]. apply Nat.eqb_neq in Hs. rewrite Hs, Hparse. cbn.
    now destruct (Js.own_property "success" fields) as [[]|].
Qed.

Lemma getAuthHeaders_setItem (token : string) (b : browser Net) :
  token <> "" ->
  productService.getAuthHeaders (setItem "authToken" token b)
    = [("Authorization", "Bearer " +:+ token)].
Proof.
  intros Hne. unfold productService.getAuthHeaders, setItem. cbn.
  rewrite lookup_insert_eq. cbn. apply nonempty_true in Hne. now rewrite Hne.
Qed.

(** X20: a login that the server answers with a token and a user stores the
    token, and the requests that follow carry it; any other outcome
    leaves the storage as it was. *)
Theorem login_stores_the_token (username passwordInput : string) (b : browser Net) :
  (forall s' response fields token user,
     fetch {| method := "POST";
              url := productService.API_BASE_URL +:+ "/auth/login";
              headers := productService.content_type;
              payload := JsonBody (Js.JObject [("username", Js.JString username);
                                               ("password", Js.JString passwordInput)]) |}
           (network b) = (s', Js.Ok response) ->
     ok response = true -> status response <> 204 ->
     Js.JSON_parse (body response) = Js.Ok (Js.JObject fields) ->
     Js.own_property "token" fields = Some (Js.JString token) -> token <> "" ->
     Js.own_property "user" fields = Some user -> truthy_json (Some user) = true ->
     productService.authenticateUser username passwordInput b
       = (setItem "authToken" token (after b s'), Js.Ok user) /\
     productService.getAuthHeaders (setItem "authToken" token (after b s'))
       = [("Authorization", "Bearer " +:+ token)]) /\
  (forall b' r,
     productService.authenticateUser username passwordInput b = (b', r) ->
     localStorage b' = localStorage b \/
     exists user token, r = Js.Ok user /\ truthy_json (Some user) = true /\
                        localStorage b' = <["authToken" := token]> (localStorage b)).
Proof.
  split.
  - intros s' response fields token user Hf Hok H204 Hparse Htok Hne Huser Htruthy.
    split; [| now apply getAuthHeaders_setItem].
    unfold productService.authenticateUser.
    rewrite (call_response _ _ _ _ Hf).
    unfold productService.handleApiResponse. rewrite Hok. cbn [negb].
    apply Nat.eqb_neq in H204. rewrite H204, Hparse. cbn.
    rewrite Htok, Huser. cbn. apply nonempty_true in Hne. rewrite Hne. cbn.
    cbn in Htruthy. now rewrite Htruthy.
  - intros b' r. unfold productService.authenticateUser, productService.call.
    destruct (fetch _ _) as [s' [response|e]].
    + destruct (productService.handleApiResponse response) as [data|e].
      * destruct (negb (truthy_json (Some data))); [intros [= <- <-]; now left |].
        destruct (Js.get data "token") as [token|e]; [| intros [= <- <-]; now left].
        destruct (truthy_json token) eqn:Htok; cbn [negb]; [| intros [= <- <-]; now left].
        destruct (Js.get data "user") as [user|e]; [| intros [= <- <-]; now left].
        destruct (truthy_json user) eqn:Huser; cbn [negb]; [| intros [= <- <-]; now left].
        intros [= <- <-]. right.
        destruct user as [user|]; [| discriminate].
        destruct token as [token|]; [| discriminate].
        exists user, (ToString token). now repeat split.
      * intros [= <- <-]. now left.
    + intros [= <- <-]. now left.
Qed.
End ServiceProperties.

Section SessionProperties.
Import Fetch.
Context {Net : Type} `{Network Net}.

(** X21: the check of the session either leaves the storage alone and
    returns the answer, or returns [null] with the token and the user
    removed, after which no request carries a token; the latter whenever
    the request is rejected or answered outside 200-299. *)
Theorem failed_session_check_logs_out (b : browser Net) :
  (localStorage (fst (productService.fetchCurrentUser b)) = localStorage b \/
   snd (productService.fetchCurrentUser b) = Js.JNull /\
   localStorage (fst (productService.fetchCurrentUser b))
     = delete "currentUser" (delete "authToken" (localStorage b)) /\
   productService.getAuthHeaders (fst (productService.fetchCurrentUser b)) = []) /\
  (forall s' r,
     fetch {| method := "GET"; url := productService.API_BASE_URL +:+ "/auth/me";
              headers := productService.getAuthHeaders b; payload := NoBody |}
           (network b) = (s', r) ->
     match r with Js.Ok response => ok response = false | Js.Throw _ => True end ->
     snd (productService.fetchCurrentUser b) = Js.JNull /\
     localStorage (fst (productService.fetchCurrentUser b)) !! "authToken" = None /\
     localStorage (fst (productService.fetchCurrentUser b)) !! "currentUser" = None).
Proof.
  assert (Hout : forall b' : browser Net,
    productService.getAuthHeaders (removeItem "currentUser" (removeItem "authToken" b'))
      = []).
  { intros b'. unfold productService.getAuthHeaders, removeItem. cbn.
    rewrite lookup_delete_ne by discriminate. now rewrite lookup_delete_eq. }
  split.
  - unfold productService.fetchCurrentUser.
    destruct (productService.call _ b) as [b' [user|e]] eqn:Hc.
    + left. unfold productService.call in Hc.
      destruct (fetch _ _) as [s' [response|e]]; now injection Hc as <- _.
    + right. split; [reflexivity |]. split; [| apply Hout].
      unfold productService.call in Hc.
      destruct (fetch _ _) as [s' [response|e']]; now injection Hc as <- _.
  - intros s' r Hf Hr. unfold productService.fetchCurrentUser, productService.call.
    rewrite Hf. destruct r as [response|e].
    + destruct (handleApiResponse_not_ok response Hr) as (e & ->). cbn.
      split; [reflexivity |]. split.
      * rewrite lookup_delete_ne by discriminate. apply lookup_delete_eq.
      * apply lookup_delete_eq.
    + cbn. split; [reflexivity |]. split.
      * rewrite lookup_delete_ne by discriminate. apply lookup_delete_eq.
      * apply lookup_delete_eq.
Qed.

Variable as_categories : Js.json -> list Category.
Variable as_manufacturers : Js.json -> list Manufacturer.
Variable as_products : Js.json -> list Product.

(** X22: the message of the server's error body is what the import reports
    for the row: a validated row with a new code whose POST is answered
    outside 200-299 with a body [{"message": m}] leaves the entry
    "Row n (Code: c): Error processing - m" and no count. *)
Theorem server_message_reaches_the_report (ix : CatalogIndex) (i : nat)
    (row : gmap string cell) (st : pass (browser Net)) (warning : option string)
    (d : ProductFormData) (s' : Net) (response : Response)
    (fields : list (string * Js.json)) (m : string) :
  let service := productService.remote as_categories as_manufacturers as_products in
  parse_row ix (i + 2) row = Parsed warning d ->
  productCodeMap ix !! Js.toLowerCase (pd_code d) = None ->
  fetch {| method := "POST"; url := productService.API_BASE_URL +:+ "/products";
           headers := productService.getAuthHeaders (world st)
                      ++ productService.content_type;
           payload := FormBody d |} (network (world st)) = (s', Js.Ok response) ->
  ok response = false ->
  Js.JSON_parse (body response) = Js.Ok (Js.JObject fields) ->
  Js.own_property "message" fields = Some (Js.JString m) -> m <> "" ->
  @process_row _ service ix i row st =
    {| importedCount := importedCount st; updatedCount := updatedCount st;
       errors := push warning (errors st)
                 ++ [row_label (i + 2) +:+ " (Code: " +:+ pd_code d
                     +:+ "): Error processing - " +:+ m];
       calls := calls st ++ [AddProduct d];
       world := after (world st) s' |}.
Proof.
  intros service Hp Hcode Hf Hok Hparse Hm Hne.
  unfold process_row. rewrite Hp. unfold mutation_for. rewrite Hcode.
  cbn [perform]. unfold addProductAdmin. cbn [post_product service productService.remote].
  unfold productService.addProductAdmin. rewrite (call_response _ _ _ _ Hf).
  now rewrite (handleApiResponse_message response fields m Hok Hparse Hm Hne).
Qed.

End SessionProperties.

(** ** The bulk operations and the users page *)

Lemma bulk_report_success (done_word failed_word nothing_done : string)
    (n : nat) (errs : list string) (pg : page) :
  successMessage pg = None ->
  (successMessage (bulk_report done_word failed_word nothing_done n errs pg) <> None
   <-> errs = [] /\ 0 < n).
Proof.
  intros Hs. unfold bulk_report.
  destruct errs as [|e errs]; cbn.
  - destruct n; cbn.
    + rewrite Hs. split; [congruence | lia].
    + split; [intros _; split; [reflexivity | lia] | discriminate].
  - rewrite Hs. split; [congruence | intros [? _]; discriminate].
Qed.

(** What [MessageDisplay] shows after the report of a bulk operation on a
    page without messages. *)
Lemma bulk_report_shown (done_word failed_word nothing_done : string)
    (n : nat) (errs : list string) (pg : page) :
  actionError pg = None -> successMessage pg = None -> nothing_done <> "" ->
  let shown := MessageDisplay (bulk_report done_word failed_word nothing_done n errs pg) in
  (errs = [] /\ 0 < n ->
     shown = Some (SuccessBanner (Js.string_of_nat n +:+ " product(s) " +:+ done_word
                                  +:+ " successfully. "))) /\
  (~ (errs = [] /\ 0 < n) -> exists msg, shown = Some (ErrorBanner msg)).
Proof.
  intros Ha Hs Hnd shown. subst shown. unfold bulk_report, MessageDisplay. split.
  - intros [-> Hpos]. destruct n as [|n]; [lia |].
    change (0 <? S n)%nat with true. cbv iota.
    cbn [setSuccessMessage actionError successMessage truthy_id]. rewrite Ha.
    cbn [truthy_id]. now rewrite !nonempty_append_r by reflexivity.
  - intros Hno. destruct errs as [|e errs].
    + destruct n as [|n]; [| exfalso; apply Hno; split; [reflexivity | lia]].
      change (0 <? 0)%nat with false. cbv iota.
      cbn [setActionError actionError truthy_id].
      apply nonempty_true in Hnd. rewrite Hnd. eauto.
    + cbn [setActionError actionError truthy_id].
      rewrite nonempty_append_r; [eauto |].
      apply nonempty_append_r. reflexivity.
Qed.

Lemma MessageDisplay_setProducts (ps : list Product) (pg : page) :
  MessageDisplay (setProducts ps pg) = MessageDisplay pg.
Proof. reflexivity. Qed.

Lemma MessageDisplay_setActionError (msg : string) (pg : page) :
  msg <> "" -> MessageDisplay (setActionError msg pg) = Some (ErrorBanner msg).
Proof.
  intros Hne. unfold MessageDisplay. cbn [setActionError actionError truthy_id].
  apply nonempty_true in Hne. now rewrite Hne.
Qed.

Section HandlerProperties.
Import Fetch.
Context {Net : Type} `{Network Net}.
Variable t : string -> list (string * string) -> string.
Variable as_categories : Js.json -> list Category.
Variable as_manufacturers : Js.json -> list Manufacturer.
Variable as_products : Js.json -> list Product.

(** The refresh replaces the list, or sets its own error. *)
Lemma refresh_cases (pg : page) (b : browser Net) :
  refresh t as_categories as_manufacturers as_products pg b =
    match productService.fetchAllProductsAdmin b with
    | (b', Js.Ok v) => (setProducts (as_products v) pg, b')
    | (b', Js.Throw _) => (setActionError (failed_to_load_products t) pg, b')
    end.
Proof.
  unfold refresh, loadProducts. cbn [get_products_admin productService.remote].
  now destruct (productService.fetchAllProductsAdmin b) as [b' [v|e]].
Qed.

(** What the page shows after a bulk report and the refresh. *)
Lemma bulk_outcome_shown (done_word failed_word nothing_done : string)
    (n : nat) (errs : list string) (pg : page) (b1 : browser Net) :
  nothing_done <> "" ->
  let shown :=
    MessageDisplay
      (fst (refresh t as_categories as_manufacturers as_products
              (bulk_report done_word failed_word nothing_done n errs (clearMessages pg))
              b1)) in
  (forall b2 v, productService.fetchAllProductsAdmin b1 = (b2, Js.Ok v) ->
     (errs = [] /\ 0 < n -> exists msg, shown = Some (SuccessBanner msg)) /\
     (~ (errs = [] /\ 0 < n) -> exists msg, shown = Some (ErrorBanner msg))) /\
  (forall b2 e, productService.fetchAllProductsAdmin b1 = (b2, Js.Throw e) ->
     failed_to_load_products t <> "" ->
     shown = Some (ErrorBanner (failed_to_load_products t))).
Proof.
  intros Hnd shown. subst shown. rewrite refresh_cases.
  destruct (bulk_report_shown done_word failed_word nothing_done n errs
              (clearMessages pg) eq_refl eq_refl Hnd) as [Hyes Hno].
  split.
  - intros b2 v ->. cbn [fst]. rewrite MessageDisplay_setProducts. split.
    + intros Hall. eexists. now apply Hyes.
    + exact Hno.
  - intros b2 e -> Hne. cbn [fst]. now apply MessageDisplay_setActionError.
Qed.

Lemma refresh_messages (pg : page) (b : browser Net) :
  successMessage (fst (refresh t as_categories as_manufacturers as_products pg b))
    = successMessage pg.
Proof.
  unfold refresh, loadProducts.
  now destruct (get_products_admin b) as [b' [ps|e]].
Qed.

Lemma delete_each_accounting (ids : list string) :
  forall (n : nat) (errs : list string) (b : browser Net),
  exists k new b',
    delete_each ids n errs b = (n + k, errs ++ new, b') /\
    k + length new = length ids /\
    Forall (starts_with "Product ID ") new.
Proof.
  induction ids as [|i ids IH]; intros n errs b; cbn [delete_each].
  - exists 0, [], b. rewrite Nat.add_0_r, app_nil_r. repeat split. constructor.
  - destruct (productService.deleteProductAdmin i b) as [b' [success|e]].
    + destruct (truthy_json success).
      * destruct (IH (S n) errs b') as (k & new & b'' & -> & Hk & Hf).
        exists (S k), new, b''. cbn. repeat split; [f_equal; f_equal; lia | lia | assumption].
      * destruct (IH n (errs ++ [not_deleted i]) b') as (k & new & b'' & -> & Hk & Hf).
        exists k, (not_deleted i :: new), b''. rewrite <- app_assoc. cbn.
        repeat split; [lia |]. constructor; [apply starts_with_append | assumption].
    + destruct (IH n (errs ++ [bulk_failure i e]) b') as (k & new & b'' & -> & Hk & Hf).
      exists k, (bulk_failure i e :: new), b''. rewrite <- app_assoc. cbn.
      repeat split; [lia |]. constructor; [apply starts_with_append | assumption].
Qed.

(** X23: a confirmed bulk delete asks the service once for every selected
    id: each one is counted as deleted or leaves one entry that names
    it, and the selection is emptied in any case.  The success message
    is set exactly when every one was confirmed.  When the refresh that
    follows succeeds, the page shows that success message, or an error
    when some id was not confirmed; when the refresh fails, the page
    shows the error of the refresh. *)
Theorem bulk_delete_accounting (selectedProductIds : list string) (pg : page)
    (b : browser Net) :
  selectedProductIds <> [] ->
  exists successCount errs b1,
    delete_each selectedProductIds 0 [] b = (successCount, errs, b1) /\
    successCount + length errs = length selectedProductIds /\
    Forall (starts_with "Product ID ") errs /\
    let out := handleBulkDeleteSelected t as_categories as_manufacturers as_products
                 true selectedProductIds pg b in
    let shown := MessageDisplay (fst (fst out)) in
    snd (fst out) = [] /\
    (successMessage (fst (fst out)) <> None
     <-> successCount = length selectedProductIds) /\
    (forall b2 v, productService.fetchAllProductsAdmin b1 = (b2, Js.Ok v) ->
       (successCount = length selectedProductIds ->
          exists msg, shown = Some (SuccessBanner msg)) /\
       (successCount <> length selectedProductIds ->
          exists msg, shown = Some (ErrorBanner msg))) /\
    (forall b2 e, productService.fetchAllProductsAdmin b1 = (b2, Js.Throw e) ->
       failed_to_load_products t <> "" ->
       shown = Some (ErrorBanner (failed_to_load_products t))).
Proof.
  intros Hne.
  destruct (delete_each_accounting selectedProductIds 0 [] b)
    as (k & new & b1 & Hd & Hk & Hf).
  exists k, new, b1. cbn in Hd. split; [exact Hd |]. split; [exact Hk |].
  split; [exact Hf |]. cbv zeta. unfold handleBulkDeleteSelected.
  destruct selectedProductIds as [|i ids]; [congruence |].
  rewrite Hd.
  destruct (refresh _ _ _ _ _ b1) as [pg2 b2] eqn:Hr. cbn [fst snd].
  split; [reflexivity |].
  replace pg2 with (fst (refresh t as_categories as_manufacturers as_products
    (bulk_report (Js.toLowerCase (t "common.delete" [("count", Js.string_of_nat k)]))
       "delete"
       "Bulk deletion processed, but no products were confirmed deleted by the server."
       k new (clearMessages pg)) b1)) by now rewrite Hr.
  assert (Hall : new = [] /\ 0 < k <-> k = length (i :: ids)).
  { cbn [length] in *. split.
    - intros [-> Hpos]. cbn in Hk. lia.
    - intros ->. destruct new; [split; [reflexivity | lia] | cbn in Hk; lia]. }
  split; [now rewrite refresh_messages, bulk_report_success by reflexivity |].
  destruct (bulk_outcome_shown
              (Js.toLowerCase (t "common.delete" [("count", Js.string_of_nat k)]))
              "delete"
              "Bulk deletion processed, but no products were confirmed deleted by the server."
              k new pg b1 ltac:(discriminate)) as [Hok Hfail].
  split.
  - intros b3 v Hget. destruct (Hok b3 v Hget) as [Hyes Hno]. split.
    + intros Hc. now apply Hyes, Hall.
    + intros Hc. apply Hno. now rewrite Hall.
  - exact Hfail.
Qed.

(** X24: without a selection, or without the confirmation, nothing is asked
    of the service and the selection stays; an empty selection is an
    error of its own. *)
Theorem bulk_delete_asks_first (confirmed : bool) (selectedProductIds : list string)
    (pg : page) (b : browser Net) :
  let out := handleBulkDeleteSelected t as_categories as_manufacturers as_products
               confirmed selectedProductIds pg b in
  (selectedProductIds = [] \/ confirmed = false ->
   snd out = b /\ snd (fst out) = selectedProductIds /\
   products (fst (fst out)) = products pg /\ successMessage (fst (fst out)) = None) /\
  (selectedProductIds = [] ->
   actionError (fst (fst out))
     = Some (t "placeholders.noData" [] +:+ " selected for deletion.")).
Proof.
  cbv zeta. unfold handleBulkDeleteSelected. split.
  - intros [-> | ->]; [now repeat split |].
    destruct selectedProductIds; now repeat split.
  - intros ->. reflexivity.
Qed.

Lemma delete_each_no_content (ids : list string) :
  (forall request s, method request = "DELETE" ->
     exists s' response, fetch request s = (s', Js.Ok response) /\ status response = 204) ->
  forall (n : nat) (errs : list string) (b : browser Net),
  exists b', delete_each ids n errs b
             = (n, errs ++ map (fun i => bulk_failure i no_success) ids, b').
Proof.
  intros Hnet. induction ids as [|i ids IH]; intros n errs b; cbn [delete_each].
  - exists b. now rewrite app_nil_r.
  - unfold productService.deleteProductAdmin.
    destruct (Hnet {| method := "DELETE";
                      url := productService.API_BASE_URL +:+ "/products/" +:+ i;
                      headers := productService.getAuthHeaders b; payload := NoBody |}
                   (network b) eq_refl) as (s' & response & Hf & Hs).
    rewrite (deleted_no_content _ _ _ _ Hf Hs).
    destruct (IH n (errs ++ [bulk_failure i no_success]) (after b s')) as [b' ->].
    exists b'. now rewrite <- app_assoc.
Qed.

(** X25: when the server answers every DELETE with 204 No Content, a bulk
    delete counts no product as deleted and reports each selected id
    with the [TypeError] of reading the empty answer. *)
Theorem no_content_bulk_delete (selectedProductIds : list string) (pg : page)
    (b : browser Net) :
  (forall request s, method request = "DELETE" ->
     exists s' response, fetch request s = (s', Js.Ok response) /\ status response = 204) ->
  selectedProductIds <> [] ->
  (exists b1, delete_each selectedProductIds 0 [] b
     = (0, map (fun i => "Product ID " +:+ i
                         +:+ ": Cannot read properties of null (reading 'success')")
               selectedProductIds, b1)) /\
  successMessage
    (fst (fst (handleBulkDeleteSelected t as_categories as_manufacturers as_products
                 true selectedProductIds pg b))) = None.
Proof.
  intros Hnet Hne.
  destruct (delete_each_no_content selectedProductIds Hnet 0 [] b) as [b1 Hd].
  cbn [app] in Hd. split; [now exists b1 |].
  unfold handleBulkDeleteSelected.
  destruct selectedProductIds as [|i ids]; [congruence |].
  rewrite Hd. destruct (refresh _ _ _ _ _ b1) as [pg2 b2] eqn:Hr. cbn [fst].
  replace pg2 with (fst (refresh t as_categories as_manufacturers as_products
    (bulk_report (Js.toLowerCase (t "common.delete" [("count", Js.string_of_nat 0)]))
       "delete"
       "Bulk deletion processed, but no products were confirmed deleted by the server."
       0 (map (fun i => bulk_failure i no_success) (i :: ids)) (clearMessages pg)) b1))
    by now rewrite Hr.
  now rewrite refresh_messages.
Qed.

Lemma edit_each_accounting (updates : BulkUpdates) (known : list Product)
    (ids : list string) :
  forall (n : nat) (errs : list string) (b : browser Net),
  exists k new b',
    edit_each updates known ids n errs b = (n + k, errs ++ new, b') /\
    k + length new = length ids /\
    Forall (starts_with "Product ID ") new.
Proof.
  induction ids as [|i ids IH]; intros n errs b; cbn [edit_each].
  - exists 0, [], b. rewrite Nat.add_0_r, app_nil_r. repeat split. constructor.
  - assert (Hfail : forall msg b0, starts_with "Product ID " msg ->
      exists k new b',
        edit_each updates known ids n (errs ++ [msg]) b0 = (n + k, errs ++ new, b') /\
        k + length new = S (length ids) /\ Forall (starts_with "Product ID ") new).
    { intros msg b0 Hmsg.
      destruct (IH n (errs ++ [msg]) b0) as (k & new & b'' & -> & Hk & Hf).
      exists k, (msg :: new), b''. rewrite <- app_assoc. cbn.
      repeat split; [lia |]. now constructor. }
    destruct (List.find _ known) as [p|]; [| apply Hfail, starts_with_append].
    destruct (productService.updateProductAdmin _ b) as [b' [updated|e]];
      [| apply Hfail, starts_with_append].
    destruct (truthy_json (Some updated)); [| apply Hfail, starts_with_append].
    destruct (IH (S n) errs b') as (k & new & b'' & -> & Hk & Hf).
    exists (S k), new, b''. cbn. repeat split; [f_equal; f_equal; lia | lia | assumption].
Qed.

Lemma edit_each_unknown (updates : BulkUpdates) (known : list Product)
    (ids : list string) :
  Forall (fun i => forall p, p ∈ known -> id p <> i) ids ->
  forall (n : nat) (errs : list string) (b : browser Net),
  edit_each updates known ids n errs b
    = (n, errs ++ map not_found_for_update ids, b).
Proof.
  induction 1 as [|i ids Hi _ IH]; intros n errs b; cbn [edit_each].
  - now rewrite app_nil_r.
  - destruct (List.find _ known) as [p|] eqn:Hfind.
    + apply List.find_some in Hfind as [Hin Heq].
      apply String.eqb_eq in Heq. apply list_elem_of_In in Hin.
      now destruct (Hi p Hin).
    + rewrite IH. now rewrite <- app_assoc.
Qed.

(** X26: the bulk edit accounts for every selected id and empties the
    selection.  The success message is set exactly when something was
    selected and every update returned data.  When the refresh that
    follows succeeds, the page shows that success message, or an error
    otherwise; when the refresh fails, the page shows the error of the
    refresh.  An id that is not in the product list is reported without
    a request, and the product data sent is the product's own, but for
    the fields the form sets. *)
Theorem bulk_edit_accounting (updates : BulkUpdates) (selectedProductIds : list string)
    (pg : page) (b : browser Net) :
  (exists successCount errs b1,
     edit_each updates (products pg) selectedProductIds 0 [] b
       = (successCount, errs, b1) /\
     successCount + length errs = length selectedProductIds /\
     Forall (starts_with "Product ID ") errs /\
     let out := handleBulkEditSave t as_categories as_manufacturers as_products
                  updates selectedProductIds pg b in
     let shown := MessageDisplay (fst (fst out)) in
     let all_updated :=
       selectedProductIds <> [] /\ successCount = length selectedProductIds in
     snd (fst out) = [] /\
     (successMessage (fst (fst out)) <> None <-> all_updated) /\
     (forall b2 v, productService.fetchAllProductsAdmin b1 = (b2, Js.Ok v) ->
        (all_updated -> exists msg, shown = Some (SuccessBanner msg)) /\
        (~ all_updated -> exists msg, shown = Some (ErrorBanner msg))) /\
     (forall b2 e, productService.fetchAllProductsAdmin b1 = (b2, Js.Throw e) ->
        failed_to_load_products t <> "" ->
        shown = Some (ErrorBanner (failed_to_load_products t)))) /\
  (Forall (fun i => forall p, p ∈ products pg -> id p <> i) selectedProductIds ->
   edit_each updates (products pg) selectedProductIds 0 [] b
     = (0, map not_found_for_update selectedProductIds, b)) /\
  (forall p, bulk_form_data {| u_categoryId := None; u_manufacturerId := None;
                               u_isVisible := None |} p
             = {| pd_id := Some (id p); pd_title := title p; pd_code := code p;
                  pd_price := price p; pd_categoryId := categoryId p;
                  pd_manufacturerId := manufacturerId p;
                  pd_sizes := stringify_sizes (sizes p); pd_image := image p;
                  pd_isVisible := isVisible p |}).
Proof.
  split; [| split; [| reflexivity]].
  - destruct (edit_each_accounting updates (products pg) selectedProductIds 0 [] b)
      as (k & new & b1 & Hd & Hk & Hf).
    exists k, new, b1. cbn in Hd. split; [exact Hd |]. split; [exact Hk |].
    split; [exact Hf |]. cbv zeta. unfold handleBulkEditSave. rewrite Hd.
    destruct (refresh _ _ _ _ _ b1) as [pg2 b2] eqn:Hr. cbn [fst snd].
    split; [reflexivity |].
    replace pg2 with (fst (refresh t as_categories as_manufacturers as_products
      (bulk_report (Js.toLowerCase (t "common.edit" [("count", Js.string_of_nat k)]))
         "update"
         "Bulk edit processed, but no products were confirmed updated by the server."
         k new (clearMessages pg)) b1)) by now rewrite Hr.
    assert (Hall : new = [] /\ 0 < k <->
                   selectedProductIds <> [] /\ k = length selectedProductIds).
    { split.
      - intros [-> Hpos]. cbn in Hk. split; [| lia].
        intros ->. cbn in Hk. lia.
      - intros [Hne ->]. destruct new; [| cbn in Hk; lia].
        split; [reflexivity |]. destruct selectedProductIds; [congruence | cbn; lia]. }
    split; [now rewrite refresh_messages, bulk_report_success by reflexivity |].
    destruct (bulk_outcome_shown
                (Js.toLowerCase (t "common.edit" [("count", Js.string_of_nat k)]))
                "update"
                "Bulk edit processed, but no products were confirmed updated by the server."
                k new pg b1 ltac:(discriminate)) as [Hok Hfail].
    split.
    + intros b3 v Hget. destruct (Hok b3 v Hget) as [Hyes Hno]. split.
      * intros Hc. now apply Hyes, Hall.
      * intros Hc. apply Hno. now rewrite Hall.
    + exact Hfail.
  - intros Hunknown. now rewrite edit_each_unknown.
Qed.

(** X27: a single delete refreshes the list only when the service confirmed
    it; otherwise the list stays and an error is set. *)
Theorem delete_refreshes_on_success (confirmed : bool) (productId : string) (pg : page)
    (b : browser Net) :
  let out := handleDeleteProduct t as_categories as_manufacturers as_products
               confirmed productId pg b in
  (confirmed = false -> out = (clearMessages pg, b)) /\
  (forall b' r,
     confirmed = true ->
     productService.deleteProductAdmin productId b = (b', r) ->
     match r with
     | Js.Ok success =>
         if truthy_json success then
           exists msg, out = refresh t as_categories as_manufacturers as_products
                                     (setSuccessMessage msg (clearMessages pg)) b'
         else snd out = b' /\ products (fst out) = products pg /\
              successMessage (fst out) = None /\ actionError (fst out) <> None
     | Js.Throw e =>
         snd out = b' /\ products (fst out) = products pg /\
         successMessage (fst out) = None /\
         exists pre, actionError (fst out) = Some (pre +:+ ": " +:+ Js.err_message e)
     end).
Proof.
  cbv zeta. unfold handleDeleteProduct. split; [now intros -> |].
  intros b' r -> ->. destruct r as [success|e].
  - destruct (truthy_json success); [eexists; reflexivity | now repeat split].
  - repeat split. eexists. reflexivity.
Qed.

End HandlerProperties.

Section UserProperties.
Import Fetch.
Context {Net : Type} `{Network Net}.
Variable t : string -> list (string * string) -> string.
Variable as_users : Js.json -> list User.

(** X28: deleting a user: the user who is logged in is refused before any
    question or request; and whatever happens, no success message is
    left, since the reload of the list clears the one just set. *)
Theorem user_delete_outcomes (currentUser : User) (confirmed : bool)
    (userId username_ : string) (pg : users_page) (b : browser Net) :
  let out := handleDeleteUser t as_users currentUser confirmed userId username_ pg b in
  users_successMessage (fst out) = None /\
  (user_id currentUser = userId ->
   out = ({| users := users pg;
             users_actionError := Some (t "userManagement.errorSelfDelete" []);
             users_successMessage := None |}, b)).
Proof.
  cbv zeta. unfold handleDeleteUser. split.
  - destruct (String.eqb _ _); [reflexivity |].
    destruct confirmed; [| reflexivity].
    destruct (productService.deleteUserAdmin userId b) as [b' [success|e]];
      [| reflexivity].
    destruct (truthy_json success); [| reflexivity].
    unfold loadUsers. now destruct (productService.fetchUsersAdmin b') as [b'' [us|e]].
  - intros ->. now rewrite String.eqb_refl.
Qed.

End UserProperties.

(** ** The inventory summary *)

Lemma length_filter_disjoint {A : Type} (f g : A -> bool) (l : list A) :
  (forall x, f x = true -> g x = false) ->
  length (List.filter f l) + length (List.filter g l) <= length l.
Proof.
  intros Hfg. induction l as [|x l IH]; cbn [List.filter length]; [lia |].
  destruct (f x) eqn:Hf.
  - rewrite (Hfg x Hf). cbn [length]. lia.
  - destruct (g x); cbn [length]; lia.
Qed.

Lemma length_filter_cover {A : Type} (f g : A -> bool) (l : list A) :
  (forall x, f x = true -> g x = false) ->
  Forall (fun x => f x || g x = true) l ->
  length (List.filter f l) + length (List.filter g l) = length l.
Proof.
  intros Hfg Hall. induction Hall as [|x l Hx _ IH]; cbn [List.filter length]; [lia |].
  destruct (f x) eqn:Hf.
  - rewrite (Hfg x Hf). cbn [length]. lia.
  - cbn in Hx. rewrite Hx. cbn [length]. lia.
Qed.

Lemma length_filter_sub {A : Type} (f g : A -> bool) (l : list A) :
  (forall x, f x = true -> g x = true) ->
  length (List.filter f l) <= length (List.filter g l).
Proof.
  intros Hfg. induction l as [|x l IH]; cbn [List.filter length]; [lia |].
  destruct (f x) eqn:Hf.
  - rewrite (Hfg x Hf). cbn [length]. lia.
  - destruct (g x); cbn [length]; lia.
Qed.

Lemma in_stock_not_out (p : Product) : in_stock p = true -> out_of_stock p = false.
Proof.
  unfold in_stock, out_of_stock, number_eq. intros ->.
  now rewrite andb_false_r.
Qed.

(** X30: the four cards count the lists shown under the four filters;
    the low stock products are among those in stock; a product is never
    both in stock and out of stock, and the two cards add up to the
    total exactly when no stock is [NaN] or below zero. *)
Theorem inventory_summary (searchTermInventory : string) (products : list Product) :
  let s := inventorySummary searchTermInventory products in
  let shown f := length (filteredInventoryProducts f searchTermInventory products) in
  (totalProducts s = shown FAll /\ productsInStockCount s = shown FInStock /\
   lowStockCount s = shown FLowStock /\ outOfStockCount s = shown FOutOfStock) /\
  lowStockCount s <= productsInStockCount s /\
  productsInStockCount s + outOfStockCount s <= totalProducts s /\
  (Forall (fun p => Js.isNaN (stock_of p) = false /\
                    number_lt (stock_of p) (Js.of_nat 0) = false)
          (searchedProducts searchTermInventory products) ->
   productsInStockCount s + outOfStockCount s = totalProducts s) /\
  (forall p, p ∈ searchedProducts searchTermInventory products ->
     Js.isNaN (stock_of p) = true \/ number_lt (stock_of p) (Js.of_nat 0) = true ->
     productsInStockCount s + outOfStockCount s < totalProducts s).
Proof.
  cbv zeta. unfold inventorySummary, filteredInventoryProducts. cbn.
  split; [now repeat split |]. split; [| split; [| split]].
  - apply length_filter_sub. intros p. unfold low_stock, in_stock.
    now intros [? _]%andb_true_iff.
  - apply length_filter_disjoint, in_stock_not_out.
  - intros Hall. apply length_filter_cover; [apply in_stock_not_out |].
    eapply List.Forall_impl; [| exact Hall]. intros p [Hnan Hlt].
    unfold in_stock, out_of_stock, number_eq. rewrite Hnan, Hlt.
    now destruct (number_lt (Js.of_nat 0) (stock_of p)).
  - intros p Hp Hbad.
    induction (searchedProducts searchTermInventory products) as [|q l IH];
      [inversion Hp |].
    cbn [List.filter length].
    pose proof (length_filter_disjoint in_stock out_of_stock l in_stock_not_out).
    apply elem_of_cons in Hp as [<- | Hp].
    + assert (Hin : in_stock p = false).
      { unfold in_stock. destruct Hbad as [Hnan | Hlt].
        - destruct (stock_of p); try discriminate. reflexivity.
        - destruct (number_lt (Js.of_nat 0) (stock_of p)) eqn:E; [| reflexivity].
          apply number_lt_asym in E. congruence. }
      assert (Hout : out_of_stock p = false).
      { unfold out_of_stock, number_eq. destruct Hbad as [-> | ->]; [reflexivity |].
        now rewrite andb_false_r. }
      rewrite Hin, Hout. lia.
    + specialize (IH Hp). destruct (in_stock q) eqn:Hq.
      * rewrite (in_stock_not_out q Hq). cbn [length]. lia.
      * destruct (out_of_stock q); cbn [length]; lia.
Qed.

(** ** The check of the session *)

Section Startup.
Import Fetch.
Context {Net : Type} `{Network Net}.

Lemma handleLogout_logged_out (b : browser Net) : logged_out (handleLogout b).
Proof.
  unfold logged_out, handleLogout. cbn. split; [reflexivity |]. split.
  - apply lookup_delete_eq.
  - rewrite lookup_delete_ne by discriminate. apply lookup_delete_eq.
Qed.

Lemma fetchCurrentUser_failed (b : browser Net) (s' : Net)
    (r : Js.result Response) :
  fetch {| method := "GET"; url := productService.API_BASE_URL +:+ "/auth/me";
           headers := productService.getAuthHeaders b; payload := NoBody |}
        (network b) = (s', r) ->
  match r with Js.Ok response => ok response = false | Js.Throw _ => True end ->
  snd (productService.fetchCurrentUser b) = Js.JNull.
Proof.
  intros Hf Hr. unfold productService.fetchCurrentUser, productService.call.
  rewrite Hf. destruct r as [response|e]; [| reflexivity].
  now destruct (handleApiResponse_not_ok response Hr) as (e & ->).
Qed.

(** X18: the check of the session at start-up.  Without a stored user
    nothing happens; without a token no request is made, and a stored
    user text that parses to a value other than [null] becomes the
    current user as it is; with both, a request that is rejected or
    answered outside 200-299 ends logged out, with the token and the
    user removed from the storage. *)
Theorem session_check_outcomes (a : App) (b : browser Net) :
  (truthy_id (localStorage b !! "currentUser") = None -> checkSession a b = (a, b)) /\
  (truthy_id (localStorage b !! "authToken") = None ->
   network (snd (checkSession a b)) = network b /\
   forall storedUserString storedUser,
     truthy_id (localStorage b !! "currentUser") = Some storedUserString ->
     Js.JSON_parse storedUserString = Js.Ok storedUser ->
     (storedUser <> Js.JNull ->
      currentUser (fst (checkSession a b)) = storedUser /\
      snd (checkSession a b) = b) /\
     (storedUser = Js.JNull -> logged_out (checkSession a b))) /\
  (forall s' r,
     truthy_id (localStorage b !! "authToken") <> None ->
     truthy_id (localStorage b !! "currentUser") <> None ->
     fetch {| method := "GET"; url := productService.API_BASE_URL +:+ "/auth/me";
              headers := productService.getAuthHeaders b; payload := NoBody |}
           (network b) = (s', r) ->
     match r with Js.Ok response => ok response = false | Js.Throw _ => True end ->
     logged_out (checkSession a b)).
Proof.
  split; [| split].
  - intros Hu. unfold checkSession. rewrite Hu.
    now destruct (truthy_id (localStorage b !! "authToken")).
  - intros Ht. unfold checkSession. rewrite Ht. split.
    + destruct (truthy_id (localStorage b !! "currentUser")) as [s|]; [| reflexivity].
      destruct (Js.JSON_parse s) as [v|e]; [| reflexivity].
      now destruct (is_employee v).
    + intros s v -> ->. split.
      * intros Hv. destruct v; try congruence; cbn;
          try (split; reflexivity).
        unfold is_employee. cbn.
        destruct (Js.own_property "role" fields) as [[]|]; split; reflexivity.
      * intros ->. cbn. apply handleLogout_logged_out.
  - intros s' r Ht Hu Hf Hr. unfold checkSession.
    destruct (truthy_id (localStorage b !! "authToken")); [| congruence].
    destruct (truthy_id (localStorage b !! "currentUser")); [| congruence].
    pose proof (fetchCurrentUser_failed b s' r Hf Hr) as Hnull.
    destruct (productService.fetchCurrentUser b) as [b1 u]. cbn in Hnull. subst u.
    cbn. apply handleLogout_logged_out.
Qed.

End Startup.

(** ** Worked instances *)

Module Worked.

(** C1: a catalog of one product exports and imports as one update. *)
Lemma export_import_round_trip_witness :
  exists pg'' w' st,
    import_pass Demo.t (map (export_row Demo.t) [Demo.air])
      (clearMessages (handleExportProducts Demo.t [Demo.air] (Demo.page0 [Demo.air])).1)
      Demo.no_world = (pg'', w', Some st) /\
    updatedCount st = 1 /\ importedCount st = 0 /\ errors st = [] /\
    Forall is_update (calls st) /\ length (calls st) = 1 /\
    actionError pg'' = None /\
    successMessage pg'' = Some "Import successful! 1 products updated. ".
Proof.
  apply (export_import_round_trip Demo.t (Demo.page0 [Demo.air]) _ Demo.no_world Demo.no_world
           Demo.no_world Demo.cats Demo.mans _).
  - reflexivity.
  - reflexivity.
  - reflexivity.
  - constructor; [| constructor].
    constructor.
    1-3, 5-8: vm_compute; discriminate.
    + split; vm_compute; reflexivity.
    + repeat (constructor; [split; vm_compute; reflexivity |]). constructor.
  - constructor; [discriminate | constructor].
  - intros d w0. eexists. reflexivity.
Defined.

(** C1: a product without a picture is exported, and rejected when it
    comes back; the pass over that one row counts no update. *)
Lemma export_import_counterexample :
  exists pg' rows pg'' w' st,
    handleExportProducts Demo.t [Demo.bare] (Demo.page0 [Demo.bare]) = (pg', Some rows) /\
    length rows = 1 /\
    import_pass Demo.t rows (clearMessages pg') Demo.no_world = (pg'', w', Some st) /\
    updatedCount st = 0 /\ importedCount st = 0 /\
    errors st = [missing_required_reason 2] /\ calls st = [].
Proof.
  do 5 eexists. split; [reflexivity |]. split; [reflexivity |].
  split; [vm_compute; reflexivity |]. repeat split.
Qed.


(** C3: a row without "Price". *)
Lemma required_field_gate_witness :
  process_row Demo.ix 0 (delete "Price" Demo.plain) (start Demo.no_world)
  = {| importedCount := 0; updatedCount := 0;
       errors := [] ++ [missing_required_reason (0 + 2)];
       calls := []; world := Demo.no_world |}.
Proof.
  apply (proj2 (required_field_gate Demo.ix 0 (delete "Price" Demo.plain) (start Demo.no_world))).
  vm_compute. reflexivity.
Defined.

(** C3: the title is an empty text cell, or the code is the number 0; all
    six cells are present and not null, and the row is rejected as missing
    required fields. *)
Lemma required_field_gate_counterexample :
  let required := ["Title"; "Code"; "Price"; "Category"; "Manufacturer"; "Image URL"] in
  let untitled := <["Title" := CStr ""]> Demo.plain in
  let zero := Demo.base_row (CNum (Js.of_nat 0)) in
  Forall (fun k => present_non_null (field untitled k) = true) required /\
  parse_row Demo.ix 2 untitled = Rejected (missing_required_reason 2) /\
  Forall (fun k => present_non_null (field zero k) = true) required /\
  parse_row Demo.ix 2 zero = Rejected (missing_required_reason 2).
Proof.
  split; [repeat (constructor; [reflexivity |]); constructor |].
  split; [vm_compute; reflexivity |].
  split; [repeat (constructor; [reflexivity |]); constructor |].
  vm_compute. reflexivity.
Qed.

(** C4: one row, rejected. *)
Lemma report_policy_witness :
  report (import_rows Demo.ix 0 [delete "Title" Demo.plain] (start Demo.no_world))
         (Demo.page0 [Demo.air])
  = setActionError
      (completed_with_errors
         (import_rows Demo.ix 0 [delete "Title" Demo.plain] (start Demo.no_world)))
      (Demo.page0 [Demo.air]).
Proof.
  apply (proj2 (proj2 (report_policy Demo.t (Demo.page0 [Demo.air]) Demo.no_world
           (import_rows Demo.ix 0 [delete "Title" Demo.plain] (start Demo.no_world))))).
  vm_compute. discriminate.
Defined.

(** C4: one row inserted, one row rejected: the pass is reported through
    the error message, and no success message is set. *)
Lemma report_policy_counterexample :
  exists pg w st,
    import_pass Demo.t
      [Demo.row_with [("TotalStock", CNum (Js.of_nat 4))] (CStr "N1");
       delete "Title" Demo.plain]
      (Demo.page0 [Demo.air]) Demo.no_world = (pg, w, Some st) /\
    importedCount st = 1 /\
    successMessage pg = None /\
    actionError pg =
      Some ("Import completed with errors. 1 products imported.  See details below:"
            +:+ String "010" "- " +:+ missing_required_reason 3).
Proof.
  do 3 eexists. split; [vm_compute; reflexivity |]. repeat split.
Qed.

(** C5: "Is Visible" holds "YES". *)
Lemma isVisible_of_row_witness :
  pd_isVisible (Demo.plain_data "[]" true) = true <->
    truthy (field (Demo.row_with [("Is Visible", CStr "YES")] (CStr "N1")) "Is Visible")
      = false \/
    Js.toLowerCase
      (String_ (field (Demo.row_with [("Is Visible", CStr "YES")] (CStr "N1"))
                  "Is Visible")) = "yes" \/
    Js.toLowerCase
      (String_ (field (Demo.row_with [("Is Visible", CStr "YES")] (CStr "N1"))
                  "Is Visible")) = "true".
Proof.
  apply (isVisible_of_row Demo.ix 2
           (Demo.row_with [("Is Visible", CStr "YES")] (CStr "N1"))
           (Some (no_sizes_warning 2)) (Demo.plain_data "[]" true)).
  vm_compute. reflexivity.
Defined.

(** C5: "Is Visible" holds "no", which is not an affirmative token; the
    record is not visible. *)
Lemma isVisible_counterexample :
  let row := Demo.row_with [("Is Visible", CStr "no")] (CStr "N1") in
  affirmative (field row "Is Visible") = false /\
  parse_row Demo.ix 2 row = Parsed (Some (no_sizes_warning 2)) (Demo.plain_data "[]" false) /\
  pd_isVisible (Demo.plain_data "[]" false) = false.
Proof. vm_compute. repeat split. Qed.

(** C6: an unknown category. *)
Lemma unresolved_reference_witness :
  Js.contains (not_found_reason (0 + 2) "Category" (CStr "hats")) "hats" /\
  process_row Demo.ix 0 (<["Category" := CStr "hats"]> Demo.plain) (start Demo.no_world)
  = {| importedCount := 0; updatedCount := 0;
       errors := [] ++ [not_found_reason (0 + 2) "Category" (CStr "hats")];
       calls := []; world := Demo.no_world |}.
Proof.
  pose proof (unresolved_reference_stops_row Demo.ix 0
                (<["Category" := CStr "hats"]> Demo.plain) (start Demo.no_world)) as H.
  specialize (H ltac:(vm_compute; reflexivity)).
  cbv zeta in H. destruct H as [H _].
  specialize (H ltac:(vm_compute; reflexivity)).
  vm_compute in H. vm_compute. exact H.
Defined.

(** C6: category and manufacturer are both unknown and the price is not a
    number; the row leaves the category reason and no other. *)
Lemma unresolved_reference_counterexample :
  let row :=
    <["Category" := CStr "hats"]>
      (<["Manufacturer" := CStr "Puma"]> (<["Price" := CStr "free"]> Demo.plain)) in
  truthy_id (manufacturerMap Demo.ix
               !! Js.toLowerCase (String_ (field row "Manufacturer"))) = None /\
  errors (process_row Demo.ix 0 row (start Demo.no_world))
  = [Demo.qq "Row 2: Category 'hats' not found."].
Proof. vm_compute. split; reflexivity. Qed.

(** C7: a payload of one well-formed element. *)
Lemma structured_payload_witness :
  let row := Demo.payload_row (Demo.qq "[{'size':'M','stock':3}]") in
  exists d,
    parse_row Demo.ix (0 + 2) row = Parsed None d /\
    pd_sizes d = trimmed row "SizesStockJSON" /\
    calls (process_row Demo.ix 0 row (start Demo.no_world)) = [] ++ [mutation_for Demo.ix d].
Proof.
  refine (proj1 (structured_payload Demo.ix 0
                   (Demo.payload_row (Demo.qq "[{'size':'M','stock':3}]")) (start Demo.no_world) _ _) _).
  - vm_compute. repeat split; eauto.
  - vm_compute. discriminate.
  - eexists. split; [vm_compute; reflexivity |].
    constructor; [| constructor].
    eexists _, _, _. repeat split; reflexivity.
Defined.

(** C7: the size is the empty string and the stock is one and a half; the
    payload is not what the specification asks for, and the row is
    validated and inserted. *)
Lemma structured_payload_counterexample :
  let payload := Demo.qq "[{'size':'','stock':1.5}]" in
  claimed_payload_ok payload = false /\
  parse_row Demo.ix 2 (Demo.payload_row payload) = Parsed None (Demo.plain_data payload true) /\
  calls (process_row Demo.ix 0 (Demo.payload_row payload) (start Demo.no_world))
  = [AddProduct (Demo.plain_data payload true)].
Proof. vm_compute. repeat split. Qed.

(** C8: three sizes and two stocks. *)
Lemma parallel_columns_witness :
  process_row Demo.ix 0 (Demo.parallel_row "S,M,L" "1,2") (start Demo.no_world)
  = {| importedCount := 0; updatedCount := 0;
       errors := [] ++ [mismatch_reason (0 + 2) 3 2];
       calls := []; world := Demo.no_world |}.
Proof.
  refine (proj1 (proj2 (parallel_columns Demo.ix 0 (Demo.parallel_row "S,M,L" "1,2")
                          (start Demo.no_world) _ _ _)) _ _).
  - vm_compute. reflexivity.
  - vm_compute. discriminate.
  - vm_compute. discriminate.
  - vm_compute. repeat split; eauto.
  - vm_compute. discriminate.
Defined.

(** C9: no size column at all. *)
Lemma no_size_data_fallback_witness :
  let st' := process_row Demo.ix 0 Demo.plain (start Demo.no_world) in
  exists d,
    parse_row Demo.ix (0 + 2) Demo.plain = Parsed (Some (no_sizes_warning (0 + 2))) d /\
    pd_sizes d = "[]" /\
    calls st' = [] ++ [mutation_for Demo.ix d] /\
    match perform (mutation_for Demo.ix d) Demo.no_world with
    | (_, Js.Ok _) =>
        errors st' = [] ++ [no_sizes_warning (0 + 2)] /\
        importedCount st' + updatedCount st' = S (0 + 0)
    | (_, Js.Throw e) =>
        errors st' = [] ++ [no_sizes_warning (0 + 2)]
                       ++ [service_error_reason (0 + 2) d e]
    end.
Proof.
  refine (no_size_data_fallback Demo.ix 0 Demo.plain (start Demo.no_world) _ _ _ _ _).
  - vm_compute. repeat split; eauto.
  - vm_compute. reflexivity.
  - left. vm_compute. reflexivity.
  - vm_compute. reflexivity.
  - vm_compute. reflexivity.
Defined.

(** C8: "Sizes" holds two names and "Stocks" the number 0.  Both cells
    are present and the lists differ in length, yet the row is not
    rejected: the falsy cell counts as missing, and the row is inserted
    with the warning and without sizes. *)
Lemma parallel_columns_counterexample :
  let row :=
    Demo.row_with [("Sizes", CStr "S,M"); ("Stocks", CNum (Js.of_nat 0))] (CStr "N1") in
  length (Js.split "," (String_ (field row "Sizes"))) = 2 /\
  length (Js.split "," (String_ (field row "Stocks"))) = 1 /\
  parse_row Demo.ix 2 row
    = Parsed (Some (no_sizes_warning 2)) (Demo.plain_data "[]" true) /\
  calls (process_row Demo.ix 0 row (start Demo.no_world))
    = [AddProduct (Demo.plain_data "[]" true)].
Proof. vm_compute. repeat split. Qed.

(** C10: the stocks "2.9" and "3x". *)
Lemma stock_tokens_truncated_witness :
  exists d,
    parse_row Demo.ix (0 + 2) (Demo.parallel_row "S,M" "2.9,3x") = Parsed None d /\
    pd_sizes d = Demo.qq "[{'size':'S','stock':2},{'size':'M','stock':3}]" /\
    calls (process_row Demo.ix 0 (Demo.parallel_row "S,M" "2.9,3x") (start Demo.no_world))
      = [] ++ [mutation_for Demo.ix d].
Proof.
  pose proof (proj1 (proj2 (proj2 stock_tokens_truncated)) Demo.ix 0
                (Demo.parallel_row "S,M" "2.9,3x") [2%N; 3%N] (start Demo.no_world))
    as Ht.
  assert (Hok : fields_ok Demo.ix (Demo.parallel_row "S,M" "2.9,3x")).
  { vm_compute. repeat split; eauto. }
  specialize (Ht Hok ltac:(vm_compute; reflexivity) ltac:(vm_compute; discriminate)
                 ltac:(vm_compute; discriminate)).
  cbv zeta in Ht.
  assert (Hnames : Forall (fun n => n <> "")
            (map Js.trim (Js.split "," (trimmed (Demo.parallel_row "S,M" "2.9,3x") "Sizes")))).
  { repeat constructor; vm_compute; discriminate. }
  assert (Htoks : Forall2 truncates_to
            (Js.split "," (trimmed (Demo.parallel_row "S,M" "2.9,3x") "Stocks"))
            [2%N; 3%N]).
  { change (Js.split "," (trimmed (Demo.parallel_row "S,M" "2.9,3x") "Stocks"))
      with ["2.9"; "3x"].
    constructor; [| constructor; [| constructor]].
    - exists ["2"%char], ["."%char; "9"%char].
      repeat split; [discriminate | repeat constructor].
    - exists ["3"%char], ["x"%char].
      repeat split; [discriminate | repeat constructor]. }
  destruct (Ht Hnames Htoks eq_refl) as (d & Hp & Hs & Hc).
  exists d. split; [exact Hp |]. split; [| exact Hc].
  rewrite Hs. vm_compute. reflexivity.
Defined.

(** C10: the token "9007199254740993" is all digits, and the row is
    imported with the stock 9007199254740992, the double nearest to
    it. *)
Lemma stock_tokens_counterexample :
  truncates_to "9007199254740993" 9007199254740993 /\
  parse_row Demo.ix 2 (Demo.parallel_row "S" "9007199254740993")
    = Parsed None
        (Demo.plain_data (Demo.qq "[{'size':'S','stock':9007199254740992}]") true).
Proof.
  split; [| vm_compute; reflexivity].
  exists (Js.chars "9007199254740993"), [].
  repeat split; [discriminate | repeat constructor].
Qed.

(** The examples of the specification. *)

Example sizes_and_stocks_of_different_length :
  parse_row Demo.ix 2 (Demo.parallel_row "S,M,L" "1,2")
  = Rejected (Demo.qq "Row 2: Mismatch between number of sizes (3) in 'Sizes' and stock values (2) in 'Stocks'.").
Proof. vm_compute. reflexivity. Qed.

Example negative_stock :
  process_row Demo.ix 0 (Demo.parallel_row "S,M" "1,-2") (start Demo.no_world)
  = {| importedCount := 0; updatedCount := 0;
       errors := [Demo.qq "Row 2: Stock value for size 'M' (-2) cannot be negative."];
       calls := []; world := Demo.no_world |}.
Proof. vm_compute. reflexivity. Qed.

Example same_new_code_twice :
  calls (import_rows Demo.ix 0 [Demo.plain; <["Title" := CStr "Walker"]> Demo.plain]
                     (start Demo.no_world))
  = [AddProduct (Demo.plain_data "[]" true);
     AddProduct {| pd_id := None; pd_title := "Walker"; pd_code := "N1";
                   pd_price := Js.Finite false 25 0; pd_categoryId := "c1";
                   pd_manufacturerId := "m1"; pd_sizes := "[]";
                   pd_image := "http://img/r.png"; pd_isVisible := true |}].
Proof. vm_compute. reflexivity. Qed.

(** A refused row leaves its reason and the next row is still inserted. *)
Example service_error_is_recorded :
  let st := @import_rows _ Demo.flaky Demo.ix 0
              [Demo.row_with [("Title", CStr "boom"); ("Stock", CNum (Js.of_nat 1))]
                             (CStr "N0");
               Demo.row_with [("Stock", CNum (Js.of_nat 1))] (CStr "N1")]
              (start Demo.no_world) in
  errors st = ["Row 2 (Code: N0): Error processing - HTTP error! status: 500"] /\
  importedCount st = 1 /\ length (calls st) = 2.
Proof. vm_compute. repeat split. Qed.

Example empty_worksheet :
  import_pass Demo.t [] (Demo.page0 [Demo.air]) Demo.no_world
  = (setActionError "errors.apiErrorGeneric" (Demo.page0 [Demo.air]), Demo.no_world, None).
Proof. reflexivity. Qed.

End Worked.

(** ** Further worked instances *)

Module Instances.

Import Fetch.

(** X3: a row with one size and its stock. *)
Lemma validated_record_witness :
  let d := Demo.plain_data (Demo.qq "[{'size':'S','stock':2}]") true in
  pd_id d = None /\
  pd_title d <> "" /\ pd_code d <> "" /\ pd_image d <> "" /\
  positive (pd_price d) /\
  pd_categoryId d <> "" /\
  categoryMap Demo.ix !! "shoes" = Some (pd_categoryId d) /\
  pd_manufacturerId d <> "" /\
  manufacturerMap Demo.ix !! "nike" = Some (pd_manufacturerId d) /\
  payload_ok (pd_sizes d).
Proof.
  intros d.
  pose proof (validated_record Demo.ix 2 (Demo.parallel_row "S" "2") None d) as Hv.
  specialize (Hv ltac:(vm_compute; reflexivity)).
  destruct Hv as (H1 & H2 & H3 & H4 & H5 & H6 & H7 & H8 & H9 & H10).
  repeat (split; [assumption |]).
  apply H10.
  change (stock_texts (Demo.parallel_row "S" "2")) with ["2"; "undefined"; "undefined"].
  repeat (apply Forall_cons; split;
          [first [left; vm_compute; reflexivity | right; vm_compute; reflexivity] |]).
  constructor.
Defined.


(** X5: English words come back as they went out; a hidden product
    exported as "Non" stays hidden, a visible one exported as "Oui"
    comes back hidden. *)
Lemma visibility_round_trip_witness :
  parse_isVisible (export_row Demo.t Demo.bare) = isVisible Demo.bare /\
  parse_isVisible (export_row Shop.t_fr Demo.air) = false.
Proof.
  split.
  - apply (proj1 (proj2 (visibility_round_trip Demo.t Demo.bare))); reflexivity.
  - apply (proj2 (proj2 (visibility_round_trip Shop.t_fr Demo.air))); reflexivity.
Defined.

(** X6: the exported row of [Demo.air]. *)
Lemma exported_rows_take_the_payload_witness :
  resolve_sizes 2 (export_row Demo.t Demo.air)
  = SizesResolved None (stringify_sizes (sizes Demo.air)).
Proof.
  apply (proj2 (proj2 (exported_rows_take_the_payload Demo.t Demo.air 2 CNull))).
  repeat (apply Forall_cons; split; [split; vm_compute; reflexivity |]).
  constructor.
Defined.

(** X7: an empty worksheet: the error of the import stays and the
    product list is replaced by what the service returns. *)
Lemma refresh_after_import_witness :
  handleFileImport Demo.t [] (Demo.page0 [Demo.air]) Demo.no_world
  = (setProducts []
       (setActionError (empty_file_message Demo.t)
          (clearMessages (Demo.page0 [Demo.air]))), Demo.no_world).
Proof.
  apply (proj1 (refresh_after_import Demo.t [] (Demo.page0 [Demo.air]) Demo.no_world
                  _ _ None eq_refl)).
  reflexivity.
Defined.

(** X8: [Demo.air], whose price 19.99 is written and read as such. *)
Lemma round_trip_keeps_the_data_witness :
  exists d,
    parse_row Demo.ix 2 (export_row Demo.t Demo.air) = Parsed None d /\
    pd_title d = title Demo.air /\ pd_code d = code Demo.air /\
    pd_image d = image Demo.air /\
    pd_sizes d = stringify_sizes (sizes Demo.air) /\
    same_number (price Demo.air) (pd_price d) /\
    categoryMap Demo.ix !! Js.toLowerCase (exported_category Demo.air)
      = Some (pd_categoryId d) /\
    manufacturerMap Demo.ix !! Js.toLowerCase (exported_manufacturer Demo.air)
      = Some (pd_manufacturerId d).
Proof.
  apply (round_trip_keeps_the_data Demo.t Demo.ix 2 Demo.air).
  constructor.
  1-3, 5-8: vm_compute; discriminate.
  - split; vm_compute; reflexivity.
  - repeat (apply Forall_cons; split; [split; vm_compute; reflexivity |]).
    constructor.
Defined.

(** X9: the search "AI" finds "Air" and not "Bare". *)
Lemma shown_products_witness :
  Demo.air ∈ filteredAndSortedProducts (Shop.search "AI") [Demo.air; Demo.bare].
Proof.
  apply (shown_products (Shop.search "AI") [Demo.air; Demo.bare] Demo.air).
  split; [left |]. split; [| split; now left].
  right. left. now exists "", "r".
Defined.

(** X11: two products by ascending price. *)
Lemma sorted_view_witness :
  StronglySorted (fun a b => lt_by KPrice b a = false)
    (filteredAndSortedProducts Shop.by_price [Demo.air; Demo.bare]).
Proof.
  apply (sorted_view Shop.by_price [Demo.air; Demo.bare]
           {| key := KPrice; direction := ascending |} eq_refl).
  repeat constructor.
Defined.

(** X12: the products priced as [Demo.air]. *)
Lemma sorted_view_stable_witness :
  List.filter
    (fun q => (compare_products {| key := KPrice; direction := ascending |} Demo.air q
               =? 0)%Z)
    (filteredAndSortedProducts Shop.by_price [Demo.air; Demo.bare; Demo.air])
  = List.filter
      (fun q => (compare_products {| key := KPrice; direction := ascending |} Demo.air q
                 =? 0)%Z)
      (filtered Shop.by_price [Demo.air; Demo.bare; Demo.air]).
Proof.
  apply (sorted_view_stable Shop.by_price [Demo.air; Demo.bare; Demo.air]
           {| key := KPrice; direction := ascending |} Demo.air eq_refl).
  - reflexivity.
  - repeat constructor.
Defined.

(** X13: a click on the price after a click on the title. *)
Lemma requestSort_directions_witness :
  sortConfig (requestSort KPrice (requestSort KTitle cleared))
  = Some {| key := KPrice; direction := ascending |}.
Proof.
  apply (proj2 (proj2 (proj2 (proj2 (requestSort_directions KTitle cleared)))) KPrice).
  reflexivity.
Defined.

(** X14: unticking "b". *)
Lemma selection_toggle_witness :
  NoDup (handleSelectProduct "b" false ["a"; "b"]).
Proof.
  apply (proj2 (proj2 (proj2 (proj2 (selection_toggle "b" "a" ["a"; "b"]))))).
  apply (bool_decide_unpack (NoDup ["a"; "b"])). vm_compute. exact I.
Defined.

(** X16: the export under the search "ai" has the row of "Air". *)
Lemma export_of_the_view_witness :
  map (export_row Demo.t) [Demo.air]
    ≡ₚ map (export_row Demo.t)
           (filtered (Shop.search "ai") (products (Demo.page0 [Demo.air; Demo.bare]))) /\
  actionError
    (fst (handleExportProducts Demo.t
            (filteredAndSortedProducts (Shop.search "ai")
               (products (Demo.page0 [Demo.air; Demo.bare])))
            (Demo.page0 [Demo.air; Demo.bare]))) = None.
Proof.
  apply (proj2 (export_of_the_view Demo.t (Shop.search "ai")
                  (Demo.page0 [Demo.air; Demo.bare]))).
  reflexivity.
Defined.

(** X17: the answer 400 with the message "Code exists". *)
Lemma failed_response_throws_witness :
  productService.handleApiResponse (Shop.refused "Code exists")
  = Js.Throw (Js.Error "Code exists").
Proof.
  destruct (failed_response_throws (Shop.refused "Code exists") eq_refl)
    as (e & -> & He & _).
  f_equal. apply (He [("message", Js.JString "Code exists")] "Code exists").
  - vm_compute. reflexivity.
  - reflexivity.
  - discriminate.
Defined.

(** X18: a user is remembered and no token: she is taken as she is,
    and as an employee sees the sales view. *)
Lemma session_check_outcomes_witness :
  currentUser (fst (checkSession Shop.app0 Shop.remembered))
    = Js.JObject [("username", Js.JString "ann"); ("role", Js.JString "employee")] /\
  snd (checkSession Shop.app0 Shop.remembered) = Shop.remembered.
Proof.
  refine (proj1 (proj2 (proj1 (proj2 (session_check_outcomes Shop.app0 Shop.remembered))
                   _) _ _ _ _) _).
  - reflexivity.
  - reflexivity.
  - vm_compute. reflexivity.
  - discriminate.
Defined.

(** X19: a size name without a stock value. *)
Lemma stock_update_parameters_witness :
  productService.updateProductStockAdmin "p1" (Some "M") None None
    (Shop.online (Shop.always Shop.no_content))
  = (Shop.online (Shop.always Shop.no_content),
     Js.Throw (Js.Error "Invalid parameters for updateProductStockAdmin")).
Proof.
  apply (proj2 (stock_update_parameters "p1" (Some "M") None
                  (Shop.online (Shop.always Shop.no_content)))).
  now right.
Defined.

(** X20: the login of "ann". *)
Lemma login_stores_the_token_witness :
  exists s',
    productService.authenticateUser "ann" "pw"
      (Shop.online (Shop.always (Shop.answered Shop.session)))
    = (setItem "authToken" "tok1"
         (after (Shop.online (Shop.always (Shop.answered Shop.session))) s'),
       Js.Ok (Js.JObject [("username", Js.JString "ann")])) /\
    productService.getAuthHeaders
      (setItem "authToken" "tok1"
         (after (Shop.online (Shop.always (Shop.answered Shop.session))) s'))
    = [("Authorization", "Bearer tok1")].
Proof.
  eexists.
  apply (proj1 (login_stores_the_token "ann" "pw"
                  (Shop.online (Shop.always (Shop.answered Shop.session))))
           _ (Shop.answered Shop.session)
           [("token", Js.JString "tok1");
            ("user", Js.JObject [("username", Js.JString "ann")])]).
  - reflexivity.
  - reflexivity.
  - discriminate.
  - vm_compute. reflexivity.
  - reflexivity.
  - discriminate.
  - reflexivity.
  - reflexivity.
Defined.

(** X21: a stored token that the server refuses. *)
Lemma failed_session_check_witness :
  let b := setItem "authToken" "old" (Shop.online (Shop.always (Shop.refused "Expired"))) in
  snd (productService.fetchCurrentUser b) = Js.JNull /\
  localStorage (fst (productService.fetchCurrentUser b)) !! "authToken" = None /\
  localStorage (fst (productService.fetchCurrentUser b)) !! "currentUser" = None.
Proof.
  intros b.
  eapply (proj2 (failed_session_check_logs_out b)); [reflexivity | reflexivity].
Defined.

(** X22: the server refuses the new product of [Demo.plain]. *)
Lemma server_message_witness :
  errors
    (@process_row _ (productService.remote Shop.no_categories Shop.no_manufacturers
                       Shop.no_products)
       Demo.ix 0 Demo.plain
       (start (Shop.online (Shop.always (Shop.refused "Code exists")))))
  = [no_sizes_warning 2; "Row 2 (Code: N1): Error processing - Code exists"].
Proof.
  erewrite (server_message_reaches_the_report Shop.no_categories Shop.no_manufacturers
             Shop.no_products Demo.ix 0 Demo.plain
             (start (Shop.online (Shop.always (Shop.refused "Code exists"))))
             (Some (no_sizes_warning 2)) (Demo.plain_data "[]" true)
             _ (Shop.refused "Code exists")
             [("message", Js.JString "Code exists")] "Code exists").
  - reflexivity.
  - vm_compute. reflexivity.
  - reflexivity.
  - reflexivity.
  - reflexivity.
  - vm_compute. reflexivity.
  - reflexivity.
  - discriminate.
Defined.

(** X23: two products, both confirmed by the server, and a refresh that
    succeeds: the selection is emptied and the page shows the success
    message. *)
Lemma bulk_delete_accounting_witness :
  let b := Shop.online (Shop.always
             (Shop.answered (Js.JObject [("success", Js.JBool true)]))) in
  let out := handleBulkDeleteSelected Demo.t Shop.no_categories Shop.no_manufacturers
               Shop.no_products true ["p1"; "p2"] (Demo.page0 [Demo.air]) b in
  snd (fst out) = [] /\
  exists msg, MessageDisplay (fst (fst out)) = Some (SuccessBanner msg).
Proof.
  intros b out.
  destruct (bulk_delete_accounting Demo.t Shop.no_categories Shop.no_manufacturers
              Shop.no_products ["p1"; "p2"] (Demo.page0 [Demo.air]) b
              ltac:(discriminate))
    as (n & errs & b1 & Hd & Hk & Hf & Hout).
  cbv zeta in Hout. destruct Hout as (Hsel & Hmsg & Hok & Hfail).
  split; [exact Hsel |].
  vm_compute in Hd. injection Hd as <- <- <-.
  refine (proj1 (Hok _ _ _) eq_refl).
  vm_compute. reflexivity.
Defined.

(** X24: the question is answered with no. *)
Lemma bulk_delete_asks_first_witness :
  let b := Shop.online (Shop.always Shop.no_content) in
  let out := handleBulkDeleteSelected Demo.t Shop.no_categories Shop.no_manufacturers
               Shop.no_products false ["p1"] (Demo.page0 [Demo.air]) b in
  snd out = b /\ snd (fst out) = ["p1"] /\
  products (fst (fst out)) = products (Demo.page0 [Demo.air]) /\
  successMessage (fst (fst out)) = None.
Proof.
  intros b.
  apply (proj1 (bulk_delete_asks_first Demo.t Shop.no_categories Shop.no_manufacturers
                  Shop.no_products false ["p1"] (Demo.page0 [Demo.air]) b)).
  now right.
Defined.

(** X25: two products on the server that answers 204. *)
Lemma no_content_bulk_delete_witness :
  let b := {| localStorage := ∅; network := [] |} in
  (exists b1, @delete_each _ Shop.quiet ["p1"; "p2"] 0 [] b
     = (0, map (fun i => "Product ID " +:+ i
                         +:+ ": Cannot read properties of null (reading 'success')")
               ["p1"; "p2"], b1)) /\
  successMessage
    (fst (fst (@handleBulkDeleteSelected _ Shop.quiet Demo.t Shop.no_categories
                 Shop.no_manufacturers Shop.no_products true ["p1"; "p2"]
                 (Demo.page0 [Demo.air]) b))) = None.
Proof.
  intros b.
  apply (@no_content_bulk_delete _ Shop.quiet Demo.t Shop.no_categories
           Shop.no_manufacturers Shop.no_products ["p1"; "p2"] (Demo.page0 [Demo.air]) b).
  - intros request s _. exists (s ++ [request]), Shop.no_content. split; reflexivity.
  - discriminate.
Defined.

(** X26: an id that is not in the product list. *)
Lemma bulk_edit_accounting_witness :
  let b := Shop.online (Shop.always Shop.no_content) in
  let updates := {| u_categoryId := Some "c2"; u_manufacturerId := None;
                    u_isVisible := None |} in
  edit_each updates (products (Demo.page0 [Demo.air])) ["zz"] 0 [] b
  = (0, map not_found_for_update ["zz"], b).
Proof.
  intros b updates.
  apply (proj1 (proj2 (bulk_edit_accounting Demo.t Shop.no_categories
                         Shop.no_manufacturers Shop.no_products updates ["zz"]
                         (Demo.page0 [Demo.air]) b))).
  repeat constructor. intros p Hp.
  apply list_elem_of_singleton in Hp. subst p. discriminate.
Defined.

(** X27: the question is answered with no. *)
Lemma delete_refreshes_on_success_witness :
  let b := Shop.online (Shop.always Shop.no_content) in
  handleDeleteProduct Demo.t Shop.no_categories Shop.no_manufacturers Shop.no_products
    false "p1" (Demo.page0 [Demo.air]) b
  = (clearMessages (Demo.page0 [Demo.air]), b).
Proof.
  intros b.
  apply (proj1 (delete_refreshes_on_success Demo.t Shop.no_categories
                  Shop.no_manufacturers Shop.no_products false "p1"
                  (Demo.page0 [Demo.air]) b)).
  reflexivity.
Defined.

(** X28: "ann" deletes herself. *)
Lemma user_delete_outcomes_witness :
  let b := Shop.online (Shop.always Shop.no_content) in
  handleDeleteUser Demo.t Shop.no_users Shop.ann true "u1" "ann" Shop.users0 b
  = ({| users := users Shop.users0;
        users_actionError := Some (Demo.t "userManagement.errorSelfDelete" []);
        users_successMessage := None |}, b).
Proof.
  intros b.
  apply (proj2 (user_delete_outcomes Demo.t Shop.no_users Shop.ann true "u1" "ann"
                  Shop.users0 b)).
  reflexivity.
Defined.

(** X29: the server reports no success although it returns the
    product. *)
Lemma stock_sale_outcome_witness :
  let answer := Js.JObject [("success", Js.JBool false); ("product", Js.JObject [])] in
  exists s',
    productService.updateStock "p1" "M" (Js.of_nat 2)
      (Shop.online (Shop.always (Shop.answered answer)))
    = (after (Shop.online (Shop.always (Shop.answered answer))) s',
       Js.Ok (Js.JBool false)).
Proof.
  intros answer. eexists.
  refine (proj2 (stock_sale_outcome "p1" "M" (Js.of_nat 2)
                   (Shop.online (Shop.always (Shop.answered answer)))
                   _ (Shop.answered answer) _ _)
            [("success", Js.JBool false); ("product", Js.JObject [])] _ _).
  - reflexivity.
  - reflexivity.
  - discriminate.
  - vm_compute. reflexivity.
Defined.

(** X30: one product in stock and one without a stock. *)
Lemma inventory_summary_witness :
  productsInStockCount (inventorySummary "" [Demo.air; Demo.bare])
  + outOfStockCount (inventorySummary "" [Demo.air; Demo.bare])
  = totalProducts (inventorySummary "" [Demo.air; Demo.bare]).
Proof.
  apply (proj1 (proj2 (proj2 (proj2 (inventory_summary "" [Demo.air; Demo.bare]))))).
  repeat constructor.
Defined.

End Instances.

(** ** The runtime on examples *)

Example toString_examples :
  map Js.toString
      [Js.Finite false 1999 (-2); Js.Finite true 5 0; Js.Finite false 12 19;
       Js.Finite false 1 21; Js.Finite false 15 (-8); Js.Finite false 120 (-5);
       Js.Finite true 0 3; Js.of_nat 42]
  = ["19.99"; "-5"; "120000000000000000000"; "1e+21"; "1.5e-7"; "0.0012"; "0"; "42"].
Proof. vm_compute. reflexivity. Qed.

Example parse_examples :
  (map Js.parseInt ["2.9"; "3x"; "abc"; ""; " -12 "; "+7"],
   map Js.parseFloat ["19.99"; ".5"; "1e3x"; "1e"; "-Infinityx"; "."; " 1.e2"; "0x10"])
  = ([Js.Finite false 2 0; Js.Finite false 3 0; Js.NaN; Js.NaN; Js.Finite true 12 0;
      Js.Finite false 7 0],
     [Js.Finite false 1999 (-2); Js.Finite false 5 (-1); Js.Finite false 1 3;
      Js.Finite false 1 0; Js.Infinity true; Js.NaN; Js.Finite false 1 2;
      Js.Finite false 0 0]).
Proof. vm_compute. reflexivity. Qed.

Example string_examples :
  (Js.split "," "S, M,,L", Js.split "," "", map Js.trim ["  a b  "; "   "; "x"],
   Js.toLowerCase "YeS")
  = (["S"; " M"; ""; "L"], [""], ["a b"; ""; "x"], "yes").
Proof. vm_compute. reflexivity. Qed.

Example json_examples :
  (Js.JSON_parse
     (Demo.qq " [ {'size': 'MA\n', 'stock' : 3.50e1, 'size':'x'}, null, [], {}, -0, true ] "),
   Js.JSON_parse "[1,]", Js.JSON_parse "01", Js.JSON_parse "[1] x",
   Js.JSON_stringify
     (Js.JArray [Js.JObject [("size", Js.JString (Demo.qq "a'\" +:+ String "001" ""));
                             ("stock", Js.JNumber (Js.Finite false 35 0))];
                 Js.JNumber Js.NaN]))
  = (Js.Ok (Js.JArray
              [Js.JObject [("size", Js.JString ("MA" +:+ String "010" ""));
                           ("stock", Js.JNumber (Js.Finite false 35 0));
                           ("size", Js.JString "x")];
               Js.JNull; Js.JArray []; Js.JObject []; Js.JNumber (Js.Finite true 0 0);
               Js.JBool true]),
     Js.Throw (Js.SyntaxError "Unexpected token in JSON"),
     Js.Throw (Js.SyntaxError "Unexpected number in JSON"),
     Js.Throw (Js.SyntaxError "Unexpected non-whitespace character after JSON"),
     Demo.qq "[{'size':'a\'\\\u0001','stock':35},null]").
Proof. vm_compute. reflexivity. Qed.

(** Numbers as doubles: the text is that of the nearest double, a numeral
    below the range of the doubles is a zero and one above it an
    infinity. *)
Example double_examples :
  (map Js.toString
       [Js.Finite false 1 (-1); Js.Finite false 9007199254740993 0;
        Js.Finite false 123456789012345678901234 0; Js.Finite false 5 (-324);
        Js.Finite false 2 (-324); Js.Finite false 17976931348623157 292;
        Js.Finite false 1 400; Js.Finite true 1 (-400);
        Js.Finite false 30000000000000004 (-17); Js.Finite false 1 (-7);
        Js.Finite false 1 (-6)],
   map Js.parseInt ["9007199254740993"; "100"; "-0"],
   map Js.parseFloat ["1e-400"; "-1e-400"; "1e400"; "0.1000000000000000055"; "2.50"],
   Js.JSON_parse "-1e-400",
   map Js.le0 [Js.parseFloat "1e-400"; Js.parseFloat "5e-324"; Js.parseFloat "1e400"],
   map Js.ge0 [Js.Finite true 1 (-400); Js.Finite true 5 (-324)],
   map Js.isFinite [Js.parseInt (Js.text ("1"%char :: Js.zeros 308));
                    Js.parseInt (Js.text ("1"%char :: Js.zeros 309))],
   number_lt (Js.Finite false 9007199254740992 0) (Js.Finite false 9007199254740993 0))
  = (["0.1"; "9007199254740992"; "1.2345678901234569e+23"; "5e-324"; "0";
      "1.7976931348623157e+308"; "Infinity"; "0"; "0.30000000000000004"; "1e-7";
      "0.000001"],
     [Js.Finite false 9007199254740992 0; Js.Finite false 1 2; Js.Finite true 0 0],
     [Js.Finite false 0 0; Js.Finite true 0 0; Js.Infinity false;
      Js.Finite false 1 (-1); Js.Finite false 25 (-1)],
     Js.Ok (Js.JNumber (Js.Finite true 0 0)),
     [true; false; false], [true; false], [true; false], false).
Proof. vm_compute. reflexivity. Qed.

(** A price below the range of the doubles is zero, and refused. *)
Example price_below_the_doubles :
  parse_row Demo.ix 2 (<["Price" := CStr "1e-400"]> Demo.plain)
  = Rejected (Demo.qq "Row 2: Invalid Price '1e-400'. Must be a positive number.").
Proof. vm_compute. reflexivity. Qed.

(** A stock that is the negative zero is not negative; a name written
    with the escape of a character outside the range is not the name
    "size". *)
Example payload_examples :
  let zero := Demo.qq "[{'size':'S','stock':-1e-400}]" in
  let other := Demo.qq "[{'\u0173ize':'S','stock':1}]" in
  parse_row Demo.ix 2 (Demo.payload_row zero) = Parsed None (Demo.plain_data zero true) /\
  size_stock_ok (Js.JObject [("size", Js.JString "S");
                             ("stock", Js.JNumber (Js.Finite true 1 (-400)))])
    = Js.Ok true /\
  parse_row Demo.ix 2 (Demo.payload_row other)
  = Rejected ("Row 2: 'SizesStockJSON' (" +:+ Js.quoted other
              +:+ ") is not a valid array of {size: string, stock: number (>=0)}.").
Proof. vm_compute. repeat split. Qed.

(** A stock of 310 digits is beyond the doubles: the row is validated and
    the stock is written as null. *)
Example stock_beyond_the_doubles :
  parse_row Demo.ix 2 (Demo.parallel_row "S" (Js.text ("1"%char :: Js.zeros 309)))
  = Parsed None (Demo.plain_data (Demo.qq "[{'size':'S','stock':null}]") true).
Proof. vm_compute. reflexivity. Qed.
